(** * A shallow embedding of the in-browser IDE's file tree and terminal

    The development follows the [App] component and [types.ts].
    JavaScript strings are modelled by
    [string] (characters restricted to 8-bit code units), [undefined] / [null]
    by [option], awaited host calls by an explicit [Host] record whose fields
    either resolve or reject, and React state setters by a list of [Update]s
    that the handler enqueues and that are applied afterwards. *)

From Stdlib Require Import String Ascii List Bool Arith NArith ZArith Lia.
From Stdlib Require Import Sorted Permutation.
Import ListNotations.
Open Scope string_scope.
Set Warnings "-register-all".

(** ** JavaScript string helpers *)

Module JS.

(** White space removed by [String.prototype.trim], restricted to the
    8-bit range: TAB, LF, VT, FF, CR, SPACE and NBSP. *)
Definition isWhiteSpace (c : ascii) : bool :=
  existsb (N.eqb (N_of_ascii c)) [9; 10; 11; 12; 13; 32; 160]%N.

Fixpoint trimStart (s : string) : string :=
  match s with
  | EmptyString => EmptyString
  | String c r => if isWhiteSpace c then trimStart r else s
  end.

Fixpoint trimEnd (s : string) : string :=
  match s with
  | EmptyString => EmptyString
  | String c r =>
      let r' := trimEnd r in
      if isWhiteSpace c && (r' =? "") then EmptyString else String c r'
  end.

Definition trim (s : string) : string := trimEnd (trimStart s).

(** [s.split(sep)] for a one-character separator; never the empty list. *)
Fixpoint split (sep : ascii) (s : string) : list string :=
  match s with
  | EmptyString => [EmptyString]
  | String c r =>
      if Ascii.eqb c sep then EmptyString :: split sep r
      else match split sep r with
           | h :: t => String c h :: t
           | [] => [String c EmptyString]
           end
  end.

(** [l.join(sep)]. *)
Definition join (sep : string) (l : list string) : string := String.concat sep l.

(** [l.pop()] as a value: the last element, if any. *)
Fixpoint pop {A : Type} (l : list A) : option A :=
  match l with
  | [] => None
  | [x] => Some x
  | _ :: r => pop r
  end.

(** [l.slice(0, -1)]. *)
Definition slice_init {A : Type} (l : list A) : list A := removelast l.

Definition lowerChar (c : ascii) : ascii :=
  let n := N_of_ascii c in
  if (65 <=? n)%N && (n <=? 90)%N then ascii_of_N (n + 32) else c.

Definition upperChar (c : ascii) : ascii :=
  let n := N_of_ascii c in
  if (97 <=? n)%N && (n <=? 122)%N then ascii_of_N (n - 32) else c.

Fixpoint mapChars (f : ascii -> ascii) (s : string) : string :=
  match s with
  | EmptyString => EmptyString
  | String c r => String (f c) (mapChars f r)
  end.

(** ASCII letters only; enough for the comparisons the source performs. *)
Definition toLowerCase : string -> string := mapChars lowerChar.
Definition toUpperCase : string -> string := mapChars upperChar.

(** [s.substring(0, n)]. *)
Definition substring0 (n : nat) (s : string) : string := String.substring 0 n s.

(** Truthiness of a possibly undefined string: [undefined] and [''] are falsy. *)
Definition truthy (s : option string) : bool :=
  match s with
  | None => false
  | Some t => negb (t =? "")
  end.

(** A [for (const x of l)] loop whose body either returns a value
    ([Some]) or falls through to the next iteration ([None]). *)
Definition forOf {A B : Type} (body : A -> option B) : list A -> option B :=
  fix loop (l : list A) : option B :=
    match l with
    | [] => None
    | x :: r => match body x with
                | Some y => Some y
                | None => loop r
                end
    end.

(** [l.find(p)]. *)
Definition find {A : Type} (p : A -> bool) (l : list A) : option A := List.find p l.

End JS.

(** ** Data model ([types.ts]) *)

Inductive FileType : Type := FILE | FOLDER.

Definition FileType_eqb (a b : FileType) : bool :=
  match a, b with
  | FILE, FILE | FOLDER, FOLDER => true
  | _, _ => false
  end.

(** A [FileSystemHandle] of the host; opaque to the program. *)
Inductive Handle : Type := mkHandle (n : nat).

(** [parentId] merges [null] and the absent field, which the source never
    tells apart. *)
Inductive FileSystemNode : Type := mkNode {
  id : string;
  name : string;
  type : FileType;
  content : option string;
  language : option string;
  children : option (list FileSystemNode);
  isOpen : option bool;
  parentId : option string;
  handle : option Handle }.

Record Tab : Type := mkTab {
  tab_id : string;
  title : string;
  isDirty : bool }.

(** Object spread with an overridden field. *)
Definition with_children (n : FileSystemNode) (cs : list FileSystemNode) : FileSystemNode :=
  mkNode (id n) (name n) (type n) (content n) (language n) (Some cs) (isOpen n)
         (parentId n) (handle n).

Definition with_children_open (n : FileSystemNode) (cs : list FileSystemNode) : FileSystemNode :=
  mkNode (id n) (name n) (type n) (content n) (language n) (Some cs) (Some true)
         (parentId n) (handle n).

(** [node.children || []]. *)
Definition children_or_nil (n : FileSystemNode) : list FileSystemNode :=
  match children n with
  | Some cs => cs
  | None => []
  end.

(** Structural induction through the nested [children] lists. *)
Section NodeInduction.
Variable P : FileSystemNode -> Prop.
Hypothesis step : forall n, Forall P (children_or_nil n) -> P n.

Fixpoint FileSystemNode_deep_ind (n : FileSystemNode) : P n :=
  step n
    (match n as m return Forall P (children_or_nil m) with
     | mkNode _ _ _ _ _ cs _ _ _ =>
         match cs as o return Forall P (match o with Some l => l | None => [] end) with
         | Some l =>
             (fix all (l : list FileSystemNode) : Forall P l :=
                match l with
                | [] => Forall_nil P
                | x :: r => Forall_cons x (FileSystemNode_deep_ind x) (all r)
                end) l
         | None => Forall_nil P
         end
     end).
End NodeInduction.

(** ** Tree helpers and queries *)

(** One iteration of the loop of [findNode]. *)
Fixpoint findNode_visit (i : string) (node : FileSystemNode) : option FileSystemNode :=
  if id node =? i then Some node
  else match children node with
       | Some cs => JS.forOf (findNode_visit i) cs
       | None => None
       end.

Definition findNode (nodes : list FileSystemNode) (i : string) : option FileSystemNode :=
  JS.forOf (findNode_visit i) nodes.

(** One iteration of the loop of [findContent] inside [getFileContent]:
    [Some s] when the loop returns [s], [None] when it goes on.  The nested
    result is returned only when it is truthy ([if (found) return found]). *)
Fixpoint findContent_visit (fileName : string) (node : FileSystemNode) : option string :=
  match (if name node =? fileName then content node else None) with
  | Some c => Some c
  | None =>
      match children node with
      | Some cs =>
          match JS.forOf (findContent_visit fileName) cs with
          | Some found => if JS.truthy (Some found) then Some found else None
          | None => None
          end
      | None => None
      end
  end.

Definition findContent (fileName : string) (nodes : list FileSystemNode) : option string :=
  JS.forOf (findContent_visit fileName) nodes.

(** [findContent(fileSystem) || '']. *)
Definition getFileContent (fileSystem : list FileSystemNode) (fileName : string) : string :=
  match findContent fileName fileSystem with
  | Some s => if JS.truthy (Some s) then s else ""
  | None => ""
  end.

(** ** File classification *)

(** The [switch] of [getLanguageFromExtension], as an ordered table. *)
Definition languageTable : list (list string * string) :=
  [ (["js"; "mjs"], "javascript");
    (["ts"], "typescript");
    (["tsx"], "tsx");
    (["jsx"], "jsx");
    (["html"; "htm"], "html");
    (["css"], "css");
    (["scss"], "scss");
    (["less"], "less");
    (["json"], "json");
    (["py"], "python");
    (["java"; "class"], "java");
    (["c"; "h"], "c");
    (["cpp"], "cpp");
    (["cs"], "csharp");
    (["go"], "go");
    (["rs"], "rust");
    (["php"], "php");
    (["sql"], "sql");
    (["xml"], "xml");
    (["yaml"; "yml"], "yaml");
    (["svg"], "xml");
    (["md"; "txt"; "gitignore"; "env"], "text");
    (["csv"], "csv");
    (["ini"; "cfg"; "conf"], "ini");
    (["dll"; "sys"; "dat"; "tmp"], "system");
    (["doc"; "docx"; "rtf"; "odt"], "document");
    (["pdf"], "pdf");
    (["xls"; "xlsx"; "ods"], "spreadsheet");
    (["png"; "jpg"; "jpeg"; "gif"; "webp"; "bmp"; "ico"; "tiff"; "tif"], "image");
    (["mp3"; "wav"; "ogg"; "flac"; "aac"], "audio");
    (["mp4"; "webm"; "mkv"; "mov"; "avi"; "wmv"], "video");
    (["zip"; "rar"; "7z"; "tar"; "gz"; "tgz"], "archive");
    (["exe"; "msi"; "bin"; "app"; "deb"; "rpm"], "executable") ].

Definition getLanguageFromExtension (filename : string) : string :=
  let ext := option_map JS.toLowerCase (JS.pop (JS.split "." filename)) in
  match ext with
  | Some e =>
      match List.find (fun row => existsb (String.eqb e) (fst row)) languageTable with
      | Some row => snd row
      | None => "text"
      end
  | None => "text"
  end.

(** [isMediaOrBinary(lang)]: membership of [lang || '']. *)
Definition isMediaOrBinary (lang : option string) : bool :=
  existsb (String.eqb (match lang with Some l => l | None => "" end))
    ["image"; "audio"; "video"; "pdf"; "binary"; "system"; "document";
     "spreadsheet"; "archive"; "executable"].

(** ** Tree mutations *)

Fixpoint addNodeToTree_visit (parent : string) (newNode : FileSystemNode)
    (node : FileSystemNode) : FileSystemNode :=
  if id node =? parent then
    with_children_open node (children_or_nil node ++ [newNode])
  else match children node with
       | Some cs => with_children node (map (addNodeToTree_visit parent newNode) cs)
       | None => node
       end.

Definition addNodeToTree (nodes : list FileSystemNode) (parent : string)
    (newNode : FileSystemNode) : list FileSystemNode :=
  map (addNodeToTree_visit parent newNode) nodes.

(** [nodes.filter(n => n.id !== nodeId).map(...)], fused into one pass so
    that the recursion stays structural; [removeNodeFromTree_filter_map]
    below restates it in the source's two steps. *)
Fixpoint removeNodeFromTree_visit (nodeId : string) (node : FileSystemNode) : FileSystemNode :=
  match children node with
  | Some cs =>
      with_children node
        ((fix pass (l : list FileSystemNode) : list FileSystemNode :=
            match l with
            | [] => []
            | n :: r =>
                if negb (id n =? nodeId)
                then removeNodeFromTree_visit nodeId n :: pass r
                else pass r
            end) cs)
  | None => node
  end.

Definition removeNodeFromTree (nodes : list FileSystemNode) (nodeId : string)
    : list FileSystemNode :=
  map (removeNodeFromTree_visit nodeId)
      (filter (fun n => negb (id n =? nodeId)) nodes).

(** ** Host capabilities *)

(** Outcome of an awaited host call; a rejection carries the text that
    [`${e}`] renders. *)
Inductive Result (A : Type) : Type :=
| Resolved (a : A)
| Rejected (e : string).
Arguments Resolved {A} a.
Arguments Rejected {A} e.

Record Host : Type := mkHost {
  (** [dir.getDirectoryHandle(name, { create: true })] *)
  getDirectoryHandle : Handle -> string -> Result Handle;
  (** [dir.getFileHandle(name, { create: true })] *)
  getFileHandle : Handle -> string -> Result Handle;
  (** [dir.removeEntry(name, { recursive: true })] *)
  removeEntry : Handle -> string -> Result unit;
  (** [(await h.getFile()).text()] *)
  getFile_text : Handle -> Result string }.

(** ** Application state and its setters *)

Record AppState : Type := mkState {
  fileSystem : list FileSystemNode;
  openTabs : list Tab;
  termPath : list string }.

(** The functional updaters that [handleTerminalCommand] passes to the
    React setters. *)
Inductive Update : Type :=
| SetFileSystem_add (parent : string) (newNode : FileSystemNode)
    (* setFileSystem(prev => addNodeToTree(prev, parent, newNode)) *)
| SetFileSystem_remove (nodeId : string)
    (* setFileSystem(prev => removeNodeFromTree(prev, nodeId)) *)
| SetOpenTabs_drop (nodeId : string)
    (* setOpenTabs(prev => prev.filter(t => t.id !== nodeId)) *)
| SetTermPath_pop
    (* setTermPath(prev => prev.slice(0, -1)) *)
| SetTermPath_push (nodeId : string).
    (* setTermPath(prev => [...prev, nodeId]) *)

Definition applyUpdate (st : AppState) (u : Update) : AppState :=
  match u with
  | SetFileSystem_add parent newNode =>
      mkState (addNodeToTree (fileSystem st) parent newNode) (openTabs st) (termPath st)
  | SetFileSystem_remove nodeId =>
      mkState (removeNodeFromTree (fileSystem st) nodeId) (openTabs st) (termPath st)
  | SetOpenTabs_drop nodeId =>
      mkState (fileSystem st)
              (filter (fun t => negb (tab_id t =? nodeId)) (openTabs st)) (termPath st)
  | SetTermPath_pop =>
      mkState (fileSystem st) (openTabs st) (JS.slice_init (termPath st))
  | SetTermPath_push nodeId =>
      mkState (fileSystem st) (openTabs st) (termPath st ++ [nodeId])
  end.

Definition applyUpdates (st : AppState) (us : list Update) : AppState :=
  fold_left applyUpdate us st.

(** ** The terminal *)

Definition currentDir (st : AppState) : option FileSystemNode :=
  match JS.pop (termPath st) with
  | Some i => findNode (fileSystem st) i
  | None => None
  end.

(** [c.type === FileType.FOLDER ? `[${c.name}]` : c.name] *)
Definition lsEntry (c : FileSystemNode) : string :=
  match type c with
  | FOLDER => "[" ++ name c ++ "]"
  | FILE => name c
  end.

Definition newFolderNode (dir : FileSystemNode) (arg : string) (h : option Handle)
    : FileSystemNode :=
  mkNode (id dir ++ "_" ++ arg) arg FOLDER None None (Some []) (Some false)
         (Some (id dir)) h.

Definition newFileNode (dir : FileSystemNode) (arg : string) (h : option Handle)
    : FileSystemNode :=
  mkNode (id dir ++ "_" ++ arg) arg FILE (Some "") (Some (getLanguageFromExtension arg))
         None None (Some (id dir)) h.

Definition cmd_ls (dir : option FileSystemNode) : string :=
  match dir with
  | Some d =>
      match children d with
      | Some cs => JS.join "  " (map lsEntry cs)
      | None => ""
      end
  | None => ""
  end.

Definition cmd_pwd (st : AppState) : string := "/" ++ JS.join "/" (termPath st).

Definition cmd_cd (st : AppState) (dir : FileSystemNode) (arg : option string)
    : string * list Update :=
  match arg with
  | Some a =>
      if a =? "" then ("", [])
      else if a =? ".." then
        if (1 <? List.length (termPath st))%nat then ("", [SetTermPath_pop])
        else ("Already at root", [])
      else
        match JS.find (fun c => (name c =? a) && FileType_eqb (type c) FOLDER)
                      (children_or_nil dir) with
        | Some targetFolder => ("", [SetTermPath_push (id targetFolder)])
        | None => ("cd: no such file or directory: " ++ a, [])
        end
  | None => ("", [])
  end.

Definition cmd_mkdir (host : Host) (dir : FileSystemNode) (arg : option string)
    : string * list Update :=
  if negb (JS.truthy arg) then ("usage: mkdir <directory_name>", [])
  else
    let a := match arg with Some a => a | None => "" end in
    match handle dir with
    | Some h =>
        match getDirectoryHandle host h a with
        | Resolved newDirHandle =>
            ("Directory '" ++ a ++ "' created.",
             [SetFileSystem_add (id dir) (newFolderNode dir a (Some newDirHandle))])
        | Rejected e => ("Error creating directory on disk: " ++ e, [])
        end
    | None =>
        ("Virtual directory '" ++ a ++ "' created.",
         [SetFileSystem_add (id dir) (newFolderNode dir a None)])
    end.

Definition cmd_touch (host : Host) (dir : FileSystemNode) (arg : option string)
    : string * list Update :=
  if negb (JS.truthy arg) then ("usage: touch <filename>", [])
  else
    let a := match arg with Some a => a | None => "" end in
    match handle dir with
    | Some h =>
        match getFileHandle host h a with
        | Resolved newFileHandle =>
            ("File '" ++ a ++ "' created.",
             [SetFileSystem_add (id dir) (newFileNode dir a (Some newFileHandle))])
        | Rejected e => ("Error creating file on disk: " ++ e, [])
        end
    | None =>
        ("Virtual file '" ++ a ++ "' created.",
         [SetFileSystem_add (id dir) (newFileNode dir a None)])
    end.

Definition cmd_rm (host : Host) (dir : FileSystemNode) (arg : option string)
    : string * list Update :=
  if negb (JS.truthy arg) then ("usage: rm <filename>", [])
  else
    let a := match arg with Some a => a | None => "" end in
    match JS.find (fun c => name c =? a) (children_or_nil dir) with
    | None => ("rm: " ++ a ++ ": No such file or directory", [])
    | Some targetNode =>
        let commit :=
          ("", [SetFileSystem_remove (id targetNode); SetOpenTabs_drop (id targetNode)]) in
        match handle dir with
        | Some h =>
            match removeEntry host h a with
            | Resolved _ => commit
            | Rejected e => ("Error deleting from disk: " ++ e, [])
            end
        | None => commit
        end
    end.

Definition cmd_cat (host : Host) (dir : FileSystemNode) (arg : option string) : string :=
  if negb (JS.truthy arg) then "Usage: cat <filename>"
  else
    let a := match arg with Some a => a | None => "" end in
    match JS.find (fun c => (name c =? a) && FileType_eqb (type c) FILE)
                  (children_or_nil dir) with
    | None => "File not found: " ++ a
    | Some fileToRead =>
        if isMediaOrBinary (language fileToRead) then
          "[" ++ match language fileToRead with
                 | Some l => JS.toUpperCase l
                 | None => "undefined"
                 end ++ " File]"
        else
          let resident :=
            let c := match content fileToRead with
                     | Some c => if JS.truthy (Some c) then c else ""
                     | None => ""
                     end in
            JS.substring0 500 c ++ (if (500 <? String.length c)%nat then "..." else "") in
          match handle fileToRead, content fileToRead with
          | Some h, None =>
              match getFile_text host h with
              | Resolved t => JS.substring0 500 t
              | Rejected _ => "Error reading file"
              end
          | _, _ => resident
          end
    end.

(** [const parts = cmd.trim().split(' ')]; [parts[0]] and [parts[1]]. *)
Definition parseCommand (cmd : string) : string * option string :=
  let parts := JS.split " " (JS.trim cmd) in
  (nth 0 parts "", nth_error parts 1).

Definition handleTerminalCommand (host : Host) (st : AppState) (cmd : string)
    : string * list Update :=
  let parts := JS.split " " (JS.trim cmd) in
  let (command, arg) := parseCommand cmd in
  let currentDirNode := currentDir st in
  match currentDirNode with
  | None =>
      if command =? "ls" then (cmd_ls None, [])
      else ("Error: Current directory lost.", [])
  | Some dir =>
      if command =? "ls" then (cmd_ls (Some dir), [])
      else if command =? "pwd" then (cmd_pwd st, [])
      else if command =? "cd" then cmd_cd st dir arg
      else if command =? "mkdir" then cmd_mkdir host dir arg
      else if (command =? "touch") || (command =? "code") then cmd_touch host dir arg
      else if command =? "rm" then cmd_rm host dir arg
      else if command =? "cat" then (cmd_cat host dir arg, [])
      else if command =? "clear" then ("", [])
      else if command =? "npm" then
        if match arg with
           | Some a => (a =? "install") || (a =? "i")
           | None => false
           end
        then ("added 142 packages in 2s", [])
        else ("npm command not fully simulated.", [])
      else if command =? "echo" then (JS.join " " (tl parts), [])
      else ("command not found: " ++ command, [])
  end.

(** Running a command: the handler's result and the state once the
    enqueued updaters have been applied. *)
Definition runCommand (host : Host) (st : AppState) (cmd : string) : string * AppState :=
  let (out, us) := handleTerminalCommand host st cmd in
  (out, applyUpdates st us).

(** A session: commands run one after the other (single flight). *)
Fixpoint runCommands (host : Host) (st : AppState) (cmds : list string)
    : list string * AppState :=
  match cmds with
  | [] => ([], st)
  | c :: r =>
      let (out, st1) := runCommand host st c in
      let (outs, st2) := runCommands host st1 r in
      (out :: outs, st2)
  end.

(** The directory name shown in the prompt:
    [termPath[termPath.length - 1].split('_').pop() || 'project']
    ([None] when [termPath] is empty and the access throws). *)
Definition currentTermDirName (st : AppState) : option string :=
  match JS.pop (termPath st) with
  | Some lastId =>
      let local := JS.pop (JS.split "_" lastId) in
      Some (if JS.truthy local then match local with Some n => n | None => "" end
            else "project")
  | None => None
  end.

(** ** Ingestion *)

(** All nodes of a tree, parents before children, and of a forest. *)
Fixpoint allNodes (n : FileSystemNode) : list FileSystemNode :=
  n :: match children n with
       | Some cs => flat_map allNodes cs
       | None => []
       end.

Definition forestNodes (nodes : list FileSystemNode) : list FileSystemNode :=
  flat_map allNodes nodes.

(** What a host directory handle enumerates.  [throws] tells whether
    iterating [values()] raises (a restricted directory).  An entry is a
    file or a directory; the inner [try] of [processDirectoryHandle] guards
    only the recursive call, which catches its own errors, so no entry is
    ever skipped on its own. *)
Inductive DirEntry : Type :=
| FileEntry (entry_name : string) (h : Handle)
| DirectoryEntry (entry_name : string) (h : Handle) (values : list DirEntry) (throws : bool).

Definition entry_name (e : DirEntry) : string :=
  match e with
  | FileEntry n _ => n
  | DirectoryEntry n _ _ _ => n
  end.

Definition entry_handle (e : DirEntry) : Handle :=
  match e with
  | FileEntry _ h => h
  | DirectoryEntry _ h _ _ => h
  end.

Section NativeIngestion.

(** [String.prototype.localeCompare], fixed by the host's collation. *)
Variable localeCompare : string -> string -> Z.

(** The comparator handed to [nodes.sort]. *)
Definition compareNodes (a b : FileSystemNode) : Z :=
  if FileType_eqb (type a) (type b) then localeCompare (name a) (name b)
  else match type a with
       | FOLDER => (-1)%Z
       | FILE => 1%Z
       end.

(** [Array.prototype.sort] is stable; a stable insertion sort stands for it. *)
Fixpoint insertSorted (x : FileSystemNode) (l : list FileSystemNode) : list FileSystemNode :=
  match l with
  | [] => [x]
  | y :: r =>
      if (compareNodes y x <=? 0)%Z then y :: insertSorted x r
      else x :: y :: r
  end.

Definition sortNodes (l : list FileSystemNode) : list FileSystemNode :=
  fold_left (fun acc x => insertSorted x acc) l [].

(** [parentId ? `${parentId}_${entry.name}` : entry.name] *)
Definition entryId (parent : option string) (entryName : string) : string :=
  if JS.truthy parent
  then match parent with Some p => p | None => "" end ++ "_" ++ entryName
  else entryName.

(** A handle without [values()] (a file handle) throws at once, which the
    outer [catch] turns into the empty list, as it does for a directory
    whose enumeration throws. *)
Fixpoint processDirectoryHandle (dirHandle : DirEntry) (parent : option string)
    {struct dirHandle} : list FileSystemNode :=
  match dirHandle with
  | DirectoryEntry _ _ values false =>
      sortNodes
        (map (fun entry =>
                let i := entryId parent (entry_name entry) in
                match entry with
                | FileEntry nm _ =>
                    mkNode i nm FILE None (Some (getLanguageFromExtension nm))
                           None None parent (Some (entry_handle entry))
                | DirectoryEntry nm _ _ _ =>
                    mkNode i nm FOLDER None None
                           (Some (processDirectoryHandle entry (Some i)))
                           (Some false) parent (Some (entry_handle entry))
                end) values)
  | _ => []
  end.

(** The tree [openRealFolder] installs once the picker has resolved. *)
Definition openRealFolder_tree (dirHandle : DirEntry) : list FileSystemNode :=
  [ mkNode "root" (entry_name dirHandle) FOLDER None None
           (Some (processDirectoryHandle dirHandle (Some "root")))
           (Some true) None (Some (entry_handle dirHandle)) ].

End NativeIngestion.

(** An item of the [FileList] of the fallback [<input>]. *)
Record InputFile : Type := mkInputFile {
  file_name : string;
  webkitRelativePath : string;
  file_text : Result string;      (* await file.text() *)
  file_objectURL : string }.      (* URL.createObjectURL(file) *)

(** Replace the first element satisfying [p]; [None] when there is none.
    It stands for mutating, in place, the object that [find] returned. *)
Fixpoint updateFirst {A : Type} (p : A -> bool) (f : A -> A) (l : list A) : option (list A) :=
  match l with
  | [] => None
  | x :: r =>
      if p x then Some (f x :: r)
      else option_map (cons x) (updateFirst p f r)
  end.

(** The folder that [getOrCreateFolder] pushes when none is found. *)
Definition createdFolder (folderName parent : string) : FileSystemNode :=
  mkNode (if parent =? "root" then folderName else parent ++ "_" ++ folderName)
         folderName FOLDER None None (Some []) (Some false) (Some parent) None.

(** The walk of [processInputFiles] through the folders [parts], ending with
    [currentLevelNodes.push(newNode)] at the deepest level; [leaf] builds
    [newNode] from the final [currentParentId]. *)
Fixpoint placeAt (parts : list string) (currentLevelNodes : list FileSystemNode)
    (currentParentId : string) (leaf : string -> FileSystemNode) : list FileSystemNode :=
  match parts with
  | [] => currentLevelNodes ++ [leaf currentParentId]
  | folderName :: rest =>
      match updateFirst
              (fun n => (name n =? folderName) && FileType_eqb (type n) FOLDER)
              (fun folderNode =>
                 with_children folderNode
                   (placeAt rest (children_or_nil folderNode) (id folderNode) leaf))
              currentLevelNodes with
      | Some level => level
      | None =>
          let folderNode := createdFolder folderName currentParentId in
          currentLevelNodes ++
            [with_children folderNode (placeAt rest [] (id folderNode) leaf)]
      end
  end.

Definition inputContent (file : InputFile) : string :=
  if isMediaOrBinary (Some (getLanguageFromExtension (file_name file)))
  then file_objectURL file
  else match file_text file with
       | Resolved t => t
       | Rejected _ => "Binary file cannot be displayed."
       end.

(** One iteration of the loop over [fileList]. *)
Definition processInputFile (rootChildren : list FileSystemNode) (file : InputFile)
    : list FileSystemNode :=
  let lang := getLanguageFromExtension (file_name file) in
  let content := inputContent file in
  let path := webkitRelativePath file in
  if negb (JS.truthy (Some path)) then
    rootChildren ++
      [mkNode (file_name file) (file_name file) FILE (Some content) (Some lang)
              None None (Some "root") None]
  else
    let parts := JS.split "/" path in
    let fileName := match JS.pop parts with Some f => f | None => "" end in
    placeAt (JS.slice_init parts) rootChildren "root"
      (fun currentParentId =>
         mkNode (currentParentId ++ "_" ++ fileName) fileName FILE (Some content)
                (Some lang) None None (Some currentParentId) None).

Definition processInputFiles_rootChildren (fileList : list InputFile) : list FileSystemNode :=
  fold_left processInputFile fileList [].

(** The tree [processInputFiles] installs. *)
Definition processInputFiles_tree (fileList : list InputFile) : list FileSystemNode :=
  [ mkNode "root" "Opened Project" FOLDER None None
           (Some (processInputFiles_rootChildren fileList)) (Some true) None None ].

(** ** Command-line tokens *)

Fixpoint noWhiteSpace (s : string) : bool :=
  match s with
  | EmptyString => true
  | String c r => negb (JS.isWhiteSpace c) && noWhiteSpace r
  end.

(** A word a user can pass as a command or as its first argument: not
    empty and free of white space. *)
Definition isToken (s : string) : bool := negb (s =? "") && noWhiteSpace s.

(** ** Sample hosts and states *)

(** A host on which every call is rejected with the text [e]. *)
Definition failingHost (e : string) : Host :=
  mkHost (fun _ _ => Rejected e) (fun _ _ => Rejected e)
         (fun _ _ => Rejected e) (fun _ => Rejected e).

(** A host that grants every request; file reads yield [text]. *)
Definition grantingHost (text : string) : Host :=
  mkHost (fun _ _ => Resolved (mkHandle 1)) (fun _ _ => Resolved (mkHandle 2))
         (fun _ _ => Resolved tt) (fun _ => Resolved text).

Definition folderNode (i nm : string) (parent : option string) (h : option Handle)
    (cs : list FileSystemNode) : FileSystemNode :=
  mkNode i nm FOLDER None None (Some cs) (Some false) parent h.

Definition fileNode (i nm : string) (parent : option string) (h : option Handle)
    (c : option string) : FileSystemNode :=
  mkNode i nm FILE c (Some (getLanguageFromExtension nm)) None None parent h.

(** A project whose root holds [cs]; [h] is the root's handle, if native. *)
Definition projectWith (h : option Handle) (cs : list FileSystemNode) : AppState :=
  mkState [mkNode "root" "Project" FOLDER None None (Some cs) (Some true) None h]
          [] ["root"].

Definition emptyVirtualProject : AppState := projectWith None [].
Definition emptyNativeProject : AppState := projectWith (Some (mkHandle 0)) [].

(** [n] copies of the character [c]. *)
Fixpoint replicate (n : nat) (c : ascii) : string :=
  match n with
  | O => EmptyString
  | S k => String c (replicate k c)
  end.

Definition notesProject : AppState :=
  projectWith (Some (mkHandle 0))
    [fileNode "root_notes.txt" "notes.txt" (Some "root") (Some (mkHandle 7)) None].

Definition emptyDocsProject : AppState :=
  projectWith None [folderNode "root_docs" "docs" (Some "root") None []].

Definition folder_b : FileSystemNode := folderNode "root_b" "b" (Some "root") None [].
Definition file_a : FileSystemNode := fileNode "root_a" "a" (Some "root") None (Some "").

Definition lazyLog : FileSystemNode :=
  fileNode "root_log.txt" "log.txt" (Some "root") (Some (mkHandle 7)) None.

Definition residentLog : FileSystemNode :=
  fileNode "root_log.txt" "log.txt" (Some "root") (Some (mkHandle 7))
           (Some (replicate 600 "a")).

Definition docsFolder : FileSystemNode :=
  folderNode "root_docs" "docs" (Some "root") None
    [fileNode "root_docs_readme.md" "readme.md" (Some "root_docs") None (Some "hello")].

Definition docsOpen : AppState :=
  mkState (fileSystem (projectWith None [docsFolder]))
          [mkTab "root_docs_readme.md" "readme.md" false] ["root"].

Definition previewTree : list FileSystemNode :=
  fileSystem (projectWith None
    [folderNode "root_site" "site" (Some "root") None
       [fileNode "root_site_index.html" "index.html" (Some "root_site") None (Some "")];
     fileNode "root_index.html" "index.html" (Some "root") None (Some "<p>later</p>")]).

Definition sampleFileList : list InputFile :=
  [ mkInputFile "a.txt" "src/a.txt" (Resolved "A") "blob:1";
    mkInputFile "b.txt" "src/sub/b.txt" (Resolved "B") "blob:2";
    mkInputFile "c.txt" "c.txt" (Resolved "C") "blob:3";
    mkInputFile "d.txt" "" (Resolved "D") "blob:4" ].

(** ** Specification-side definitions *)

(** What the spec asks of the content-read interface: the content of the
    first node, in depth-first order, that has the name and a defined
    content; the empty string when there is none. *)
Definition getFileContent_spec (fileSystem : list FileSystemNode) (fileName : string)
    : string :=
  match List.find (fun n => (name n =? fileName)
                            && match content n with Some _ => true | None => false end)
                  (forestNodes fileSystem) with
  | Some n => match content n with Some c => c | None => "" end
  | None => ""
  end.

(** [linked rule parent n]: [n] names [parent] as its parent, its id obeys
    [rule], and so do, below it, all its descendants with respect to the
    node that holds them. *)
Fixpoint linked (rule : string -> FileSystemNode -> Prop) (parent : string)
    (n : FileSystemNode) : Prop :=
  parentId n = Some parent
  /\ rule parent n
  /\ match children n with
     | Some cs =>
         (fix all (l : list FileSystemNode) : Prop :=
            match l with
            | [] => True
            | c :: r => linked rule (id n) c /\ all r
            end) cs
     | None => True
     end.

(** The id the spec describes: the parent's id, an underscore, the name. *)
Definition prefixedId (parent : string) (n : FileSystemNode) : Prop :=
  id n = parent ++ "_" ++ name n.

(** The ids of flat-list ingestion: a folder right under [root] is called
    by its bare name, and so is a file picked without a relative path. *)
Definition flatListId (parent : string) (n : FileSystemNode) : Prop :=
  match type n with
  | FOLDER => id n = if parent =? "root" then name n else parent ++ "_" ++ name n
  | FILE => prefixedId parent n \/ (parent = "root" /\ id n = name n)
  end.

(** Structural induction through the nested listings of a host directory. *)
Section DirEntryInduction.
Variable P : DirEntry -> Prop.
Hypothesis file_case : forall nm h, P (FileEntry nm h).
Hypothesis dir_case :
  forall nm h values throws, Forall P values -> P (DirectoryEntry nm h values throws).

Fixpoint DirEntry_deep_ind (e : DirEntry) : P e :=
  match e with
  | FileEntry nm h => file_case nm h
  | DirectoryEntry nm h values throws =>
      dir_case nm h values throws
        ((fix all (l : list DirEntry) : Forall P l :=
            match l with
            | [] => Forall_nil P
            | x :: r => Forall_cons x (DirEntry_deep_ind x) (all r)
            end) values)
  end.
End DirEntryInduction.

(** The node a create command adds under [dir] for the argument [arg]. *)
Definition addsPrefixedChild (dir : FileSystemNode) (arg : string) (us : list Update) : Prop :=
  forall u, In u us ->
    exists n, u = SetFileSystem_add (id dir) n
              /\ name n = arg
              /\ parentId n = Some (id dir)
              /\ prefixedId (id dir) n.

(** The order of a listing, read off the comparator of [nodes.sort]:
    [a] may stand before [b]. *)
Definition listedBefore (localeCompare : string -> string -> Z)
    (a b : FileSystemNode) : Prop :=
  (compareNodes localeCompare a b <= 0)%Z.

(** The state [openRealFolder] installs for the picked directory. *)
Definition openRealFolder_state (localeCompare : string -> string -> Z)
    (dirHandle : DirEntry) : AppState :=
  mkState (openRealFolder_tree localeCompare dirHandle) [] ["root"].

(** ** The editor: tabs, content edits and folder toggles *)

Inductive ProjectState : Type := WELCOME | EDITING.

(** The part of the component state that the editor handlers read and set. *)
Record Editor : Type := mkEditor {
  ed_projectState : ProjectState;
  ed_fileSystem : list FileSystemNode;
  ed_openTabs : list Tab;
  ed_activeTabId : option string }.

(** [{ ...node, content: c }] and [{ ...node, isOpen: b }]. *)
Definition with_content (n : FileSystemNode) (c : string) : FileSystemNode :=
  mkNode (id n) (name n) (type n) (Some c) (language n) (children n) (isOpen n)
         (parentId n) (handle n).

Definition with_isOpen (n : FileSystemNode) (b : bool) : FileSystemNode :=
  mkNode (id n) (name n) (type n) (content n) (language n) (children n) (Some b)
         (parentId n) (handle n).

(** [updateNodes] of [updateFileContent], also [updateContent] of
    [handleFileClick]: a node with the id gets the content and is not
    descended into. *)
Fixpoint updateNodes_visit (i newContent : string) (node : FileSystemNode) : FileSystemNode :=
  if id node =? i then with_content node newContent
  else match children node with
       | Some cs => with_children node (map (updateNodes_visit i newContent) cs)
       | None => node
       end.

Definition updateNodes (nodes : list FileSystemNode) (i newContent : string)
    : list FileSystemNode :=
  map (updateNodes_visit i newContent) nodes.

(** Whether the callback of [updateNodes] meets a node with the id, that
    is, whether it calls [setOpenTabs]. *)
Fixpoint updateNodes_marks (i : string) (node : FileSystemNode) : bool :=
  if id node =? i then true
  else match children node with
       | Some cs => existsb (updateNodes_marks i) cs
       | None => false
       end.

(** [prev.map(t => t.id === i ? { ...t, isDirty: d } : t)] *)
Definition setDirty (d : bool) (i : string) (tabs : list Tab) : list Tab :=
  map (fun t => if tab_id t =? i then mkTab (tab_id t) (title t) d else t) tabs.

Definition updateFileContent (ed : Editor) (i newContent : string) : Editor :=
  mkEditor (ed_projectState ed)
           (updateNodes (ed_fileSystem ed) i newContent)
           (if existsb (updateNodes_marks i) (ed_fileSystem ed)
            then setDirty true i (ed_openTabs ed)
            else ed_openTabs ed)
           (ed_activeTabId ed).

(** [toggleNodes] of [handleFolderToggle]; [!node.isOpen] reads an absent
    flag as [false]. *)
Fixpoint toggleNodes_visit (i : string) (node : FileSystemNode) : FileSystemNode :=
  if id node =? i then
    with_isOpen node (negb (match isOpen node with Some b => b | None => false end))
  else match children node with
       | Some cs => with_children node (map (toggleNodes_visit i) cs)
       | None => node
       end.

Definition toggleNodes (nodes : list FileSystemNode) (i : string) : list FileSystemNode :=
  map (toggleNodes_visit i) nodes.

Definition handleFolderToggle (ed : Editor) (i : string) : Editor :=
  mkEditor (ed_projectState ed) (toggleNodes (ed_fileSystem ed) i)
           (ed_openTabs ed) (ed_activeTabId ed).

Definition handleTabClose (ed : Editor) (i : string) : Editor :=
  let newTabs := filter (fun t => negb (tab_id t =? i)) (ed_openTabs ed) in
  mkEditor (ed_projectState ed) (ed_fileSystem ed) newTabs
           (match ed_activeTabId ed with
            | Some a => if a =? i then option_map tab_id (JS.pop newTabs) else Some a
            | None => None
            end).

Definition openSettings (ed : Editor) : Editor :=
  mkEditor EDITING (ed_fileSystem ed)
           (match JS.find (fun t => tab_id t =? "settings") (ed_openTabs ed) with
            | Some _ => ed_openTabs ed
            | None => ed_openTabs ed ++ [mkTab "settings" "Settings" false]
            end)
           (Some "settings").

(** What [handle.getFile()] resolves to. *)
Record HostFile : Type := mkHostFile {
  hf_size : N;                    (* file.size *)
  hf_text : Result string;        (* await file.text() *)
  hf_objectURL : string }.        (* URL.createObjectURL(file) *)

Definition tooLargeText : string := "File is too large to display in editor.".

(** [5 * 1024 * 1024] *)
Definition maxTextSize : N := 5 * 1024 * 1024.

(** The [try] block of [handleFileClick]: [Some c] when it reaches
    [setFileSystem] with the content [c]; [None] when the node needs no
    load or when a host call rejects. *)
Definition loadContent (getFile : Handle -> Result HostFile) (node : FileSystemNode)
    : option string :=
  match handle node, type node, content node with
  | Some h, FILE, None =>
      match getFile h with
      | Resolved file =>
          if isMediaOrBinary (language node) then Some (hf_objectURL file)
          else if (maxTextSize <? hf_size file)%N then Some tooLargeText
          else match hf_text file with
               | Resolved t => Some t
               | Rejected _ => None
               end
      | Rejected _ => None
      end
  | _, _, _ => None
  end.

Definition handleFileClick (getFile : Handle -> Result HostFile) (ed : Editor)
    (node : FileSystemNode) : Editor :=
  mkEditor (ed_projectState ed)
           (match loadContent getFile node with
            | Some c => updateNodes (ed_fileSystem ed) (id node) c
            | None => ed_fileSystem ed
            end)
           (match JS.find (fun tab => tab_id tab =? id node) (ed_openTabs ed) with
            | Some _ => ed_openTabs ed
            | None => ed_openTabs ed ++ [mkTab (id node) (name node) false]
            end)
           (Some (id node)).

(** What [saveActiveFile] does outside the component state. *)
Inductive SaveEffect : Type :=
| NothingSaved
| WrittenToDisk (h : Handle) (data : string)
| Downloaded (fileName data : string).

(** [write h data] stands for [createWritable], [write] and [close]. *)
Definition saveActiveFile (write : Handle -> string -> Result unit) (ed : Editor)
    : Editor * SaveEffect :=
  match ed_activeTabId ed with
  | None => (ed, NothingSaved)
  | Some a =>
      if negb (JS.truthy (Some a)) then (ed, NothingSaved)
      else if a =? "settings" then (ed, NothingSaved)
      else
        match findNode (ed_fileSystem ed) a with
        | None => (ed, NothingSaved)
        | Some fileNode =>
            match content fileNode with
            | None => (ed, NothingSaved)
            | Some c =>
                if isMediaOrBinary (language fileNode) then (ed, NothingSaved)
                else
                  let cleared :=
                    mkEditor (ed_projectState ed) (ed_fileSystem ed)
                             (setDirty false a (ed_openTabs ed)) (ed_activeTabId ed) in
                  match handle fileNode with
                  | Some h =>
                      match write h c with
                      | Resolved _ => (cleared, WrittenToDisk h c)
                      | Rejected _ => (cleared, Downloaded (name fileNode) c)
                      end
                  | None => (cleared, Downloaded (name fileNode) c)
                  end
            end
        end
  end.

(** ** Extensions and preview *)

Inductive ViewMode : Type := EXPLORER | SEARCH | GIT | EXTENSIONS | SETTINGS.

Record Workbench : Type := mkWorkbench {
  installedExtensions : list string;
  showPreview : bool;
  isMobilePreview : bool;
  activeView : ViewMode }.

(** [l.includes(x)] *)
Definition includes (x : string) (l : list string) : bool := existsb (String.eqb x) l.

Definition toggleExtension (wb : Workbench) (i : string) : Workbench :=
  if includes i (installedExtensions wb) then
    mkWorkbench (filter (fun e => negb (e =? i)) (installedExtensions wb))
                (if i =? "live-server" then false else showPreview wb)
                (isMobilePreview wb) (activeView wb)
  else
    mkWorkbench (installedExtensions wb ++ [i]) (showPreview wb)
                (isMobilePreview wb) (activeView wb).

Definition toggleLiveServer (wb : Workbench) : Workbench :=
  if negb (includes "live-server" (installedExtensions wb)) then
    mkWorkbench (installedExtensions wb) (showPreview wb) (isMobilePreview wb) EXTENSIONS
  else
    mkWorkbench (installedExtensions wb) (negb (showPreview wb)) (isMobilePreview wb)
                (activeView wb).

Definition toggleMobileView (wb : Workbench) : Workbench :=
  let shown :=
    mkWorkbench (installedExtensions wb)
                (if negb (showPreview wb) then true else showPreview wb)
                (isMobilePreview wb) (activeView wb) in
  let installed :=
    if negb (includes "mobile-view" (installedExtensions wb))
    then toggleExtension shown "mobile-view" else shown in
  mkWorkbench (installedExtensions installed) (showPreview installed)
              (negb (isMobilePreview wb)) (activeView installed).

(** ** Measures used in the statements *)

Definition ids (nodes : list FileSystemNode) : list string :=
  map id (forestNodes nodes).

Definition isFile (n : FileSystemNode) : bool := FileType_eqb (type n) FILE.
Definition isFolder (n : FileSystemNode) : bool := FileType_eqb (type n) FOLDER.

(** The active tab, when there is one, is among the open tabs. *)
Definition activeIsOpen (ed : Editor) : Prop :=
  match ed_activeTabId ed with
  | Some a => In a (map tab_id (ed_openTabs ed))
  | None => True
  end.

(** No two FOLDER nodes of one children list share a name, at any depth. *)
Fixpoint folderNamesUnique (n : FileSystemNode) : Prop :=
  match children n with
  | Some cs =>
      NoDup (map name (filter isFolder cs))
      /\ (fix all (l : list FileSystemNode) : Prop :=
            match l with
            | [] => True
            | c :: r => folderNamesUnique c /\ all r
            end) cs
  | None => True
  end.

(** Every list of updates the handler can enqueue. *)
Inductive handlerUpdates (st : AppState) (command : string) : list Update -> Prop :=
| hu_none : handlerUpdates st command []
| hu_pop : command = "cd" -> (1 < List.length (termPath st))%nat ->
           handlerUpdates st command [SetTermPath_pop]
| hu_push : forall i, command = "cd" -> handlerUpdates st command [SetTermPath_push i]
| hu_add : forall p n, command = "mkdir" \/ command = "touch" \/ command = "code" ->
           handlerUpdates st command [SetFileSystem_add p n]
| hu_remove : forall i, command = "rm" ->
              handlerUpdates st command [SetFileSystem_remove i; SetOpenTabs_drop i].

(** The component's state before any project is opened: no tree yet. *)
Definition initialState : AppState := mkState [] [] ["root"].

(** ** Sample editor and host values *)

Definition docsEditor : Editor :=
  mkEditor EDITING (fileSystem docsOpen) (openTabs docsOpen) (Some "root_docs_readme.md").

(** A native project holding [log.txt], whose content is not loaded yet. *)
Definition lazyEditor : Editor :=
  mkEditor EDITING (fileSystem (projectWith (Some (mkHandle 0)) [lazyLog])) [] None.

(** A host on which every file has the given size and text. *)
Definition hostWithFile (size : N) (text : Result string) : Handle -> Result HostFile :=
  fun _ => Resolved (mkHostFile size text "blob:0").

(** Sibling FOLDERs of one level have distinct names, and so below. *)
Definition levelUnique (level : list FileSystemNode) : Prop :=
  NoDup (map name (filter isFolder level)) /\ Forall folderNamesUnique level.

Definition countFiles (nodes : list FileSystemNode) : nat :=
  List.length (filter isFile (forestNodes nodes)).

(** The preview is shown only while the live-server extension is installed. *)
Definition previewNeedsServer (wb : Workbench) : Prop :=
  showPreview wb = true -> includes "live-server" (installedExtensions wb) = true.

(** A node without host backing whose content, for a FILE, is present. *)
Definition isVirtualNode (n : FileSystemNode) : Prop :=
  handle n = None /\ (type n = FILE -> content n <> None).

(** A node as native enumeration leaves it: backed by a handle, content
    not loaded. *)
Definition isLazyNativeNode (n : FileSystemNode) : Prop :=
  handle n <> None /\ content n = None.

Definition sampleWorkbench : Workbench :=
  mkWorkbench ["prettier"; "eslint"; "live-server"] true false EXPLORER.

(** * Properties *)

(** ** Parsing of the command line *)

Lemma append_assoc (a b c : string) : (a ++ b) ++ c = a ++ b ++ c.
Proof. induction a as [|x a IH]; simpl; [reflexivity | now rewrite IH]. Qed.

Lemma eqb_empty_append (a b : string) : b <> "" -> (a ++ b =? "") = false.
Proof.
  intros Hb. destruct a as [|c a]; simpl; [|reflexivity].
  now apply String.eqb_neq.
Qed.

Lemma isToken_nonempty (s : string) : isToken s = true -> s <> "".
Proof.
  unfold isToken. intros H. apply andb_prop in H as [H _].
  apply negb_true_iff in H. now apply String.eqb_neq.
Qed.

Lemma isToken_noWhiteSpace (s : string) : isToken s = true -> noWhiteSpace s = true.
Proof. unfold isToken. intros H. now apply andb_prop in H as [_ H]. Qed.

Lemma isToken_truthy (s : string) : isToken s = true -> JS.truthy (Some s) = true.
Proof. unfold isToken, JS.truthy. intros H. now apply andb_prop in H as [H _]. Qed.

Lemma trimEnd_noWhiteSpace (s : string) : noWhiteSpace s = true -> JS.trimEnd s = s.
Proof.
  induction s as [|c r IH]; simpl; [reflexivity|].
  intros H. apply andb_prop in H as [Hc Hr].
  apply negb_true_iff in Hc. rewrite Hc, (IH Hr). reflexivity.
Qed.

Lemma trimEnd_append_token (a n : string) :
  isToken n = true -> JS.trimEnd (a ++ n) = a ++ n.
Proof.
  intros Hn. induction a as [|c a IH]; simpl.
  - apply trimEnd_noWhiteSpace, isToken_noWhiteSpace, Hn.
  - rewrite IH, eqb_empty_append by now apply isToken_nonempty.
    now rewrite andb_false_r.
Qed.

Lemma trimStart_token_head (a b : string) :
  isToken a = true -> JS.trimStart (a ++ b) = a ++ b.
Proof.
  intros Ha. destruct a as [|c a]; [discriminate|].
  apply isToken_noWhiteSpace in Ha. simpl in *.
  apply andb_prop in Ha as [Hc _]. apply negb_true_iff in Hc. now rewrite Hc.
Qed.

Lemma isWhiteSpace_space : JS.isWhiteSpace " " = true.
Proof. reflexivity. Qed.

Lemma split_space_noWhiteSpace (s : string) :
  noWhiteSpace s = true -> JS.split " " s = [s].
Proof.
  induction s as [|c r IH]; simpl; [reflexivity|].
  intros H. apply andb_prop in H as [Hc Hr]. apply negb_true_iff in Hc.
  destruct (Ascii.eqb_spec c " ") as [->|_].
  - rewrite isWhiteSpace_space in Hc. discriminate.
  - now rewrite (IH Hr).
Qed.

Lemma split_space_append (a b : string) :
  noWhiteSpace a = true ->
  JS.split " " (a ++ String " " b) = a :: JS.split " " b.
Proof.
  induction a as [|c a IH]; simpl; [reflexivity|].
  intros H. apply andb_prop in H as [Hc Ha]. apply negb_true_iff in Hc.
  destruct (Ascii.eqb_spec c " ") as [->|_].
  - rewrite isWhiteSpace_space in Hc. discriminate.
  - now rewrite (IH Ha).
Qed.

(** A command word followed by one space and one argument is parsed into
    exactly these two. *)
Lemma parts_command_arg (c a : string) :
  isToken c = true -> isToken a = true ->
  JS.split " " (JS.trim (c ++ String " " a)) = [c; a].
Proof.
  intros Hc Ha. unfold JS.trim.
  rewrite trimStart_token_head by assumption.
  change (c ++ String " " a) with (c ++ " " ++ a).
  rewrite <- append_assoc, trimEnd_append_token by assumption.
  rewrite append_assoc. simpl.
  rewrite split_space_append by now apply isToken_noWhiteSpace.
  now rewrite split_space_noWhiteSpace by now apply isToken_noWhiteSpace.
Qed.

Lemma parseCommand_command_arg (c a : string) :
  isToken c = true -> isToken a = true ->
  parseCommand (c ++ String " " a) = (c, Some a).
Proof.
  intros Hc Ha. unfold parseCommand. now rewrite parts_command_arg.
Qed.

Lemma truthy_nonempty (s : string) : JS.truthy (Some s) = true <-> s <> "".
Proof.
  unfold JS.truthy. rewrite negb_true_iff. apply String.eqb_neq.
Qed.

(** Every line made of a command word, one space and a one-word argument
    is parsed into that command and that argument, and the argument is
    truthy. *)
Lemma parseCommand_line (c a : string) :
  isToken c = true -> isToken a = true ->
  parseCommand (c ++ " " ++ a) = (c, Some a) /\ JS.truthy (Some a) = true.
Proof.
  intros Hc Ha. split; [now apply parseCommand_command_arg | now apply isToken_truthy].
Qed.

(** The handler on a line whose parse is known, in a directory that
    resolves: the [switch] on the command word. *)
Ltac dispatch Hparse Hdir :=
  unfold runCommand, handleTerminalCommand;
  rewrite Hparse, Hdir; cbv beta iota;
  repeat match goal with
         | |- context [String.eqb ?x ?y] =>
             let b := eval vm_compute in (String.eqb x y) in
             match b with
             | true => change (String.eqb x y) with true
             | false => change (String.eqb x y) with false
             end
         end;
  cbv beta iota delta [orb].

(** ** rm: a failed native delete aborts the command *)

(** C1.  In a native current directory, when a line parsed as [rm name]
    (with a non-empty [name]) finds the child but
    the host's [removeEntry] rejects, the command answers with the disk
    error, enqueues no state update at all (so [removeNodeFromTree] is never
    called), and the state after the command is the state before it: every
    id resolves to the node it resolved to. *)
Theorem rm_native_failure_leaves_tree_untouched
    (host : Host) (st : AppState) (cmd nm : string) (dir target : FileSystemNode)
    (h : Handle) (e : string) :
  parseCommand cmd = ("rm", Some nm) ->
  JS.truthy (Some nm) = true ->
  currentDir st = Some dir ->
  JS.find (fun c => name c =? nm) (children_or_nil dir) = Some target ->
  handle dir = Some h ->
  removeEntry host h nm = Rejected e ->
  handleTerminalCommand host st cmd = ("Error deleting from disk: " ++ e, [])
  /\ runCommand host st cmd = ("Error deleting from disk: " ++ e, st)
  /\ (forall i, ~ In (SetFileSystem_remove i) (snd (handleTerminalCommand host st cmd)))
  /\ (forall i, findNode (fileSystem (snd (runCommand host st cmd))) i
                = findNode (fileSystem st) i).
Proof.
  intros Hparse Htruthy Hdir Hfind Hh Hrej.
  assert (Hcmd : handleTerminalCommand host st cmd
                 = ("Error deleting from disk: " ++ e, [])).
  { dispatch Hparse Hdir. unfold cmd_rm.
    rewrite Htruthy. cbv beta iota delta [negb].
    rewrite Hfind, Hh, Hrej. reflexivity. }
  assert (Hrun : runCommand host st cmd
                 = ("Error deleting from disk: " ++ e, st)).
  { unfold runCommand. rewrite Hcmd. reflexivity. }
  repeat split; try assumption.
  - intros i. rewrite Hcmd. simpl. tauto.
  - intros i. rewrite Hrun. reflexivity.
Qed.

(** A native project holding [notes.txt], on a host that refuses deletion. *)
Lemma rm_native_failure_leaves_tree_untouched_witness :
  runCommand (failingHost "NotAllowedError") notesProject "rm notes.txt"
  = ("Error deleting from disk: NotAllowedError", notesProject).
Proof.
  refine (proj1 (proj2 (rm_native_failure_leaves_tree_untouched
            (failingHost "NotAllowedError") notesProject "rm notes.txt" "notes.txt"
            (mkNode "root" "Project" FOLDER None None
               (Some [fileNode "root_notes.txt" "notes.txt" (Some "root")
                        (Some (mkHandle 7)) None])
               (Some true) None (Some (mkHandle 0)))
            (fileNode "root_notes.txt" "notes.txt" (Some "root") (Some (mkHandle 7)) None)
            (mkHandle 0) "NotAllowedError" _ _ _ _ _ _))); reflexivity.
Defined.

(** ** cat: only FILE children are readable *)

Lemma find_none_of_forall {A : Type} (p : A -> bool) (l : list A) :
  (forall x, In x l -> p x = false) -> JS.find p l = None.
Proof.
  unfold JS.find. induction l as [|x r IH]; simpl; intros H; [reflexivity|].
  rewrite (H x) by now left. apply IH. intros y Hy. apply H. now right.
Qed.

(** C10.  When the current directory has a FOLDER named [n] and no FILE
    named [n], a line parsed as [cat n] (with a non-empty [n]) answers
    [File not found: n] and changes nothing. *)
Theorem cat_folder_is_file_not_found
    (host : Host) (st : AppState) (cmd n : string) (dir : FileSystemNode) :
  parseCommand cmd = ("cat", Some n) ->
  JS.truthy (Some n) = true ->
  currentDir st = Some dir ->
  (exists c, In c (children_or_nil dir) /\ name c = n /\ type c = FOLDER) ->
  (forall c, In c (children_or_nil dir) -> name c = n -> type c <> FILE) ->
  runCommand host st cmd = ("File not found: " ++ n, st).
Proof.
  intros Hparse Htruthy Hdir _ Hnofile.
  dispatch Hparse Hdir. unfold cmd_cat.
  rewrite Htruthy. cbv beta iota delta [negb].
  rewrite find_none_of_forall; [reflexivity|].
  intros c Hin. destruct (String.eqb_spec (name c) n) as [Heq|_]; [|reflexivity].
  specialize (Hnofile c Hin Heq). destruct (type c); [congruence | reflexivity].
Qed.

Lemma cat_folder_is_file_not_found_witness :
  runCommand (failingHost "E") emptyDocsProject "cat docs"
  = ("File not found: docs", emptyDocsProject).
Proof.
  apply (cat_folder_is_file_not_found (failingHost "E") emptyDocsProject
           "cat docs" "docs"
           (mkNode "root" "Project" FOLDER None None
              (Some [folderNode "root_docs" "docs" (Some "root") None []])
              (Some true) None None)).
  - reflexivity.
  - reflexivity.
  - reflexivity.
  - exists (folderNode "root_docs" "docs" (Some "root") None []).
    simpl. auto.
  - simpl. intros c [<-|[]] _. discriminate.
Defined.

(** ** mkdir / touch / code: a failed native create *)

(** C4, as the code has it.  In a native current directory, when the host
    rejects the creation, [mkdir] answers [Error creating directory on
    disk: e] and [touch] / [code] answer [Error creating file on disk: e];
    no update is enqueued and the state is unchanged.  The virtual node is
    created exactly when the current directory has no handle. *)
Theorem native_create_failure_reports_error
    (host : Host) (st : AppState) (cmd c arg : string) (dir : FileSystemNode) :
  parseCommand cmd = (c, Some arg) ->
  JS.truthy (Some arg) = true ->
  currentDir st = Some dir ->
  (forall h e, handle dir = Some h ->
     (c = "mkdir" -> getDirectoryHandle host h arg = Rejected e ->
        runCommand host st cmd = ("Error creating directory on disk: " ++ e, st))
     /\ (c = "touch" \/ c = "code" -> getFileHandle host h arg = Rejected e ->
           runCommand host st cmd = ("Error creating file on disk: " ++ e, st)))
  /\ (handle dir = None ->
        (c = "mkdir" ->
           handleTerminalCommand host st cmd
           = ("Virtual directory '" ++ arg ++ "' created.",
              [SetFileSystem_add (id dir) (newFolderNode dir arg None)]))
        /\ (c = "touch" \/ c = "code" ->
              handleTerminalCommand host st cmd
              = ("Virtual file '" ++ arg ++ "' created.",
                 [SetFileSystem_add (id dir) (newFileNode dir arg None)])))
  /\ (forall h h', handle dir = Some h ->
        (c = "mkdir" -> getDirectoryHandle host h arg = Resolved h' ->
           handleTerminalCommand host st cmd
           = ("Directory '" ++ arg ++ "' created.",
              [SetFileSystem_add (id dir)
                 (mkNode (id dir ++ "_" ++ arg) arg FOLDER None None (Some [])
                         (Some false) (Some (id dir)) (Some h'))]))
        /\ (c = "touch" \/ c = "code" -> getFileHandle host h arg = Resolved h' ->
              handleTerminalCommand host st cmd
              = ("File '" ++ arg ++ "' created.",
                 [SetFileSystem_add (id dir)
                    (mkNode (id dir ++ "_" ++ arg) arg FILE (Some "")
                            (Some (getLanguageFromExtension arg)) None None
                            (Some (id dir)) (Some h'))])))
  /\ (c = "mkdir" \/ c = "touch" \/ c = "code" ->
      forall parent newNode,
        In (SetFileSystem_add parent newNode) (snd (handleTerminalCommand host st cmd)) ->
        (handle newNode = None <-> handle dir = None)).
Proof.
  intros Hparse Htruthy Hdir.
  assert (Hmk : c = "mkdir" ->
                handleTerminalCommand host st cmd = cmd_mkdir host dir (Some arg)).
  { intros ->. dispatch Hparse Hdir. reflexivity. }
  assert (Htc : c = "touch" \/ c = "code" ->
                handleTerminalCommand host st cmd = cmd_touch host dir (Some arg)).
  { intros [-> | ->]; dispatch Hparse Hdir; reflexivity. }
  assert (Hrun : forall out, handleTerminalCommand host st cmd = (out, []) ->
                             runCommand host st cmd = (out, st)).
  { intros out H. unfold runCommand. now rewrite H. }
  unfold cmd_mkdir in Hmk. unfold cmd_touch in Htc.
  rewrite Htruthy in Hmk, Htc. cbv beta iota delta [negb] in Hmk, Htc.
  split; [|split; [|split]].
  - intros h e Hh. rewrite Hh in Hmk, Htc. split; intros Hc Hrej; apply Hrun.
    + rewrite (Hmk Hc). now rewrite Hrej.
    + rewrite (Htc Hc). now rewrite Hrej.
  - intros Hh. rewrite Hh in Hmk, Htc. split; intros Hc; [apply Hmk | apply Htc]; exact Hc.
  - intros h h' Hh. rewrite Hh in Hmk, Htc. split; intros Hc Hres.
    + rewrite (Hmk Hc). now rewrite Hres.
    + rewrite (Htc Hc). now rewrite Hres.
  - intros Hc parent newNode.
    assert (Hcmd : handleTerminalCommand host st cmd
                   = match handle dir with
                     | Some h =>
                         if c =? "mkdir"
                         then match getDirectoryHandle host h arg with
                              | Resolved newDirHandle =>
                                  ("Directory '" ++ arg ++ "' created.",
                                   [SetFileSystem_add (id dir)
                                      (newFolderNode dir arg (Some newDirHandle))])
                              | Rejected e => ("Error creating directory on disk: " ++ e, [])
                              end
                         else match getFileHandle host h arg with
                              | Resolved newFileHandle =>
                                  ("File '" ++ arg ++ "' created.",
                                   [SetFileSystem_add (id dir)
                                      (newFileNode dir arg (Some newFileHandle))])
                              | Rejected e => ("Error creating file on disk: " ++ e, [])
                              end
                     | None =>
                         if c =? "mkdir"
                         then ("Virtual directory '" ++ arg ++ "' created.",
                               [SetFileSystem_add (id dir) (newFolderNode dir arg None)])
                         else ("Virtual file '" ++ arg ++ "' created.",
                               [SetFileSystem_add (id dir) (newFileNode dir arg None)])
                     end).
    { destruct Hc as [-> | Hc].
      - rewrite (Hmk eq_refl). now destruct (handle dir).
      - rewrite (Htc Hc). destruct Hc as [-> | ->]; now destruct (handle dir). }
    rewrite Hcmd. clear Hcmd Hmk Htc.
    destruct (handle dir) as [h|]; destruct (c =? "mkdir");
      try destruct (getDirectoryHandle host h arg);
      try destruct (getFileHandle host h arg);
      cbn [snd In]; intros Hin; try contradiction;
      destruct Hin as [[= _ <-] | []]; cbn [handle newFolderNode newFileNode];
      split; congruence.
Qed.

Lemma native_create_failure_reports_error_witness :
  runCommand (failingHost "NotAllowedError") emptyNativeProject "mkdir x"
  = ("Error creating directory on disk: NotAllowedError", emptyNativeProject).
Proof.
  refine (proj1 (proj1 (native_create_failure_reports_error
            (failingHost "NotAllowedError") emptyNativeProject "mkdir x" "mkdir" "x"
            (mkNode "root" "Project" FOLDER None None (Some []) (Some true) None
                    (Some (mkHandle 0))) _ _ _)
            (mkHandle 0) "NotAllowedError" _) _ _); reflexivity.
Defined.

(** C4, as the spec words it, fails: in a native directory whose host
    refuses to create, [mkdir x], [touch x] and [code x] leave the tree as
    it was; no node [root_x] exists afterwards. *)
Lemma native_create_failure_has_no_virtual_fallback :
  let host := failingHost "NotAllowedError" in
  let after cmd := snd (runCommand host emptyNativeProject cmd) in
  after "mkdir x" = emptyNativeProject
  /\ after "touch x" = emptyNativeProject
  /\ after "code x" = emptyNativeProject
  /\ findNode (fileSystem (after "mkdir x")) "root_x" = None
  /\ findNode (fileSystem (after "touch x")) "root_x" = None
  /\ fst (runCommand host emptyNativeProject "mkdir x")
     = "Error creating directory on disk: NotAllowedError".
Proof.
  vm_compute. repeat split.
Qed.

(** ** mkdir twice: duplicated ids *)

(** C2 at a failing input.  [mkdir x] run twice in the root of a virtual
    project appends two FOLDER children that both carry the id [root_x]:
    neither [mkdir] nor [addNodeToTree] looks for an existing child. *)
Theorem mkdir_twice_duplicates_id :
  let st := snd (runCommands (failingHost "E") emptyVirtualProject ["mkdir x"; "mkdir x"]) in
  option_map (fun d => map (fun c => (id c, type c)) (children_or_nil d)) (currentDir st)
    = Some [("root_x", FOLDER); ("root_x", FOLDER)]
  /\ ~ NoDup (map id (forestNodes (fileSystem st))).
Proof.
  cbv zeta. split; [vm_compute; reflexivity|].
  intros H.
  assert (E : map id (forestNodes (fileSystem (snd (runCommands (failingHost "E")
                emptyVirtualProject ["mkdir x"; "mkdir x"]))))
              = ["root"; "root_x"; "root_x"]) by (vm_compute; reflexivity).
  rewrite E in H. inversion H as [|? ? _ H1]; subst.
  inversion H1 as [|? ? Hnin _]; subst. apply Hnin. now left.
Qed.

(** The same defect lets a parent id resolve to a FILE: after [touch x],
    [mkdir x], [cd x] and [mkdir y], the new node's [parentId] is [root_x],
    which [findNode] resolves to the FILE [x]. *)
Lemma duplicated_id_makes_a_file_a_parent :
  let st := snd (runCommands (failingHost "E") emptyVirtualProject
                   ["touch x"; "mkdir x"; "cd x"; "mkdir y"]) in
  option_map parentId (findNode (fileSystem st) "root_x_y") = Some (Some "root_x")
  /\ option_map type (findNode (fileSystem st) "root_x") = Some FILE.
Proof.
  vm_compute. split; reflexivity.
Qed.

(** Ids also collide across directories, without any name being used
    twice: [a_b/c] and [a/b_c] both get the id [root_a_b_c], and removing
    the second one by [rm b_c] inside [a] removes the first one as well. *)
Lemma id_scheme_collides_across_directories :
  let st := snd (runCommands (failingHost "E") emptyVirtualProject
                   ["mkdir a_b"; "mkdir a"; "cd a"; "mkdir b_c";
                    "cd .."; "cd a_b"; "mkdir c"]) in
  map (fun n => (id n, name n, parentId n)) (forestNodes (fileSystem st))
  = [("root", "Project", None);
     ("root_a_b", "a_b", Some "root"); ("root_a_b_c", "c", Some "root_a_b");
     ("root_a", "a", Some "root"); ("root_a_b_c", "b_c", Some "root_a")]
  /\ map id (forestNodes (fileSystem (snd (runCommands (failingHost "E") st
                                             ["cd .."; "cd a"; "rm b_c"]))))
     = ["root"; "root_a_b"; "root_a"].
Proof.
  vm_compute. split; reflexivity.
Qed.

(** ** cat: truncation *)

(** The answer of [cat] for a text-like FILE child whose content is
    resident: the first 500 characters, and ["..."] exactly when the
    content is longer. *)
Lemma cat_resident_content
    (host : Host) (st : AppState) (cmd nm : string) (dir file : FileSystemNode)
    (c : string) :
  parseCommand cmd = ("cat", Some nm) ->
  JS.truthy (Some nm) = true ->
  currentDir st = Some dir ->
  JS.find (fun n => (name n =? nm) && FileType_eqb (type n) FILE) (children_or_nil dir)
    = Some file ->
  isMediaOrBinary (language file) = false ->
  content file = Some c ->
  runCommand host st cmd
  = (JS.substring0 500 c ++ (if (500 <? String.length c)%nat then "..." else ""), st).
Proof.
  intros Hparse Htruthy Hdir Hfind Htext Hc.
  dispatch Hparse Hdir. unfold cmd_cat.
  rewrite Htruthy. cbv beta iota delta [negb].
  rewrite Hfind, Htext, Hc.
  assert (Hres : (if JS.truthy (Some c) then c else "") = c).
  { unfold JS.truthy. destruct (String.eqb_spec c ""); subst; reflexivity. }
  rewrite Hres. destruct (handle file); reflexivity.
Qed.

(** C5 at a failing input.  For a native file of 600 characters whose
    content is not yet loaded, [cat] answers the first 500 characters and
    nothing more; with the same content resident it appends ["..."]. *)
Theorem cat_lazy_content_drops_ellipsis :
  fst (runCommand (grantingHost (replicate 600 "a"))
         (projectWith (Some (mkHandle 0)) [lazyLog]) "cat log.txt")
  = replicate 500 "a"
  /\ fst (runCommand (grantingHost (replicate 600 "a"))
            (projectWith (Some (mkHandle 0)) [residentLog]) "cat log.txt")
     = replicate 500 "a" ++ "...".
Proof.
  split; vm_compute; reflexivity.
Qed.

(** The answer of [cat] for a text-like native FILE child whose content is
    not loaded yet and whose host read succeeds: the first 500 characters
    of the text read, never followed by ["..."]. *)
Lemma cat_lazy_content
    (host : Host) (st : AppState) (cmd nm : string) (dir file : FileSystemNode)
    (h : Handle) (t : string) :
  parseCommand cmd = ("cat", Some nm) ->
  JS.truthy (Some nm) = true ->
  currentDir st = Some dir ->
  JS.find (fun n => (name n =? nm) && FileType_eqb (type n) FILE) (children_or_nil dir)
    = Some file ->
  isMediaOrBinary (language file) = false ->
  handle file = Some h ->
  content file = None ->
  getFile_text host h = Resolved t ->
  runCommand host st cmd = (JS.substring0 500 t, st).
Proof.
  intros Hparse Htruthy Hdir Hfind Htext Hh Hc Hread.
  dispatch Hparse Hdir. unfold cmd_cat.
  rewrite Htruthy. cbv beta iota delta [negb].
  now rewrite Hfind, Htext, Hh, Hc, Hread.
Qed.

(** ** rm: open tabs of removed descendants *)

(** C6 at a failing input.  With [docs/readme.md] open in a tab, [rm docs]
    removes the folder and the file from the tree, yet the tab of the
    removed file stays in [openTabs]: only the folder's own id is dropped. *)
Theorem rm_folder_keeps_descendant_tabs :
  let st := snd (runCommand (failingHost "E") docsOpen "rm docs") in
  fst (runCommand (failingHost "E") docsOpen "rm docs") = ""
  /\ findNode (fileSystem st) "root_docs" = None
  /\ findNode (fileSystem st) "root_docs_readme.md" = None
  /\ map tab_id (openTabs st) = ["root_docs_readme.md"].
Proof.
  vm_compute. repeat split.
Qed.

(** ** pwd: raw ids *)

(** C7 at a failing input.  After [mkdir src] and [cd src] from the root,
    [pwd] answers with the stored ids, ["/root/root_src"], while the prompt
    name computed from the same stack is ["src"]. *)
Theorem pwd_prints_raw_ids :
  let st := snd (runCommands (failingHost "E") emptyVirtualProject ["mkdir src"; "cd src"]) in
  termPath st = ["root"; "root_src"]
  /\ fst (runCommand (failingHost "E") st "pwd") = "/root/root_src"
  /\ currentTermDirName st = Some "src".
Proof.
  vm_compute. repeat split.
Qed.

(** In every state whose current directory resolves, [pwd] answers with a
    slash and the ids of the stack joined by slashes. *)
Lemma pwd_joins_ids (host : Host) (st : AppState) (cmd : string) (arg : option string)
    (dir : FileSystemNode) :
  parseCommand cmd = ("pwd", arg) ->
  currentDir st = Some dir ->
  runCommand host st cmd = ("/" ++ JS.join "/" (termPath st), st).
Proof.
  intros Hparse Hdir. dispatch Hparse Hdir. reflexivity.
Qed.

(** ** getFileContent: first match by name *)

Lemma find_app {A : Type} (p : A -> bool) (l1 l2 : list A) :
  List.find p (l1 ++ l2)
  = match List.find p l1 with
    | Some x => Some x
    | None => List.find p l2
    end.
Proof.
  induction l1 as [|x r IH]; simpl; [reflexivity|].
  destruct (p x); [reflexivity | exact IH].
Qed.

(** The loop of [findContent] against the depth-first list of nodes: it
    finds nothing when no node matches, and the content of the first match
    when that content is not empty. *)
Lemma findContent_visit_first_match (fileName : string) (node : FileSystemNode) :
  match List.find (fun n => (name n =? fileName)
                            && match content n with Some _ => true | None => false end)
                  (allNodes node) with
  | None => findContent_visit fileName node = None
  | Some m => forall c, content m = Some c -> c <> "" ->
                        findContent_visit fileName node = Some c
  end.
Proof.
  induction node as [node IH] using FileSystemNode_deep_ind.
  destruct node as [j nm t c lg cs o p h]. unfold children_or_nil in IH. simpl in *.
  destruct (nm =? fileName); simpl.
  - destruct c as [c|]; simpl; [now intros c' [= <-] _|].
    destruct cs as [cs|]; simpl; [|reflexivity].
    induction IH as [|x r Hx _ IHr]; simpl; [reflexivity|].
    rewrite find_app.
    destruct (List.find _ (allNodes x)) as [m|].
    + intros c Hc Hne. rewrite (Hx c Hc Hne).
      apply String.eqb_neq in Hne. now rewrite Hne.
    + rewrite Hx. exact IHr.
  - destruct cs as [cs|]; simpl; [|reflexivity].
    induction IH as [|x r Hx _ IHr]; simpl; [reflexivity|].
    rewrite find_app.
    destruct (List.find _ (allNodes x)) as [m|].
    + intros c' Hc Hne. rewrite (Hx c' Hc Hne).
      apply String.eqb_neq in Hne. now rewrite Hne.
    + rewrite Hx. exact IHr.
Qed.

(** [getFileContent] agrees with the spec's reading whenever the first
    match in depth-first order has a non-empty content, and whenever no
    node matches; the two can differ only on an empty first match. *)
Lemma getFileContent_agrees_on_nonempty_first_match
    (fileSystem : list FileSystemNode) (fileName : string) :
  getFileContent_spec fileSystem fileName <> "" ->
  getFileContent fileSystem fileName = getFileContent_spec fileSystem fileName.
Proof.
  unfold getFileContent, getFileContent_spec, findContent, forestNodes.
  induction fileSystem as [|x r IH]; simpl; [congruence|].
  rewrite find_app. pose proof (findContent_visit_first_match fileName x) as Hx.
  destruct (List.find _ (allNodes x)) as [m|].
  - destruct (content m) as [c|]; [|congruence].
    intros Hne. rewrite (Hx c eq_refl Hne).
    apply String.eqb_neq in Hne. now rewrite Hne.
  - rewrite Hx. exact IH.
Qed.

(** C9 at a failing input.  The first [index.html] in depth-first order
    sits in a folder and is empty; [getFileContent] discards that empty
    result on the way up and answers with the later file's content. *)
Theorem getFileContent_skips_empty_nested_match :
  getFileContent_spec previewTree "index.html" = ""
  /\ getFileContent previewTree "index.html" = "<p>later</p>".
Proof.
  split; vm_compute; reflexivity.
Qed.

(** ** Deterministic ids *)

Lemma linked_unfold (rule : string -> FileSystemNode -> Prop) (parent : string)
    (n : FileSystemNode) :
  linked rule parent n <->
  parentId n = Some parent /\ rule parent n
  /\ Forall (linked rule (id n)) (children_or_nil n).
Proof.
  assert (Hall : forall p l,
             (fix all (l : list FileSystemNode) : Prop :=
                match l with
                | [] => True
                | c :: r => linked rule p c /\ all r
                end) l <-> Forall (linked rule p) l).
  { intros p l. induction l as [|c r IH]; simpl.
    - split; auto.
    - rewrite IH. split.
      + intros [Hc Hr]. now constructor.
      + intros H. inversion H; subst. now split. }
  destruct n as [i nm t c lg cs o p h]. unfold children_or_nil. simpl.
  destruct cs as [cs|]; [rewrite Hall|]; intuition.
Qed.

Section NativeIds.
Variable localeCompare : string -> string -> Z.

Lemma insertSorted_Forall (P : FileSystemNode -> Prop) (x : FileSystemNode)
    (l : list FileSystemNode) :
  P x -> Forall P l -> Forall P (insertSorted localeCompare x l).
Proof.
  intros Hx Hl. induction Hl as [|y r Hy Hr IH]; simpl.
  - now constructor.
  - destruct (compareNodes localeCompare y x <=? 0)%Z; repeat constructor; assumption.
Qed.

Lemma sortNodes_Forall (P : FileSystemNode -> Prop) (l : list FileSystemNode) :
  Forall P l -> Forall P (sortNodes localeCompare l).
Proof.
  unfold sortNodes.
  assert (H : forall acc, Forall P acc -> Forall P l ->
              Forall P (fold_left (fun acc x => insertSorted localeCompare x acc) l acc)).
  { induction l as [|x r IH]; simpl; intros acc Hacc Hl; [assumption|].
    inversion Hl; subst. apply IH; [now apply insertSorted_Forall | assumption]. }
  intros Hl. now apply H.
Qed.

(** Every node that native enumeration creates under a non-empty parent
    id carries [parent_name] as its id, at every depth. *)
Lemma processDirectoryHandle_linked (dirHandle : DirEntry) :
  forall parent, parent <> "" ->
  Forall (linked prefixedId parent)
         (processDirectoryHandle localeCompare dirHandle (Some parent)).
Proof.
  induction dirHandle as [nm h | nm h values throws IH] using DirEntry_deep_ind;
    intros parent Hparent; simpl; [constructor|].
  destruct throws; [constructor|].
  apply sortNodes_Forall. apply Forall_map.
  assert (Htruthy : JS.truthy (Some parent) = true).
  { unfold JS.truthy. apply negb_true_iff. now apply String.eqb_neq. }
  induction IH as [|entry r Hentry _ IHr]; constructor; [|exact IHr].
  apply linked_unfold. unfold entryId. rewrite Htruthy.
  destruct entry as [enm eh | enm eh evalues ethrows];
    (split; [reflexivity | split; [reflexivity|]]).
  - constructor.
  - unfold children_or_nil. cbn [children id].
    apply Hentry. destruct parent; discriminate.
Qed.

End NativeIds.

Lemma updateFirst_Forall {A : Type} (P : A -> Prop) (p : A -> bool) (f : A -> A)
    (l l' : list A) :
  Forall P l ->
  (forall x, P x -> p x = true -> P (f x)) ->
  updateFirst p f l = Some l' ->
  Forall P l'.
Proof.
  intros Hl Hf. revert l'. induction Hl as [|x r Hx Hr IH]; simpl; intros l' E.
  - discriminate.
  - destruct (p x) eqn:Hp.
    + injection E as <-. constructor; auto.
    + destruct (updateFirst p f r) as [r'|]; [|discriminate].
      injection E as <-. constructor; auto.
Qed.

Lemma placeAt_linked (leaf : string -> FileSystemNode) :
  (forall parent, linked flatListId parent (leaf parent)) ->
  forall parts level parent,
    Forall (linked flatListId parent) level ->
    Forall (linked flatListId parent) (placeAt parts level parent leaf).
Proof.
  intros Hleaf parts.
  induction parts as [|folderName rest IH]; intros level parent Hlevel; simpl.
  - apply Forall_app. split; [assumption|]. constructor; [apply Hleaf | constructor].
  - match goal with
    | |- Forall _ (match ?u with _ => _ end) => destruct u as [level'|] eqn:E
    end.
    + eapply updateFirst_Forall; [exact Hlevel | | exact E].
      intros x Hx _. apply linked_unfold in Hx as (Hp & Hid & Hcs).
      apply linked_unfold. split; [exact Hp|]. split; [exact Hid|].
      apply IH. exact Hcs.
    + apply Forall_app. split; [assumption|]. constructor; [|constructor].
      apply linked_unfold. split; [reflexivity|]. split; [reflexivity|].
      apply IH. constructor.
Qed.

Lemma processInputFile_linked (rootChildren : list FileSystemNode) (file : InputFile) :
  Forall (linked flatListId "root") rootChildren ->
  Forall (linked flatListId "root") (processInputFile rootChildren file).
Proof.
  intros H. unfold processInputFile.
  destruct (negb (JS.truthy (Some (webkitRelativePath file)))).
  - apply Forall_app. split; [assumption|]. constructor; [|constructor].
    apply linked_unfold. split; [reflexivity|]. split.
    + right. split; reflexivity.
    + constructor.
  - apply placeAt_linked; [|assumption].
    intros parent. apply linked_unfold. split; [reflexivity|]. split.
    + left. reflexivity.
    + constructor.
Qed.

(** Every node that flat-list ingestion creates obeys [flatListId], at
    every depth, and names the node that holds it as its parent. *)
Lemma processInputFiles_linked (fileList : list InputFile) :
  Forall (linked flatListId "root") (processInputFiles_rootChildren fileList).
Proof.
  unfold processInputFiles_rootChildren.
  assert (H : forall acc, Forall (linked flatListId "root") acc ->
              Forall (linked flatListId "root") (fold_left processInputFile fileList acc)).
  { induction fileList as [|f r IH]; simpl; intros acc Hacc; [assumption|].
    apply IH. now apply processInputFile_linked. }
  apply H. constructor.
Qed.

Lemma allNodes_unfold (n : FileSystemNode) :
  allNodes n = n :: forestNodes (children_or_nil n).
Proof.
  destruct n as [i nm t c lg cs o p h]. unfold children_or_nil. simpl.
  destruct cs; reflexivity.
Qed.

Lemma forestNodes_cons (n : FileSystemNode) (r : list FileSystemNode) :
  forestNodes (n :: r) = ((n :: forestNodes (children_or_nil n)) ++ forestNodes r)%list.
Proof. unfold forestNodes. simpl. now rewrite allNodes_unfold. Qed.

Lemma forestNodes_app (l1 l2 : list FileSystemNode) :
  forestNodes (l1 ++ l2) = (forestNodes l1 ++ forestNodes l2)%list.
Proof. unfold forestNodes. apply flat_map_app. Qed.

Lemma updateFirst_some {A : Type} (p : A -> bool) (f : A -> A) (l l' : list A) :
  updateFirst p f l = Some l' ->
  exists pre x post, l = (pre ++ x :: post)%list /\ l' = (pre ++ f x :: post)%list
                     /\ p x = true.
Proof.
  revert l'. induction l as [|y r IH]; simpl; intros l' E; [discriminate|].
  destruct (p y) eqn:Hp.
  - injection E as <-. now exists [], y, r.
  - destruct (updateFirst p f r) as [r'|]; [|discriminate]. injection E as <-.
    destruct (IH r' eq_refl) as (pre & x & post & -> & -> & Hx).
    now exists (y :: pre), x, post.
Qed.

Lemma children_or_nil_with_children (x : FileSystemNode) (cs : list FileSystemNode) :
  children_or_nil (with_children x cs) = cs.
Proof. reflexivity. Qed.

(** The FILE nodes of a forest after [placeAt]: the ones before, and the
    new leaf, built from the id of the folder it was put in. *)
Lemma placeAt_fileNodes (leaf : string -> FileSystemNode) :
  (forall parent, type (leaf parent) = FILE /\ children (leaf parent) = None) ->
  forall parts level parent,
    exists q,
      Permutation (filter isFile (forestNodes (placeAt parts level parent leaf)))
                  (leaf q :: filter isFile (forestNodes level)).
Proof.
  intros Hleaf parts.
  induction parts as [|folderName rest IH]; intros level parent; simpl.
  - exists parent. destruct (Hleaf parent) as [Ht Hc].
    rewrite forestNodes_app, forestNodes_cons, filter_app. unfold children_or_nil.
    rewrite Hc. simpl. unfold isFile at 2. rewrite Ht. simpl.
    symmetry. apply Permutation_cons_append.
  - match goal with
    | |- exists q, Permutation (filter isFile (forestNodes (match ?u with _ => _ end))) _ =>
        destruct u as [level'|] eqn:E
    end.
    + apply updateFirst_some in E as (pre & x & post & -> & -> & Hx).
      apply andb_prop in Hx as [_ Hfolder].
      destruct (IH (children_or_nil x) (id x)) as (q & Hq). exists q.
      rewrite !forestNodes_app, !forestNodes_cons, children_or_nil_with_children.
      rewrite !filter_app. simpl.
      assert (Hx' : isFile (with_children x
                              (placeAt rest (children_or_nil x) (id x) leaf)) = false).
      { unfold isFile. cbn [with_children type]. now destruct (type x). }
      assert (Hxf : isFile x = false) by (unfold isFile; now destruct (type x)).
      rewrite Hx', Hxf, Hq. simpl.
      apply Permutation_sym, Permutation_middle.
    + destruct (IH [] (id (createdFolder folderName parent))) as (q & Hq). exists q.
      rewrite forestNodes_app, forestNodes_cons, children_or_nil_with_children.
      rewrite !filter_app. simpl. rewrite app_nil_r, Hq. simpl.
      symmetry. apply Permutation_cons_append.
Qed.

Lemma cmd_mkdir_prefixed (host : Host) (dir : FileSystemNode) (arg : string) :
  addsPrefixedChild dir arg (snd (cmd_mkdir host dir (Some arg))).
Proof.
  unfold cmd_mkdir, addsPrefixedChild.
  destruct (negb (JS.truthy (Some arg))); [intros u []|].
  destruct (handle dir) as [h|];
    [destruct (getDirectoryHandle host h arg)|]; simpl; intros u Hu;
    try contradiction; destruct Hu as [<-|[]]; eexists; repeat split.
Qed.

Lemma cmd_touch_prefixed (host : Host) (dir : FileSystemNode) (arg : string) :
  addsPrefixedChild dir arg (snd (cmd_touch host dir (Some arg))).
Proof.
  unfold cmd_touch, addsPrefixedChild.
  destruct (negb (JS.truthy (Some arg))); [intros u []|].
  destruct (handle dir) as [h|];
    [destruct (getFileHandle host h arg)|]; simpl; intros u Hu;
    try contradiction; destruct Hu as [<-|[]]; eexists; repeat split.
Qed.

(** C8, as the code has it.  A node added by [mkdir], [touch] or [code]
    and every node created by native enumeration under a non-empty parent
    id has the id [parent_name]; the root uses the id [root].  Flat-list
    ingestion gives every file placed by a relative path the id
    [parent_name] (a one-segment path gives [root_name]) and every folder
    the id [parent_name] unless the id of its parent is the string [root]:
    then the folder goes by its bare name, which is so right under the
    root and also inside a top-level folder that is itself named [root].
    A file picked without a relative path goes by its bare name. *)
Theorem created_ids_follow_parent
    (host : Host) (localeCompare : string -> string -> Z) (st : AppState)
    (cmd c arg : string) (dir : FileSystemNode) :
  parseCommand cmd = (c, Some arg) ->
  c = "mkdir" \/ c = "touch" \/ c = "code" ->
  currentDir st = Some dir ->
  addsPrefixedChild dir arg (snd (handleTerminalCommand host st cmd))
  /\ (forall dirHandle parent, parent <> "" ->
        Forall (linked prefixedId parent)
               (processDirectoryHandle localeCompare dirHandle (Some parent)))
  /\ (forall dirHandle,
        map id (openRealFolder_tree localeCompare dirHandle) = ["root"]
        /\ Forall (fun r => Forall (linked prefixedId "root") (children_or_nil r))
                  (openRealFolder_tree localeCompare dirHandle))
  /\ (forall fileList,
        map id (processInputFiles_tree fileList) = ["root"]
        /\ Forall (fun r => Forall (linked flatListId "root") (children_or_nil r))
                  (processInputFiles_tree fileList))
  /\ (forall rootChildren file, webkitRelativePath file = "" ->
        exists n, processInputFile rootChildren file = (rootChildren ++ [n])%list
                  /\ id n = file_name file /\ name n = file_name file
                  /\ type n = FILE /\ parentId n = Some "root")
  /\ (forall rootChildren file fileName,
        webkitRelativePath file <> "" ->
        JS.pop (JS.split "/" (webkitRelativePath file)) = Some fileName ->
        exists q,
          Permutation
            (filter isFile (forestNodes (processInputFile rootChildren file)))
            (mkNode (q ++ "_" ++ fileName) fileName FILE (Some (inputContent file))
                    (Some (getLanguageFromExtension (file_name file))) None None
                    (Some q) None
             :: filter isFile (forestNodes rootChildren)))
  /\ (forall rootChildren file,
        webkitRelativePath file <> "" ->
        JS.split "/" (webkitRelativePath file) = [webkitRelativePath file] ->
        processInputFile rootChildren file
        = (rootChildren
           ++ [mkNode ("root_" ++ webkitRelativePath file) (webkitRelativePath file) FILE
                      (Some (inputContent file))
                      (Some (getLanguageFromExtension (file_name file))) None None
                      (Some "root") None])%list).
Proof.
  intros Hparse Hc Hdir. repeat split.
  - destruct Hc as [-> | [-> | ->]]; dispatch Hparse Hdir;
      (apply cmd_mkdir_prefixed || apply cmd_touch_prefixed).
  - intros dirHandle parent Hparent. now apply processDirectoryHandle_linked.
  - constructor; [|constructor]. unfold children_or_nil. cbn [children].
    now apply processDirectoryHandle_linked.
  - constructor; [|constructor]. unfold children_or_nil. cbn [children].
    apply processInputFiles_linked.
  - intros rootChildren file Hpath. unfold processInputFile. rewrite Hpath.
    eexists. repeat split.
  - intros rootChildren file fileName Hpath Hpop. unfold processInputFile.
    apply truthy_nonempty in Hpath. rewrite Hpath, Hpop. cbv beta iota delta [negb].
    apply (placeAt_fileNodes
             (fun currentParentId =>
                mkNode (currentParentId ++ "_" ++ fileName) fileName FILE
                       (Some (inputContent file))
                       (Some (getLanguageFromExtension (file_name file))) None None
                       (Some currentParentId) None)).
    intros parent. split; reflexivity.
  - intros rootChildren file Hpath Hsplit. unfold processInputFile.
    apply truthy_nonempty in Hpath. rewrite Hpath, Hsplit. reflexivity.
Qed.

Lemma created_ids_follow_parent_witness :
  addsPrefixedChild
    (mkNode "root" "Project" FOLDER None None (Some []) (Some true) None None) "x"
    (snd (handleTerminalCommand (failingHost "E") emptyVirtualProject "mkdir x")).
Proof.
  refine (proj1 (created_ids_follow_parent (failingHost "E") (fun _ _ => 0%Z)
                   emptyVirtualProject "mkdir x" "mkdir" "x"
                   (mkNode "root" "Project" FOLDER None None (Some [])
                           (Some true) None None) _ _ _));
    [reflexivity | left; reflexivity | reflexivity].
Defined.

(** C8, as the spec words it, fails: flat-list ingestion gives the
    top-level folder [src] the id [src] and the file [d.txt], picked
    without a relative path, the id [d.txt]; both have the parent [root],
    and neither id is [root_src] or [root_d.txt]. *)
Lemma flat_list_top_level_ids_lack_root_prefix :
  map (fun n => (id n, name n, parentId n))
      (forestNodes (processInputFiles_rootChildren sampleFileList))
  = [("src", "src", Some "root");
     ("src_a.txt", "a.txt", Some "src");
     ("src_sub", "sub", Some "src");
     ("src_sub_b.txt", "b.txt", Some "src_sub");
     ("root_c.txt", "c.txt", Some "root");
     ("d.txt", "d.txt", Some "root")]
  /\ ~ Forall (linked prefixedId "root") (processInputFiles_rootChildren sampleFileList).
Proof.
  split; [vm_compute; reflexivity|].
  intros H.
  assert (E : exists x r, processInputFiles_rootChildren sampleFileList = x :: r
                          /\ id x = "src" /\ name x = "src").
  { vm_compute. do 2 eexists. repeat split. }
  destruct E as (x & r & E & Hx & Hn). rewrite E in H.
  inversion H as [|? ? Hsrc _]; subst.
  apply linked_unfold in Hsrc as (_ & Hid & _).
  unfold prefixedId in Hid. rewrite Hx, Hn in Hid.
  discriminate.
Qed.

(** The bare id depends on the parent's id being the string [root], not on
    the depth: below a top-level folder that is itself named [root], the
    folder [x] of the path [root/x/a.txt] gets the id [x]. *)
Lemma flat_list_folder_below_a_folder_named_root :
  map (fun n => (id n, name n, parentId n))
      (forestNodes (processInputFiles_rootChildren
                      [mkInputFile "a.txt" "root/x/a.txt" (Resolved "A") "blob:1"]))
  = [("root", "root", Some "root"); ("x", "x", Some "root");
     ("x_a.txt", "a.txt", Some "x")].
Proof. vm_compute. reflexivity. Qed.

(** ** Tree mutations, in general *)

(** [removeNodeFromTree] as the source writes it: filter, then map over
    what is left, descending into the children. *)
Lemma removeNodeFromTree_filter_map (nodeId : string) (node : FileSystemNode) :
  removeNodeFromTree_visit nodeId node
  = match children node with
    | Some cs => with_children node (removeNodeFromTree cs nodeId)
    | None => node
    end.
Proof.
  destruct node as [i nm t c lg cs o p h]. simpl.
  destruct cs as [cs|]; [|reflexivity].
  unfold with_children. simpl. do 2 f_equal. unfold removeNodeFromTree.
  induction cs as [|x r IH]; simpl; [reflexivity|].
  destruct (negb (id x =? nodeId)); simpl; now rewrite IH.
Qed.

Lemma findNode_visit_id (i : string) (node found : FileSystemNode) :
  findNode_visit i node = Some found -> id found = i.
Proof.
  revert found. induction node as [node IH] using FileSystemNode_deep_ind.
  intros found. destruct node as [j nm t c lg cs o p h]. simpl in *.
  destruct (String.eqb_spec j i) as [->|_].
  - intros [= <-]. reflexivity.
  - destruct cs as [cs|]; [|discriminate].
    unfold children_or_nil in IH. simpl in IH.
    induction IH as [|x r Hx _ IHr]; simpl; [discriminate|].
    destruct (findNode_visit i x) as [f|] eqn:E.
    + intros [= <-]. now apply Hx.
    + exact IHr.
Qed.

(** What [findNode] returns carries the id that was asked for. *)
Lemma findNode_id (nodes : list FileSystemNode) (i : string) (found : FileSystemNode) :
  findNode nodes i = Some found -> id found = i.
Proof.
  unfold findNode. induction nodes as [|x r IH]; simpl; [discriminate|].
  destruct (findNode_visit i x) as [f|] eqn:E.
  - intros [= <-]. now apply findNode_visit_id in E.
  - exact IH.
Qed.

(** After [removeNodeFromTree], the removed id no longer resolves. *)
Lemma findNode_removeNodeFromTree (nodes : list FileSystemNode) (i : string) :
  findNode (removeNodeFromTree nodes i) i = None.
Proof.
  assert (Hvisit : forall node, (id node =? i) = false ->
                     findNode_visit i (removeNodeFromTree_visit i node) = None).
  { induction node as [node IH] using FileSystemNode_deep_ind. intros Hid.
    rewrite removeNodeFromTree_filter_map.
    destruct node as [j nm t c lg cs o p h]. simpl in *.
    destruct cs as [cs|]; simpl; rewrite Hid; [|reflexivity].
    unfold children_or_nil in IH. simpl in IH. unfold removeNodeFromTree.
    induction IH as [|x r Hx _ IHr]; simpl; [reflexivity|].
    destruct (id x =? i) eqn:E; simpl; [exact IHr|].
    now rewrite (Hx eq_refl). }
  unfold findNode, removeNodeFromTree.
  induction nodes as [|x r IH]; simpl; [reflexivity|].
  destruct (id x =? i) eqn:E; simpl; [exact IH|].
  now rewrite (Hvisit x E).
Qed.

(** [addNodeToTree] changes what [findNode] returns for the parent id by
    appending the new node to its children and opening it. *)
Lemma findNode_addNodeToTree (nodes : list FileSystemNode) (parent : string)
    (newNode : FileSystemNode) :
  findNode (addNodeToTree nodes parent newNode) parent
  = option_map (fun d => with_children_open d (children_or_nil d ++ [newNode]))
               (findNode nodes parent).
Proof.
  assert (Hvisit : forall node,
             findNode_visit parent (addNodeToTree_visit parent newNode node)
             = option_map (fun d => with_children_open d (children_or_nil d ++ [newNode]))
                          (findNode_visit parent node)).
  { induction node as [node IH] using FileSystemNode_deep_ind.
    destruct node as [j nm t c lg cs o p h]. simpl in *.
    destruct cs as [cs|]; destruct (j =? parent) eqn:E; simpl; rewrite ?E;
      try reflexivity.
    unfold children_or_nil in IH. simpl in IH.
    induction IH as [|x r Hx _ IHr]; simpl; [reflexivity|].
    rewrite Hx. destruct (findNode_visit parent x); simpl; [reflexivity | exact IHr]. }
  unfold findNode, addNodeToTree.
  induction nodes as [|x r IH]; simpl; [reflexivity|].
  rewrite Hvisit. destruct (findNode_visit parent x); simpl; [reflexivity | exact IH].
Qed.

(** In every virtual directory, [mkdir x] run twice leaves two children
    with one and the same id at the end of the children list. *)
Lemma mkdir_twice_in_any_virtual_directory
    (host : Host) (st : AppState) (cmd x : string) (dir : FileSystemNode) :
  parseCommand cmd = ("mkdir", Some x) ->
  JS.truthy (Some x) = true ->
  currentDir st = Some dir ->
  handle dir = None ->
  exists dir',
    currentDir (snd (runCommands host st [cmd; cmd])) = Some dir'
    /\ children_or_nil dir'
       = (children_or_nil dir ++ [newFolderNode dir x None; newFolderNode dir x None])%list.
Proof.
  intros Hparse Htruthy Hdir Hh.
  assert (Hid : exists i, JS.pop (termPath st) = Some i /\ id dir = i
                          /\ findNode (fileSystem st) i = Some dir).
  { unfold currentDir in Hdir. destruct (JS.pop (termPath st)) as [i|]; [|discriminate].
    exists i. repeat split; [|assumption]. now apply findNode_id in Hdir. }
  destruct Hid as (i & Hpop & Hi & Hfind).
  set (n := newFolderNode dir x None).
  set (dir1 := with_children_open dir (children_or_nil dir ++ [n])%list).
  set (st1 := mkState (addNodeToTree (fileSystem st) (id dir) n) (openTabs st) (termPath st)).
  assert (Hrun1 : runCommand host st cmd
                  = ("Virtual directory '" ++ x ++ "' created.", st1)).
  { dispatch Hparse Hdir. unfold cmd_mkdir.
    rewrite Htruthy. cbv beta iota delta [negb]. now rewrite Hh. }
  assert (Hfind1 : findNode (fileSystem st1) i = Some dir1).
  { unfold st1. cbn [fileSystem]. rewrite Hi, findNode_addNodeToTree, Hfind. reflexivity. }
  assert (Hdir1 : currentDir st1 = Some dir1).
  { unfold currentDir. change (termPath st1) with (termPath st). now rewrite Hpop. }
  set (st2 := mkState (addNodeToTree (fileSystem st1) (id dir1) (newFolderNode dir1 x None))
                      (openTabs st1) (termPath st1)).
  assert (Hrun2 : runCommand host st1 cmd
                  = ("Virtual directory '" ++ x ++ "' created.", st2)).
  { dispatch Hparse Hdir1. unfold cmd_mkdir.
    rewrite Htruthy. cbv beta iota delta [negb].
    change (handle dir1) with (handle dir). now rewrite Hh. }
  exists (with_children_open dir1 (children_or_nil dir1 ++ [newFolderNode dir1 x None])%list).
  split.
  - unfold runCommands. rewrite Hrun1, Hrun2. cbn [snd].
    unfold currentDir, st2. cbn [termPath fileSystem].
    change (termPath st1) with (termPath st). change (id dir1) with (id dir).
    rewrite Hpop, Hi, findNode_addNodeToTree, Hfind1. reflexivity.
  - unfold children_or_nil, dir1, with_children_open. cbn [children].
    rewrite <- app_assoc. reflexivity.
Qed.


(** ** rm: what a successful removal changes *)

(** A successful [rm] (virtual directory, or the host agreed) removes the
    target's id from the tree and drops the tab with exactly that id; all
    other tabs stay. *)
Lemma rm_success_state
    (host : Host) (st : AppState) (cmd nm : string) (dir target : FileSystemNode) :
  parseCommand cmd = ("rm", Some nm) ->
  JS.truthy (Some nm) = true ->
  currentDir st = Some dir ->
  JS.find (fun c => name c =? nm) (children_or_nil dir) = Some target ->
  (forall h, handle dir = Some h -> removeEntry host h nm = Resolved tt) ->
  runCommand host st cmd
  = ("", mkState (removeNodeFromTree (fileSystem st) (id target))
                 (filter (fun t => negb (tab_id t =? id target)) (openTabs st))
                 (termPath st)).
Proof.
  intros Hparse Htruthy Hdir Hfind Hhost.
  dispatch Hparse Hdir. unfold cmd_rm.
  rewrite Htruthy. cbv beta iota delta [negb].
  rewrite Hfind. destruct (handle dir) as [h|]; [rewrite (Hhost h eq_refl)|]; reflexivity.
Qed.

(** ** The order native enumeration stores *)

Section NativeOrder.
Variable localeCompare : string -> string -> Z.
Hypothesis localeCompare_total :
  forall a b, (localeCompare a b <= 0)%Z \/ (localeCompare b a <= 0)%Z.
Hypothesis localeCompare_trans :
  forall a b c, (localeCompare a b <= 0)%Z -> (localeCompare b c <= 0)%Z ->
                (localeCompare a c <= 0)%Z.

Lemma listedBefore_spec (a b : FileSystemNode) :
  listedBefore localeCompare a b <->
  (type a = FOLDER /\ type b = FILE)
  \/ (type a = type b /\ (localeCompare (name a) (name b) <= 0)%Z).
Proof.
  unfold listedBefore, compareNodes.
  destruct (type a), (type b); simpl; split; intros H;
    try (right; split; [reflexivity | exact H]);
    try (left; split; reflexivity);
    try lia;
    destruct H as [[? ?]|[? ?]]; congruence || assumption.
Qed.

Lemma listedBefore_total (a b : FileSystemNode) :
  listedBefore localeCompare a b \/ listedBefore localeCompare b a.
Proof.
  rewrite !listedBefore_spec.
  destruct (type a) eqn:Ta, (type b) eqn:Tb;
    try (destruct (localeCompare_total (name a) (name b)); [left | right]; right;
         split; first [reflexivity | assumption]).
  - right. left. split; reflexivity.
  - left. left. split; reflexivity.
Qed.

Lemma listedBefore_trans (a b c : FileSystemNode) :
  listedBefore localeCompare a b -> listedBefore localeCompare b c ->
  listedBefore localeCompare a c.
Proof.
  rewrite !listedBefore_spec.
  intros [[Ha Hb]|[Hab Lab]] [[Hb' Hc]|[Hbc Lbc]]; try congruence.
  - left. split; [assumption | congruence].
  - left. split; congruence.
  - right. split; [congruence | eapply localeCompare_trans; eassumption].
Qed.

Lemma insertSorted_HdRel (a x : FileSystemNode) (l : list FileSystemNode) :
  listedBefore localeCompare a x -> HdRel (listedBefore localeCompare) a l ->
  HdRel (listedBefore localeCompare) a (insertSorted localeCompare x l).
Proof.
  intros Hax Hl. destruct l as [|y r]; simpl; [now constructor|].
  destruct (compareNodes localeCompare y x <=? 0)%Z; constructor;
    [now apply HdRel_inv in Hl | assumption].
Qed.

Lemma insertSorted_Sorted (x : FileSystemNode) (l : list FileSystemNode) :
  Sorted (listedBefore localeCompare) l ->
  Sorted (listedBefore localeCompare) (insertSorted localeCompare x l).
Proof.
  induction l as [|y r IH]; simpl; intros Hl; [repeat constructor|].
  apply Sorted_inv in Hl as [Hr Hy].
  destruct (compareNodes localeCompare y x <=? 0)%Z eqn:E.
  - constructor; [now apply IH|].
    apply insertSorted_HdRel; [|assumption]. now apply Z.leb_le in E.
  - constructor; [now constructor|]. constructor.
    destruct (listedBefore_total x y) as [H|H]; [assumption|].
    unfold listedBefore in H. apply Z.leb_le in H. congruence.
Qed.

Lemma insertSorted_Permutation (x : FileSystemNode) (l : list FileSystemNode) :
  Permutation (x :: l) (insertSorted localeCompare x l).
Proof.
  induction l as [|y r IH]; simpl; [reflexivity|].
  destruct (compareNodes localeCompare y x <=? 0)%Z; [|reflexivity].
  rewrite perm_swap. now constructor.
Qed.

(** [nodes.sort(...)] returns the same nodes, folders first and, within a
    kind, in ascending [localeCompare] order of the names. *)
Lemma sortNodes_sorted (l : list FileSystemNode) :
  StronglySorted (listedBefore localeCompare) (sortNodes localeCompare l)
  /\ Permutation l (sortNodes localeCompare l).
Proof.
  unfold sortNodes.
  assert (H : forall acc, Sorted (listedBefore localeCompare) acc ->
              Sorted (listedBefore localeCompare)
                     (fold_left (fun acc x => insertSorted localeCompare x acc) l acc)
              /\ Permutation (l ++ acc)
                    (fold_left (fun acc x => insertSorted localeCompare x acc) l acc)).
  { induction l as [|x r IH]; simpl; intros acc Hacc; [split; [assumption | reflexivity]|].
    destruct (IH (insertSorted localeCompare x acc)) as [Hs Hp];
      [now apply insertSorted_Sorted|].
    split; [assumption|]. rewrite <- Hp.
    rewrite <- (insertSorted_Permutation x acc). apply Permutation_middle. }
  destruct (H [] (Sorted_nil _)) as [Hs Hp]. rewrite app_nil_r in Hp.
  split; [|assumption].
  apply Sorted_StronglySorted; [|assumption].
  intros a b c. apply listedBefore_trans.
Qed.

(** Every level of the forest built by native enumeration is stored in
    that order. *)
Lemma processDirectoryHandle_sorted (dirHandle : DirEntry) :
  forall parent,
    StronglySorted (listedBefore localeCompare)
                   (processDirectoryHandle localeCompare dirHandle parent)
    /\ Forall (fun n => StronglySorted (listedBefore localeCompare) (children_or_nil n))
              (forestNodes (processDirectoryHandle localeCompare dirHandle parent)).
Proof.
  induction dirHandle as [nm h | nm h values throws IH] using DirEntry_deep_ind;
    intros parent; simpl; [split; constructor|].
  destruct throws; [split; constructor|].
  split; [apply sortNodes_sorted|].
  unfold forestNodes. apply Forall_flat_map. apply sortNodes_Forall.
  apply Forall_map.
  induction IH as [|entry r Hentry _ IHr]; constructor; [|exact IHr].
  destruct entry as [enm eh | enm eh evalues ethrows]; simpl.
  - repeat constructor.
  - destruct (Hentry (Some (entryId parent enm))) as [Htop Hdeep].
    constructor; [exact Htop|]. exact Hdeep.
Qed.

End NativeOrder.

(** ** ls: the stored order of the children *)

Lemma ls_in_directory (host : Host) (st : AppState) (dir : FileSystemNode) :
  currentDir st = Some dir ->
  runCommand host st "ls" = (cmd_ls (Some dir), st).
Proof.
  intros Hdir. unfold runCommand, handleTerminalCommand.
  change (parseCommand "ls") with ("ls", @None string).
  rewrite Hdir. reflexivity.
Qed.

(** C3, as the code has it.  [ls] renders the children of the current
    directory in the order in which they are stored, a FOLDER as [[name]]
    and a FILE as [name], joined by two spaces.  Hence a FOLDER [b] stored
    before a FILE [a] gives ["[b]  a"], and the FILE stored first gives
    ["a  [b]"].  Right after a native folder has been opened, the children
    of the root are the list that [processDirectoryHandle] built, [ls]
    renders that list, and it is in order: folders before files and, within
    a kind, names ascending, for any consistent [localeCompare]. *)
Theorem ls_lists_children_in_stored_order
    (host : Host) (st : AppState) (dir : FileSystemNode) (cs : list FileSystemNode) :
  currentDir st = Some dir ->
  children dir = Some cs ->
  runCommand host st "ls" = (JS.join "  " (map lsEntry cs), st)
  /\ (forall b a, type b = FOLDER -> name b = "b" -> type a = FILE -> name a = "a" ->
        (cs = [b; a] -> fst (runCommand host st "ls") = "[b]  a")
        /\ (cs = [a; b] -> fst (runCommand host st "ls") = "a  [b]"))
  /\ (forall localeCompare dirHandle,
        (forall x y, (localeCompare x y <= 0)%Z \/ (localeCompare y x <= 0)%Z) ->
        (forall x y z, (localeCompare x y <= 0)%Z -> (localeCompare y z <= 0)%Z ->
                       (localeCompare x z <= 0)%Z) ->
        exists root stored,
          currentDir (openRealFolder_state localeCompare dirHandle) = Some root
          /\ children root = Some stored
          /\ stored = processDirectoryHandle localeCompare dirHandle (Some "root")
          /\ runCommand host (openRealFolder_state localeCompare dirHandle) "ls"
             = (JS.join "  " (map lsEntry stored),
                openRealFolder_state localeCompare dirHandle)
          /\ StronglySorted (listedBefore localeCompare) stored
          /\ (forall a b,
                listedBefore localeCompare a b <->
                (type a = FOLDER /\ type b = FILE)
                \/ (type a = type b /\ (localeCompare (name a) (name b) <= 0)%Z))).
Proof.
  intros Hdir Hcs.
  assert (Hls : runCommand host st "ls" = (JS.join "  " (map lsEntry cs), st)).
  { rewrite (ls_in_directory host st dir Hdir). unfold cmd_ls. now rewrite Hcs. }
  split; [exact Hls|]. split.
  - intros b a Hb Hnb Ha Hna. rewrite Hls.
    split; intros ->; simpl; unfold lsEntry; rewrite Hb, Hnb, Ha, Hna; reflexivity.
  - intros localeCompare dirHandle Htotal Htrans.
    exists (mkNode "root" (entry_name dirHandle) FOLDER None None
              (Some (processDirectoryHandle localeCompare dirHandle (Some "root")))
              (Some true) None (Some (entry_handle dirHandle))).
    exists (processDirectoryHandle localeCompare dirHandle (Some "root")).
    split; [reflexivity|]. split; [reflexivity|]. split; [reflexivity|]. split; [|split].
    + rewrite (ls_in_directory host _
                 (mkNode "root" (entry_name dirHandle) FOLDER None None
                    (Some (processDirectoryHandle localeCompare dirHandle (Some "root")))
                    (Some true) None (Some (entry_handle dirHandle))));
        reflexivity.
    + now apply processDirectoryHandle_sorted.
    + intros a b. apply listedBefore_spec.
Qed.

Lemma ls_lists_children_in_stored_order_witness :
  runCommand (failingHost "E") (projectWith None [folder_b; file_a]) "ls"
  = ("[b]  a", projectWith None [folder_b; file_a]).
Proof.
  refine (proj1 (ls_lists_children_in_stored_order (failingHost "E")
                   (projectWith None [folder_b; file_a])
                   (mkNode "root" "Project" FOLDER None None (Some [folder_b; file_a])
                           (Some true) None None)
                   [folder_b; file_a] _ _)); reflexivity.
Defined.

(** C3, as the spec words it, fails: after [touch a] and then [mkdir b] the
    directory holds the FILE [a] and the FOLDER [b], and [ls] answers
    ["a  [b]"], not ["[b]  a"]. *)
Lemma ls_order_depends_on_insertion_order :
  let st := snd (runCommands (failingHost "E") emptyVirtualProject ["touch a"; "mkdir b"]) in
  option_map (fun d => map (fun c => (name c, type c)) (children_or_nil d)) (currentDir st)
    = Some [("a", FILE); ("b", FOLDER)]
  /\ fst (runCommand (failingHost "E") st "ls") = "a  [b]"
  /\ fst (runCommand (failingHost "E") st "ls") <> "[b]  a".
Proof.
  vm_compute. repeat split. discriminate.
Qed.

(** * Further properties of the terminal *)

Lemma handleTerminalCommand_updates (host : Host) (st : AppState) (cmd : string) :
  handlerUpdates st (fst (parseCommand cmd)) (snd (handleTerminalCommand host st cmd)).
Proof.
  unfold handleTerminalCommand.
  destruct (parseCommand cmd) as [command arg]. cbn [fst].
  destruct (currentDir st) as [dir|].
  2: { destruct (command =? "ls"); constructor. }
  destruct (command =? "ls"); [constructor|].
  destruct (command =? "pwd"); [constructor|].
  destruct (String.eqb_spec command "cd") as [->|_].
  { unfold cmd_cd. destruct arg as [a|]; [|constructor].
    destruct (a =? ""); [constructor|].
    destruct (a =? "..").
    - destruct (Nat.ltb_spec 1 (List.length (termPath st))); constructor; auto.
    - destruct (JS.find _ _); constructor; auto. }
  destruct (String.eqb_spec command "mkdir") as [->|_].
  { unfold cmd_mkdir. destruct (negb _); [constructor|].
    destruct (handle dir); [destruct (getDirectoryHandle _ _ _)|]; constructor; auto. }
  destruct (String.eqb_spec command "touch") as [->|_].
  { cbn [orb]. unfold cmd_touch. destruct (negb _); [constructor|].
    destruct (handle dir); [destruct (getFileHandle _ _ _)|]; constructor; auto. }
  destruct (String.eqb_spec command "code") as [->|_].
  { cbn [orb]. unfold cmd_touch. destruct (negb _); [constructor|].
    destruct (handle dir); [destruct (getFileHandle _ _ _)|]; constructor; auto. }
  cbn [orb].
  destruct (String.eqb_spec command "rm") as [->|_].
  { unfold cmd_rm. destruct (negb _); [constructor|].
    destruct (JS.find _ _); [|constructor].
    destruct (handle dir); [destruct (removeEntry _ _ _)|]; constructor; auto. }
  destruct (command =? "cat"); [constructor|].
  destruct (command =? "clear"); [constructor|].
  destruct (command =? "npm"); [destruct arg as [a|]; [destruct (_ || _)|]; constructor|].
  destruct (command =? "echo"); constructor.
Qed.

(** X1.  Each command touches only its own part of the state: the tree
    changes under [mkdir], [touch], [code] and [rm] only, the open tabs
    under [rm] only, and the directory stack under [cd] only. *)
Theorem commands_change_only_their_own_state (host : Host) (st : AppState) (cmd : string) :
  (fst (parseCommand cmd) <> "mkdir" /\ fst (parseCommand cmd) <> "touch"
   /\ fst (parseCommand cmd) <> "code" /\ fst (parseCommand cmd) <> "rm" ->
   fileSystem (snd (runCommand host st cmd)) = fileSystem st)
  /\ (fst (parseCommand cmd) <> "rm" ->
      openTabs (snd (runCommand host st cmd)) = openTabs st)
  /\ (fst (parseCommand cmd) <> "cd" ->
      termPath (snd (runCommand host st cmd)) = termPath st).
Proof.
  pose proof (handleTerminalCommand_updates host st cmd) as H.
  unfold runCommand. destruct (handleTerminalCommand host st cmd) as [out us].
  cbn [snd] in *.
  repeat split; intros Hc; inversion H; subst; cbn; try reflexivity;
    try congruence; intuition congruence.
Qed.

(** X2.  Whatever commands are run, the directory stack never becomes
    empty and its first entry stays the same. *)
Theorem termPath_keeps_its_root (host : Host) (cmds : list string) (st : AppState) :
  termPath st <> [] ->
  termPath (snd (runCommands host st cmds)) <> []
  /\ hd_error (termPath (snd (runCommands host st cmds))) = hd_error (termPath st).
Proof.
  revert st. induction cmds as [|c r IH]; intros st Hne; simpl; [now split|].
  assert (Hstep : termPath (snd (runCommand host st c)) <> []
                  /\ hd_error (termPath (snd (runCommand host st c)))
                     = hd_error (termPath st)).
  { pose proof (handleTerminalCommand_updates host st c) as H.
    unfold runCommand. destruct (handleTerminalCommand host st c) as [out us].
    cbn [snd] in *. inversion H as [| _ Hlen | | |]; subst; cbn; try now split.
    - unfold JS.slice_init. destruct (termPath st) as [|x [|y t]]; simpl in *;
        try lia. split; [discriminate | reflexivity].
    - destruct (termPath st); [congruence|]. simpl. split; [discriminate | reflexivity]. }
  destruct (runCommand host st c) as [out st1]. cbn [snd] in Hstep.
  destruct Hstep as [Hne1 Hhd1].
  specialize (IH st1 Hne1). destruct (runCommands host st1 r) as [outs st2].
  cbn [snd] in *. destruct IH as [IH1 IH2]. split; [assumption | congruence].
Qed.

Lemma termPath_keeps_its_root_witness :
  hd_error (termPath (snd (runCommands (failingHost "E") emptyVirtualProject
                             ["mkdir src"; "cd src"; "cd .."; "cd .."; "rm src"])))
  = Some "root".
Proof.
  refine (proj2 (termPath_keeps_its_root (failingHost "E")
                   ["mkdir src"; "cd src"; "cd .."; "cd .."; "rm src"]
                   emptyVirtualProject _)).
  discriminate.
Defined.

(** X3.  When the current directory no longer resolves, [ls] answers with
    the empty string, every other command with [Error: Current directory
    lost.], and nothing is changed. *)
Theorem lost_directory_is_reported (host : Host) (st : AppState) (cmd : string) :
  currentDir st = None ->
  runCommand host st cmd
  = (if fst (parseCommand cmd) =? "ls" then "" else "Error: Current directory lost.", st).
Proof.
  intros Hlost. unfold runCommand, handleTerminalCommand.
  destruct (parseCommand cmd) as [command arg]. rewrite Hlost. cbn [fst].
  destruct (command =? "ls"); reflexivity.
Qed.

Lemma lost_directory_is_reported_witness :
  runCommand (failingHost "E") initialState "mkdir x"
  = ("Error: Current directory lost.", initialState).
Proof.
  apply (lost_directory_is_reported (failingHost "E") initialState "mkdir x").
  reflexivity.
Defined.

(** ** Facts about forests *)

Lemma forestNodes_top (nodes : list FileSystemNode) (n : FileSystemNode) :
  In n nodes -> In n (forestNodes nodes).
Proof.
  intros H. unfold forestNodes. apply in_flat_map. exists n. split; [assumption|].
  rewrite allNodes_unfold. now left.
Qed.

(** A forest holds the children of each of its nodes. *)
Lemma forestNodes_children (nodes : list FileSystemNode) (d c : FileSystemNode) :
  In d (forestNodes nodes) -> In c (children_or_nil d) -> In c (forestNodes nodes).
Proof.
  assert (Hnode : forall n, In d (allNodes n) -> In c (children_or_nil d) ->
                            In c (allNodes n)).
  { induction n as [n IH] using FileSystemNode_deep_ind. intros Hd Hc.
    rewrite allNodes_unfold in *. destruct Hd as [<-|Hd].
    - right. now apply forestNodes_top.
    - right. unfold forestNodes in *. apply in_flat_map in Hd as (m & Hm & Hd).
      apply in_flat_map. exists m. split; [assumption|].
      rewrite Forall_forall in IH. now apply IH. }
  intros Hd Hc. unfold forestNodes in *. apply in_flat_map in Hd as (m & Hm & Hd).
  apply in_flat_map. exists m. split; [assumption | now apply Hnode].
Qed.

Lemma forOf_some {A B : Type} (f : A -> option B) (l : list A) (y : B) :
  JS.forOf f l = Some y -> exists x, In x l /\ f x = Some y.
Proof.
  induction l as [|x r IH]; simpl; [discriminate|].
  destruct (f x) as [z|] eqn:E.
  - intros [= <-]. exists x. auto.
  - intros H. destruct (IH H) as (x' & Hin & Hx'). exists x'. auto.
Qed.

Lemma forOf_none {A B : Type} (f : A -> option B) (l : list A) :
  JS.forOf f l = None <-> forall x, In x l -> f x = None.
Proof.
  induction l as [|x r IH]; simpl.
  - split; [intros _ x [] | reflexivity].
  - destruct (f x) as [z|] eqn:E.
    + split; [discriminate|]. intros H. rewrite <- E. apply H. now left.
    + rewrite IH. split.
      * intros H y [<-|Hy]; auto.
      * intros H y Hy. apply H. now right.
Qed.

Lemma findNode_visit_unfold (i : string) (node : FileSystemNode) :
  findNode_visit i node
  = if id node =? i then Some node
    else JS.forOf (findNode_visit i) (children_or_nil node).
Proof.
  destruct node as [j nm t c lg cs o p h]. unfold children_or_nil. simpl.
  destruct cs; reflexivity.
Qed.

Lemma findNode_visit_in (i : string) (node found : FileSystemNode) :
  findNode_visit i node = Some found -> In found (allNodes node).
Proof.
  revert found. induction node as [node IH] using FileSystemNode_deep_ind.
  intros found. rewrite allNodes_unfold, findNode_visit_unfold.
  destruct (id node =? i).
  - intros [= <-]. now left.
  - intros H. right. apply forOf_some in H as (x & Hin & Hx).
    unfold forestNodes. apply in_flat_map. exists x. split; [assumption|].
    rewrite Forall_forall in IH. now apply IH.
Qed.

Lemma findNode_in (nodes : list FileSystemNode) (i : string) (found : FileSystemNode) :
  findNode nodes i = Some found -> In found (forestNodes nodes).
Proof.
  unfold findNode. intros H. apply forOf_some in H as (x & Hin & Hx).
  unfold forestNodes. apply in_flat_map. exists x. split; [assumption|].
  now apply findNode_visit_in in Hx.
Qed.

Lemma in_ids_forest (i : string) (nodes : list FileSystemNode) :
  In i (ids nodes) <-> exists x, In x nodes /\ In i (map id (allNodes x)).
Proof.
  unfold ids, forestNodes. rewrite in_map_iff. split.
  - intros (n & <- & Hn). apply in_flat_map in Hn as (x & Hx & Hn).
    exists x. split; [assumption | now apply in_map].
  - intros (x & Hx & Hi). apply in_map_iff in Hi as (n & <- & Hn).
    exists n. split; [reflexivity|]. apply in_flat_map. now exists x.
Qed.

Lemma findNode_visit_none (i : string) (node : FileSystemNode) :
  findNode_visit i node = None <-> ~ In i (map id (allNodes node)).
Proof.
  induction node as [node IH] using FileSystemNode_deep_ind.
  rewrite Forall_forall in IH.
  rewrite allNodes_unfold, findNode_visit_unfold. simpl.
  fold (ids (children_or_nil node)). rewrite in_ids_forest.
  destruct (String.eqb_spec (id node) i) as [Heq|Hne].
  - split; [discriminate | intros H; exfalso; apply H; now left].
  - rewrite forOf_none. split.
    + intros H [?|(x & Hx & Hi)]; [congruence|].
      apply (proj1 (IH x Hx)); auto.
    + intros H x Hx. apply IH; [assumption|]. intros Hi. apply H. right. now exists x.
Qed.

(** [findNode] fails exactly on the ids that occur nowhere in the forest. *)
Lemma findNode_none (nodes : list FileSystemNode) (i : string) :
  findNode nodes i = None <-> ~ In i (ids nodes).
Proof.
  unfold findNode. rewrite forOf_none, in_ids_forest. split.
  - intros H (x & Hx & Hi). apply (proj1 (findNode_visit_none i x)); auto.
  - intros H x Hx. apply findNode_visit_none. intros Hi. apply H. now exists x.
Qed.

Lemma findNode_of_member (nodes : list FileSystemNode) (n : FileSystemNode) :
  In n (forestNodes nodes) -> exists found, findNode nodes (id n) = Some found.
Proof.
  intros Hin. destruct (findNode nodes (id n)) as [f|] eqn:E; [now exists f|].
  apply findNode_none in E. exfalso. apply E. unfold ids. now apply in_map.
Qed.

Lemma find_some_in {A : Type} (p : A -> bool) (l : list A) (x : A) :
  JS.find p l = Some x -> In x l /\ p x = true.
Proof. unfold JS.find. apply find_some. Qed.

(** ** cd *)

Lemma truthy_eqb_empty (a : string) : JS.truthy (Some a) = true -> (a =? "") = false.
Proof. unfold JS.truthy. now rewrite negb_true_iff. Qed.

Lemma currentDir_pop (st : AppState) (dir : FileSystemNode) :
  currentDir st = Some dir ->
  exists i, JS.pop (termPath st) = Some i /\ findNode (fileSystem st) i = Some dir.
Proof.
  unfold currentDir. destruct (JS.pop (termPath st)) as [i|]; [|discriminate].
  intros H. now exists i.
Qed.

Lemma pop_snoc {A : Type} (l : list A) (x : A) : JS.pop (l ++ [x]) = Some x.
Proof.
  induction l as [|y r IH]; [reflexivity|].
  simpl. destruct (r ++ [x])%list eqn:E; [now destruct r | exact IH].
Qed.

Lemma pop_nonempty {A : Type} (l : list A) (x : A) : JS.pop l = Some x -> l <> [].
Proof. destruct l; [discriminate | discriminate]. Qed.

(** X4.  A [cd] that cannot be carried out changes nothing: [cd ..] with
    at most one entry on the stack answers [Already at root], and [cd a]
    without a FOLDER child named [a] answers [cd: no such file or
    directory: a]. *)
Theorem cd_failure_changes_nothing
    (host : Host) (st : AppState) (cmd a : string) (dir : FileSystemNode) :
  parseCommand cmd = ("cd", Some a) ->
  JS.truthy (Some a) = true ->
  currentDir st = Some dir ->
  (a = ".." -> (List.length (termPath st) <= 1)%nat ->
   runCommand host st cmd = ("Already at root", st))
  /\ (a <> ".." ->
      (forall c, In c (children_or_nil dir) -> name c = a -> type c <> FOLDER) ->
      runCommand host st cmd = ("cd: no such file or directory: " ++ a, st)).
Proof.
  intros Hparse Htruthy Hdir. apply truthy_eqb_empty in Htruthy. split.
  - intros -> Hlen. dispatch Hparse Hdir. unfold cmd_cd.
    change (".." =? "") with false. change (".." =? "..") with true. cbv beta iota.
    destruct (Nat.ltb_spec 1 (List.length (termPath st))); [lia | reflexivity].
  - intros Hne Hnone. dispatch Hparse Hdir. unfold cmd_cd. rewrite Htruthy.
    apply String.eqb_neq in Hne. rewrite Hne.
    rewrite find_none_of_forall; [reflexivity|].
    intros c Hin. destruct (String.eqb_spec (name c) a) as [Heq|_]; [|reflexivity].
    specialize (Hnone c Hin Heq). destruct (type c); [reflexivity | congruence].
Qed.

Lemma cd_failure_changes_nothing_witness :
  runCommand (failingHost "E") emptyVirtualProject "cd .."
  = ("Already at root", emptyVirtualProject).
Proof.
  refine (proj1 (cd_failure_changes_nothing (failingHost "E") emptyVirtualProject
                   "cd .." ".."
                   (mkNode "root" "Project" FOLDER None None (Some []) (Some true)
                           None None) _ _ _) _ _);
    [reflexivity | reflexivity | reflexivity | reflexivity | simpl; lia].
Defined.

(** X5.  Entering a FOLDER child and leaving it again restores the state:
    [cd a] pushes the child's id, and [cd ..] right after pops it; both
    answer with the empty string. *)
Theorem cd_then_cd_up_round_trip
    (host : Host) (st : AppState) (down up a : string) (dir target : FileSystemNode) :
  parseCommand down = ("cd", Some a) ->
  parseCommand up = ("cd", Some "..") ->
  JS.truthy (Some a) = true ->
  a <> ".." ->
  currentDir st = Some dir ->
  JS.find (fun c => (name c =? a) && FileType_eqb (type c) FOLDER) (children_or_nil dir)
    = Some target ->
  termPath (snd (runCommand host st down)) = (termPath st ++ [id target])%list
  /\ runCommands host st [down; up] = ([""; ""], st).
Proof.
  intros Hdown Hup Htruthy Hne Hdir Hfind.
  apply truthy_eqb_empty in Htruthy. apply String.eqb_neq in Hne.
  destruct (currentDir_pop st dir Hdir) as (i & Hpop & Hfound).
  set (st1 := mkState (fileSystem st) (openTabs st) (termPath st ++ [id target])%list).
  assert (Hrun1 : runCommand host st down = ("", st1)).
  { dispatch Hdown Hdir. unfold cmd_cd. rewrite Htruthy, Hne, Hfind. reflexivity. }
  split; [now rewrite Hrun1|].
  assert (Hdir1 : exists d1, currentDir st1 = Some d1).
  { unfold currentDir, st1. cbn [termPath fileSystem]. rewrite pop_snoc.
    apply findNode_of_member. apply find_some_in in Hfind as [Hin _].
    eapply forestNodes_children; [|exact Hin]. now apply findNode_in in Hfound. }
  destruct Hdir1 as (d1 & Hdir1).
  assert (Hrun2 : runCommand host st1 up = ("", st)).
  { dispatch Hup Hdir1. unfold cmd_cd.
    change (".." =? "") with false. change (".." =? "..") with true. cbv beta iota.
    unfold st1 at 1. cbn [termPath]. rewrite length_app. cbn [List.length].
    apply pop_nonempty in Hpop.
    destruct (Nat.ltb_spec 1 (List.length (termPath st) + 1)) as [_|Hlen].
    - unfold applyUpdates, st1. cbn. unfold JS.slice_init.
      rewrite removelast_last. now destruct st.
    - destruct (termPath st); [congruence | simpl in Hlen; lia]. }
  unfold runCommands. rewrite Hrun1, Hrun2. reflexivity.
Qed.

Lemma cd_then_cd_up_round_trip_witness :
  runCommands (failingHost "E") emptyDocsProject ["cd docs"; "cd .."]
  = ([""; ""], emptyDocsProject).
Proof.
  refine (proj2 (cd_then_cd_up_round_trip (failingHost "E") emptyDocsProject
                   "cd docs" "cd .." "docs"
                   (mkNode "root" "Project" FOLDER None None
                      (Some [folderNode "root_docs" "docs" (Some "root") None []])
                      (Some true) None None)
                   (folderNode "root_docs" "docs" (Some "root") None [])
                   _ _ _ _ _ _));
    [reflexivity | reflexivity | reflexivity | discriminate | reflexivity | reflexivity].
Defined.

(** ** echo *)

Lemma split_nonempty (sep : ascii) (s : string) : JS.split sep s <> [].
Proof.
  destruct s as [|c r]; simpl; [discriminate|].
  destruct (Ascii.eqb c sep); [discriminate|].
  destruct (JS.split sep r); discriminate.
Qed.

(** Joining what [split] produced gives the string back. *)
Lemma join_split (sep : ascii) (s : string) :
  JS.join (String sep "") (JS.split sep s) = s.
Proof.
  unfold JS.join. induction s as [|c r IH]; [reflexivity|]. simpl.
  pose proof (split_nonempty sep r) as Hne.
  destruct (Ascii.eqb_spec c sep) as [->|_].
  - destruct (JS.split sep r) as [|h t]; [congruence|].
    cbn [String.concat] in *. now rewrite IH.
  - destruct (JS.split sep r) as [|h t]; [congruence|].
    cbn [String.concat] in *. destruct t; simpl in *; now rewrite IH.
Qed.

Lemma trimEnd_append_stable (a b : string) :
  JS.trimEnd b = b -> b <> "" -> JS.trimEnd (a ++ b) = a ++ b.
Proof.
  intros Hb Hne. induction a as [|c a IH]; simpl; [assumption|].
  rewrite IH, eqb_empty_append by assumption. now rewrite andb_false_r.
Qed.

(** X6.  [echo] gives back the rest of the line exactly, inner spaces
    included, as long as the line does not end in white space. *)
Theorem echo_returns_the_rest_of_the_line
    (host : Host) (st : AppState) (rest : string) (dir : FileSystemNode) :
  JS.trimEnd rest = rest ->
  currentDir st = Some dir ->
  runCommand host st ("echo " ++ rest) = (rest, st).
Proof.
  intros Hrest Hdir.
  assert (Hparts : JS.split " " (JS.trim ("echo " ++ rest))
                   = "echo" :: match rest with
                               | EmptyString => []
                               | _ => JS.split " " rest
                               end).
  { unfold JS.trim. change (JS.trimStart ("echo " ++ rest)) with ("echo " ++ rest).
    destruct (String.eqb_spec rest "") as [->|Hne]; [reflexivity|].
    rewrite trimEnd_append_stable by assumption.
    change ("echo " ++ rest) with ("echo" ++ String " " rest).
    rewrite split_space_append by reflexivity. now destruct rest. }
  unfold runCommand, handleTerminalCommand, parseCommand.
  rewrite Hparts, Hdir. cbn.
  destruct rest as [|c r]; [reflexivity|].
  change (String.concat " " (JS.split " " (String c r)))
    with (JS.join " " (JS.split " " (String c r))).
  now rewrite join_split.
Qed.

Lemma echo_returns_the_rest_of_the_line_witness :
  runCommand (failingHost "E") emptyVirtualProject "echo  hello   wide world"
  = (" hello   wide world", emptyVirtualProject).
Proof.
  apply (echo_returns_the_rest_of_the_line (failingHost "E") emptyVirtualProject
           " hello   wide world"
           (mkNode "root" "Project" FOLDER None None (Some []) (Some true) None None));
    reflexivity.
Defined.

(** ** Adding and removing nodes *)

Lemma with_children_same (n : FileSystemNode) (cs : list FileSystemNode) :
  children n = Some cs -> with_children n cs = n.
Proof. destruct n. simpl. now intros ->. Qed.

Lemma map_fixed {A : Type} (f : A -> A) (l : list A) :
  (forall x, In x l -> f x = x) -> map f l = l.
Proof.
  induction l as [|x r IH]; simpl; intros H; [reflexivity|].
  rewrite H by now left. rewrite IH; [reflexivity|]. intros y Hy. apply H. now right.
Qed.

Lemma not_in_ids_node (i : string) (n : FileSystemNode) :
  ~ In i (map id (allNodes n)) ->
  id n <> i /\ forall c, In c (children_or_nil n) -> ~ In i (map id (allNodes c)).
Proof.
  rewrite allNodes_unfold. simpl. intros H. split; [tauto|].
  intros c Hc Hi. apply H. right. fold (ids (children_or_nil n)).
  apply in_ids_forest. now exists c.
Qed.

Lemma not_in_ids_forest (i : string) (nodes : list FileSystemNode) :
  ~ In i (ids nodes) -> forall x, In x nodes -> ~ In i (map id (allNodes x)).
Proof. intros H x Hx Hi. apply H. apply in_ids_forest. now exists x. Qed.

Lemma addNodeToTree_visit_unfold (parent : string) (newNode node : FileSystemNode) :
  addNodeToTree_visit parent newNode node
  = if id node =? parent
    then with_children_open node (children_or_nil node ++ [newNode])
    else match children node with
         | Some cs => with_children node (addNodeToTree cs parent newNode)
         | None => node
         end.
Proof. destruct node as [j nm t c lg cs o p h]. simpl. destruct cs; reflexivity. Qed.

Lemma allNodes_with_children (n : FileSystemNode) (cs : list FileSystemNode) :
  allNodes (with_children n cs) = with_children n cs :: forestNodes cs.
Proof. now rewrite allNodes_unfold. Qed.

Lemma allNodes_with_children_open (n : FileSystemNode) (cs : list FileSystemNode) :
  allNodes (with_children_open n cs) = with_children_open n cs :: forestNodes cs.
Proof. now rewrite allNodes_unfold. Qed.

Lemma children_or_nil_some (n : FileSystemNode) (cs : list FileSystemNode) :
  children n = Some cs -> children_or_nil n = cs.
Proof. unfold children_or_nil. now intros ->. Qed.

(** X7.  [addNodeToTree] with a parent id that occurs nowhere in the tree
    returns the tree unchanged: the new node is dropped silently. *)
Theorem addNodeToTree_unknown_parent
    (nodes : list FileSystemNode) (parent : string) (newNode : FileSystemNode) :
  ~ In parent (ids nodes) ->
  addNodeToTree nodes parent newNode = nodes.
Proof.
  assert (Hvisit : forall node, ~ In parent (map id (allNodes node)) ->
                                addNodeToTree_visit parent newNode node = node).
  { induction node as [node IH] using FileSystemNode_deep_ind.
    rewrite Forall_forall in IH. intros Hnot.
    apply not_in_ids_node in Hnot as [Hid Hcs].
    rewrite addNodeToTree_visit_unfold. apply String.eqb_neq in Hid. rewrite Hid.
    destruct (children node) as [cs|] eqn:E; [|reflexivity].
    rewrite (children_or_nil_some _ _ E) in *.
    unfold addNodeToTree. rewrite map_fixed; [now apply with_children_same|].
    intros x Hx. apply IH; auto. }
  intros Hnot. unfold addNodeToTree. apply map_fixed.
  intros x Hx. apply Hvisit. now apply (not_in_ids_forest parent nodes).
Qed.

Lemma addNodeToTree_unknown_parent_witness :
  addNodeToTree (fileSystem emptyDocsProject) "root_src" file_a
  = fileSystem emptyDocsProject.
Proof.
  apply (addNodeToTree_unknown_parent (fileSystem emptyDocsProject) "root_src" file_a).
  vm_compute. intuition discriminate.
Defined.

Lemma addNodeToTree_keeps_ids (nodes : list FileSystemNode) (parent : string)
    (newNode : FileSystemNode) (i : string) :
  In i (ids nodes) -> In i (ids (addNodeToTree nodes parent newNode)).
Proof.
  assert (Hvisit : forall node, In i (map id (allNodes node)) ->
             In i (map id (allNodes (addNodeToTree_visit parent newNode node)))).
  { induction node as [node IH] using FileSystemNode_deep_ind.
    rewrite Forall_forall in IH.
    rewrite addNodeToTree_visit_unfold, allNodes_unfold. simpl.
    fold (ids (children_or_nil node)). intros Hi.
    destruct (id node =? parent).
    - rewrite allNodes_with_children_open, forestNodes_app, map_cons, !map_app.
      destruct Hi as [Hi|Hi]; [now left | right; apply in_or_app; now left].
    - destruct (children node) as [cs|] eqn:E.
      + rewrite (children_or_nil_some _ _ E) in *.
        rewrite allNodes_with_children. simpl.
        destruct Hi as [Hi|Hi]; [now left | right].
        fold (ids (addNodeToTree cs parent newNode)).
        apply in_ids_forest in Hi as (x & Hx & Hi). apply in_ids_forest.
        exists (addNodeToTree_visit parent newNode x). split.
        * unfold addNodeToTree. now apply in_map.
        * now apply IH.
      + rewrite allNodes_unfold. simpl. exact Hi. }
  intros Hi. apply in_ids_forest in Hi as (x & Hx & Hi). apply in_ids_forest.
  exists (addNodeToTree_visit parent newNode x). split.
  - unfold addNodeToTree. now apply in_map.
  - now apply Hvisit.
Qed.

Lemma addNodeToTree_has_new_id (nodes : list FileSystemNode) (parent : string)
    (newNode dir : FileSystemNode) :
  findNode nodes parent = Some dir ->
  In newNode (forestNodes (addNodeToTree nodes parent newNode)).
Proof.
  intros Hfind. eapply forestNodes_children.
  - eapply findNode_in. rewrite findNode_addNodeToTree, Hfind. reflexivity.
  - unfold children_or_nil. cbn [with_children_open children].
    apply in_or_app. right. now left.
Qed.

(** X8.  [addNodeToTree] under a parent id that resolves: looking the
    parent up afterwards finds the same node (id, name, type, content,
    language, parent id and handle as before), now open and with the new
    node appended as its last child; every id that occurred before still
    occurs, and so does the new node's id. *)
Theorem addNodeToTree_then_lookup
    (nodes : list FileSystemNode) (parent : string) (newNode dir : FileSystemNode) :
  findNode nodes parent = Some dir ->
  findNode (addNodeToTree nodes parent newNode) parent
  = Some (mkNode (id dir) (name dir) (type dir) (content dir) (language dir)
                 (Some (children_or_nil dir ++ [newNode])%list) (Some true)
                 (parentId dir) (handle dir))
  /\ In (id newNode) (ids (addNodeToTree nodes parent newNode))
  /\ (forall i, In i (ids nodes) -> In i (ids (addNodeToTree nodes parent newNode))).
Proof.
  intros Hfind. repeat split.
  - now rewrite findNode_addNodeToTree, Hfind.
  - unfold ids. apply in_map. now apply (addNodeToTree_has_new_id nodes parent newNode dir).
  - intros i. apply addNodeToTree_keeps_ids.
Qed.

Lemma addNodeToTree_then_lookup_witness :
  findNode (addNodeToTree (fileSystem emptyDocsProject) "root_docs" file_a) "root_docs"
  = Some (mkNode "root_docs" "docs" FOLDER None None (Some [file_a]) (Some true)
                 (Some "root") None).
Proof.
  exact (proj1 (addNodeToTree_then_lookup (fileSystem emptyDocsProject) "root_docs" file_a
                  (folderNode "root_docs" "docs" (Some "root") None []) eq_refl)).
Defined.

Lemma find_app_right {A : Type} (p : A -> bool) (l : list A) (x : A) :
  p x = true -> exists y, JS.find p (l ++ [x]) = Some y.
Proof.
  intros Hx. unfold JS.find. induction l as [|z r IH]; simpl.
  - rewrite Hx. now exists x.
  - destruct (p z); [now exists z | exact IH].
Qed.

Lemma find_app_only_last {A : Type} (p : A -> bool) (l : list A) (x : A) :
  (forall y, In y l -> p y = false) -> p x = true -> JS.find p (l ++ [x]) = Some x.
Proof.
  intros Hl Hx. unfold JS.find. induction l as [|z r IH]; simpl.
  - now rewrite Hx.
  - rewrite (Hl z (or_introl eq_refl)). apply IH. intros y Hy. apply Hl. now right.
Qed.

(** The nodes of a tree after [addNodeToTree]: nodes whose id occurred
    before, and the nodes of the added subtree. *)
Lemma addNodeToTree_nodes (nodes : list FileSystemNode) (parent : string)
    (newNode m : FileSystemNode) :
  In m (forestNodes (addNodeToTree nodes parent newNode)) ->
  In (id m) (ids nodes) \/ In m (allNodes newNode).
Proof.
  assert (Hvisit : forall node,
             In m (allNodes (addNodeToTree_visit parent newNode node)) ->
             In (id m) (map id (allNodes node)) \/ In m (allNodes newNode)).
  { induction node as [node IH] using FileSystemNode_deep_ind.
    rewrite Forall_forall in IH.
    rewrite addNodeToTree_visit_unfold, (allNodes_unfold node). simpl.
    fold (ids (children_or_nil node)).
    destruct (id node =? parent).
    - rewrite allNodes_with_children_open, forestNodes_app, forestNodes_cons.
      rewrite <- allNodes_unfold. cbn [forestNodes flat_map]. rewrite app_nil_r.
      intros [<-|Hm]; [left; now left|].
      apply in_app_or in Hm as [Hm|Hm]; [|now right].
      left. right. unfold ids. now apply in_map.
    - destruct (children node) as [cs|] eqn:E.
      + rewrite (children_or_nil_some _ _ E) in *. rewrite allNodes_with_children.
        intros [<-|Hm]; [left; now left|].
        unfold forestNodes, addNodeToTree in Hm.
        apply in_flat_map in Hm as (y & Hy & Hm).
        apply in_map_iff in Hy as (x & <- & Hx).
        destruct (IH x Hx Hm) as [Hid|Hnew]; [|now right].
        left. right. apply in_ids_forest. now exists x.
      + rewrite allNodes_unfold. unfold children_or_nil. rewrite E. simpl.
        intros [<-|[]]. left. now left. }
  intros Hm. unfold forestNodes, addNodeToTree in Hm.
  apply in_flat_map in Hm as (y & Hy & Hm).
  apply in_map_iff in Hy as (x & <- & Hx).
  destruct (Hvisit x Hm) as [Hid|Hnew]; [|now right].
  left. apply in_ids_forest. now exists x.
Qed.

(** X9.  A directory made by [mkdir x] can be entered at once.  When the
    creation goes through (virtual directory, or the host grants it), the
    current directory has no FOLDER child named [x] yet and the id
    [dir_x] is not in use, then [cd x] right after answers with the empty
    string, pushes exactly the id [dir_x], and the current directory is the
    node that [mkdir] created. *)
Theorem mkdir_then_cd_enters_the_directory
    (host : Host) (st : AppState) (mk cd x : string) (dir : FileSystemNode)
    (granted : option Handle) :
  parseCommand mk = ("mkdir", Some x) ->
  parseCommand cd = ("cd", Some x) ->
  JS.truthy (Some x) = true ->
  x <> ".." ->
  currentDir st = Some dir ->
  match handle dir with
  | None => granted = None
  | Some h => exists h', getDirectoryHandle host h x = Resolved h' /\ granted = Some h'
  end ->
  (forall c, In c (children_or_nil dir) -> name c = x -> type c <> FOLDER) ->
  ~ In (id dir ++ "_" ++ x) (ids (fileSystem st)) ->
  runCommands host st [mk; cd]
  = ([match granted with
      | None => "Virtual directory '" ++ x ++ "' created."
      | Some _ => "Directory '" ++ x ++ "' created."
      end; ""],
     mkState (addNodeToTree (fileSystem st) (id dir)
                (mkNode (id dir ++ "_" ++ x) x FOLDER None None (Some []) (Some false)
                        (Some (id dir)) granted))
             (openTabs st)
             (termPath st ++ [(id dir ++ "_" ++ x)%string])%list)
  /\ currentDir (snd (runCommands host st [mk; cd]))
     = Some (mkNode (id dir ++ "_" ++ x) x FOLDER None None (Some []) (Some false)
                    (Some (id dir)) granted).
Proof.
  intros Hmk Hcd Htruthy Hne Hdir Hhost Hnofolder Hfresh.
  destruct (currentDir_pop st dir Hdir) as (i & Hpop & Hfound).
  pose proof (findNode_id _ _ _ Hfound) as Hid.
  set (created := mkNode (id dir ++ "_" ++ x) x FOLDER None None (Some []) (Some false)
                         (Some (id dir)) granted) in *.
  set (st1 := mkState (addNodeToTree (fileSystem st) (id dir) created)
                      (openTabs st) (termPath st)).
  set (out := match granted with
              | None => "Virtual directory '" ++ x ++ "' created."
              | Some _ => "Directory '" ++ x ++ "' created."
              end).
  assert (Hrun1 : runCommand host st mk = (out, st1)).
  { dispatch Hmk Hdir. unfold cmd_mkdir. rewrite Htruthy. cbv beta iota delta [negb].
    destruct (handle dir) as [h|] eqn:Hh.
    - destruct Hhost as (h' & Hres & Hg). rewrite Hres. unfold out, st1, created.
      now rewrite Hg.
    - unfold out, st1, created. now rewrite Hhost. }
  set (dir1 := with_children_open dir (children_or_nil dir ++ [created])).
  assert (Hdir1 : currentDir st1 = Some dir1).
  { unfold currentDir, st1. cbn [termPath fileSystem].
    now rewrite Hpop, Hid, findNode_addNodeToTree, Hfound. }
  assert (Hfind : JS.find (fun c => (name c =? x) && FileType_eqb (type c) FOLDER)
                          (children_or_nil dir ++ [created]) = Some created).
  { apply find_app_only_last.
    - intros c Hc. destruct (String.eqb_spec (name c) x) as [Heq|_]; [|reflexivity].
      specialize (Hnofolder c Hc Heq). destruct (type c); [reflexivity | congruence].
    - cbn. now rewrite String.eqb_refl. }
  set (st2 := mkState (fileSystem st1) (openTabs st1) (termPath st1 ++ [id created])%list).
  assert (Hrun2 : runCommand host st1 cd = ("", st2)).
  { dispatch Hcd Hdir1. unfold cmd_cd.
    rewrite (truthy_eqb_empty x Htruthy). apply String.eqb_neq in Hne. rewrite Hne.
    change (children_or_nil dir1) with (children_or_nil dir ++ [created])%list.
    rewrite Hfind. reflexivity. }
  assert (Hruns : runCommands host st [mk; cd] = ([out; ""], st2)).
  { unfold runCommands. rewrite Hrun1, Hrun2. reflexivity. }
  rewrite Hruns. split; [reflexivity|]. cbn [snd].
  unfold currentDir, st2. cbn [termPath fileSystem st1]. rewrite pop_snoc.
  pose proof (addNodeToTree_has_new_id (fileSystem st) (id dir) created dir) as Hnew.
  rewrite Hid in Hnew. specialize (Hnew Hfound). rewrite <- Hid in Hnew.
  destruct (findNode_of_member _ _ Hnew) as (f & Hf).
  rewrite Hf. f_equal.
  pose proof (findNode_id _ _ _ Hf) as Hfid.
  apply findNode_in in Hf. apply addNodeToTree_nodes in Hf as [Hold | Hin].
  - exfalso. apply Hfresh. now rewrite Hfid in Hold.
  - destruct Hin as [<-|[]]. reflexivity.
Qed.

Lemma mkdir_then_cd_enters_the_directory_witness :
  runCommands (failingHost "E") emptyVirtualProject ["mkdir src"; "cd src"]
  = (["Virtual directory 'src' created."; ""],
     mkState (addNodeToTree (fileSystem emptyVirtualProject) "root"
                (mkNode "root_src" "src" FOLDER None None (Some []) (Some false)
                        (Some "root") None))
             [] ["root"; "root_src"]).
Proof.
  refine (proj1 (mkdir_then_cd_enters_the_directory (failingHost "E") emptyVirtualProject
                   "mkdir src" "cd src" "src"
                   (mkNode "root" "Project" FOLDER None None (Some []) (Some true)
                           None None) None _ _ _ _ _ _ _ _));
    try reflexivity; try discriminate.
  - intros c [].
  - vm_compute. intuition discriminate.
Defined.

Lemma removeNodeFromTree_ids_visit (i : string) (node : FileSystemNode) :
  forall j, In j (map id (allNodes (removeNodeFromTree_visit i node))) ->
            In j (map id (allNodes node)) /\ (j = i -> id node = i).
Proof.
  induction node as [node IH] using FileSystemNode_deep_ind.
  rewrite Forall_forall in IH. intros j.
  rewrite removeNodeFromTree_filter_map, (allNodes_unfold node).
  destruct (children node) as [cs|] eqn:E.
  - rewrite (children_or_nil_some _ _ E) in *. rewrite allNodes_with_children.
    simpl. intros [Hj|Hj]; [split; [now left | congruence]|].
    fold (ids (removeNodeFromTree cs i)) in Hj.
    apply in_ids_forest in Hj as (y & Hy & Hj).
    unfold removeNodeFromTree in Hy. apply in_map_iff in Hy as (x & <- & Hx).
    apply filter_In in Hx as [Hx Hkeep].
    destruct (IH x Hx j Hj) as [Hin Heq]. split.
    + right. fold (ids cs). apply in_ids_forest. now exists x.
    + intros ->. specialize (Heq eq_refl). apply negb_true_iff in Hkeep.
      apply String.eqb_neq in Hkeep. congruence.
  - rewrite allNodes_unfold. unfold children_or_nil. rewrite E. simpl.
    intros [Hj|[]]. split; [now left | congruence].
Qed.

(** X10.  [removeNodeFromTree] introduces no id, and the removed id is gone
    from the whole tree afterwards, wherever it occurred. *)
Theorem removeNodeFromTree_ids (nodes : list FileSystemNode) (i j : string) :
  In j (ids (removeNodeFromTree nodes i)) -> In j (ids nodes) /\ j <> i.
Proof.
  intros Hj. apply in_ids_forest in Hj as (y & Hy & Hj).
  unfold removeNodeFromTree in Hy. apply in_map_iff in Hy as (x & <- & Hx).
  apply filter_In in Hx as [Hx Hkeep].
  destruct (removeNodeFromTree_ids_visit i x j Hj) as [Hin Heq]. split.
  - apply in_ids_forest. now exists x.
  - intros ->. specialize (Heq eq_refl). apply negb_true_iff in Hkeep.
    apply String.eqb_neq in Hkeep. congruence.
Qed.

Lemma removeNodeFromTree_ids_witness :
  In "root" (ids (fileSystem emptyDocsProject)) /\ "root" <> "root_docs".
Proof.
  apply (removeNodeFromTree_ids (fileSystem emptyDocsProject) "root_docs" "root").
  vm_compute. now left.
Defined.

(** X11.  Removing an id that occurs nowhere in the tree returns the tree
    unchanged. *)
Theorem removeNodeFromTree_unknown_id (nodes : list FileSystemNode) (i : string) :
  ~ In i (ids nodes) -> removeNodeFromTree nodes i = nodes.
Proof.
  assert (Hfilter : forall l : list FileSystemNode,
             (forall x, In x l -> id x <> i) ->
             filter (fun n => negb (id n =? i)) l = l).
  { induction l as [|x r IH]; simpl; intros H; [reflexivity|].
    destruct (String.eqb_spec (id x) i) as [Heq|_]; simpl.
    - exfalso. apply (H x); auto.
    - rewrite IH; [reflexivity|]. intros y Hy. apply H. now right. }
  assert (Hvisit : forall node, ~ In i (map id (allNodes node)) ->
                                removeNodeFromTree_visit i node = node).
  { induction node as [node IH] using FileSystemNode_deep_ind.
    rewrite Forall_forall in IH. intros Hnot.
    apply not_in_ids_node in Hnot as [Hid Hcs].
    rewrite removeNodeFromTree_filter_map.
    destruct (children node) as [cs|] eqn:E; [|reflexivity].
    rewrite (children_or_nil_some _ _ E) in *.
    unfold removeNodeFromTree. rewrite Hfilter.
    - rewrite map_fixed; [now apply with_children_same|].
      intros x Hx. apply IH; auto.
    - intros x Hx. exact (proj1 (not_in_ids_node i x (Hcs x Hx))). }
  intros Hnot. unfold removeNodeFromTree. rewrite Hfilter.
  - apply map_fixed. intros x Hx. apply Hvisit.
    now apply (not_in_ids_forest i nodes).
  - intros x Hx.
    exact (proj1 (not_in_ids_node i x (not_in_ids_forest i nodes Hnot x Hx))).
Qed.

Lemma removeNodeFromTree_unknown_id_witness :
  removeNodeFromTree (fileSystem emptyDocsProject) "root_src"
  = fileSystem emptyDocsProject.
Proof.
  apply (removeNodeFromTree_unknown_id (fileSystem emptyDocsProject) "root_src").
  vm_compute. intuition discriminate.
Defined.

(** * Properties of the editor handlers *)

Lemma forOf_map_option {A B C : Type} (f : A -> option B) (g : A -> A) (k : B -> C)
    (l : list A) :
  (forall x, In x l -> option_map k (f (g x)) = option_map k (f x)) ->
  option_map k (JS.forOf f (map g l)) = option_map k (JS.forOf f l).
Proof.
  induction l as [|x r IH]; simpl; intros H; [reflexivity|].
  pose proof (H x (or_introl eq_refl)) as Hx.
  destruct (f (g x)), (f x); simpl in *; try discriminate; try assumption.
  apply IH. intros y Hy. apply H. now right.
Qed.

Lemma forOf_map_found {A B : Type} (f : A -> option B) (g : A -> A) (h : B -> B)
    (l : list A) :
  (forall x, In x l -> f (g x) = option_map h (f x)) ->
  JS.forOf f (map g l) = option_map h (JS.forOf f l).
Proof.
  induction l as [|x r IH]; simpl; intros H; [reflexivity|].
  rewrite (H x (or_introl eq_refl)).
  destruct (f x); simpl; [reflexivity|].
  apply IH. intros y Hy. apply H. now right.
Qed.

Lemma updateNodes_visit_unfold (i c : string) (node : FileSystemNode) :
  updateNodes_visit i c node
  = if id node =? i then with_content node c
    else match children node with
         | Some cs => with_children node (updateNodes cs i c)
         | None => node
         end.
Proof. destruct node as [j nm t c0 lg cs o p h]. simpl. destruct cs; reflexivity. Qed.

Lemma findNode_updateNodes_same (nodes : list FileSystemNode) (i c : string) :
  findNode (updateNodes nodes i c) i
  = option_map (fun d => with_content d c) (findNode nodes i).
Proof.
  assert (Hvisit : forall node,
             findNode_visit i (updateNodes_visit i c node)
             = option_map (fun d => with_content d c) (findNode_visit i node)).
  { induction node as [node IH] using FileSystemNode_deep_ind.
    rewrite Forall_forall in IH.
    rewrite updateNodes_visit_unfold, (findNode_visit_unfold i node).
    destruct (id node =? i) eqn:E.
    - rewrite findNode_visit_unfold. cbn [with_content id]. now rewrite E.
    - destruct (children node) as [cs|] eqn:Ec.
      + rewrite (children_or_nil_some _ _ Ec) in *.
        rewrite findNode_visit_unfold. cbn [with_children id]. rewrite E.
        unfold children_or_nil. cbn [with_children children].
        unfold updateNodes. now apply forOf_map_found.
      + rewrite findNode_visit_unfold, E. unfold children_or_nil. now rewrite Ec. }
  unfold findNode, updateNodes. apply forOf_map_found. auto.
Qed.

Lemma findNode_updateNodes_other (nodes : list FileSystemNode) (i c j : string) :
  j <> i ->
  option_map content (findNode (updateNodes nodes i c) j)
  = option_map content (findNode nodes j).
Proof.
  intros Hne.
  assert (Hvisit : forall node,
             option_map content (findNode_visit j (updateNodes_visit i c node))
             = option_map content (findNode_visit j node)).
  { induction node as [node IH] using FileSystemNode_deep_ind.
    rewrite Forall_forall in IH.
    rewrite updateNodes_visit_unfold, (findNode_visit_unfold j node).
    destruct (String.eqb_spec (id node) i) as [Hi|Hi].
    - rewrite findNode_visit_unfold. cbn [with_content id].
      destruct (String.eqb_spec (id node) j) as [Hj|_]; [congruence|]. reflexivity.
    - destruct (children node) as [cs|] eqn:Ec.
      + rewrite (children_or_nil_some _ _ Ec) in *.
        rewrite findNode_visit_unfold. cbn [with_children id].
        destruct (id node =? j); [reflexivity|].
        unfold children_or_nil. cbn [with_children children].
        unfold updateNodes. now apply forOf_map_option.
      + now rewrite findNode_visit_unfold. }
  unfold findNode, updateNodes. apply forOf_map_option. auto.
Qed.

Lemma updateNodes_marks_findNode (nodes : list FileSystemNode) (i : string) :
  existsb (updateNodes_marks i) nodes
  = match findNode nodes i with Some _ => true | None => false end.
Proof.
  assert (Hloop : forall l : list FileSystemNode,
             (forall x, In x l ->
                updateNodes_marks i x
                = match findNode_visit i x with Some _ => true | None => false end) ->
             existsb (updateNodes_marks i) l
             = match JS.forOf (findNode_visit i) l with Some _ => true | None => false end).
  { induction l as [|x r IH]; simpl; intros H; [reflexivity|].
    rewrite (H x (or_introl eq_refl)).
    destruct (findNode_visit i x); [reflexivity|]. simpl.
    apply IH. intros y Hy. apply H. now right. }
  assert (Hvisit : forall node,
             updateNodes_marks i node
             = match findNode_visit i node with Some _ => true | None => false end).
  { induction node as [node IH] using FileSystemNode_deep_ind.
    rewrite Forall_forall in IH. rewrite findNode_visit_unfold.
    destruct node as [k nm t c0 lg cs o p h]. unfold children_or_nil in *. simpl in *.
    destruct (k =? i); [reflexivity|].
    destruct cs as [cs|]; [|reflexivity]. now apply Hloop. }
  unfold findNode. apply Hloop. auto.
Qed.

(** X12.  Editing a file and reading it back: after [updateFileContent]
    on an id that resolves, looking the id up finds the same node with
    the new content; the content found under every other id is as before;
    and the tabs with that id, and no others, are marked dirty. *)
Theorem updateFileContent_then_lookup
    (ed : Editor) (i newContent : string) (node : FileSystemNode) :
  findNode (ed_fileSystem ed) i = Some node ->
  findNode (ed_fileSystem (updateFileContent ed i newContent)) i
  = Some (with_content node newContent)
  /\ (forall j, j <> i ->
        option_map content (findNode (ed_fileSystem (updateFileContent ed i newContent)) j)
        = option_map content (findNode (ed_fileSystem ed) j))
  /\ map tab_id (ed_openTabs (updateFileContent ed i newContent))
     = map tab_id (ed_openTabs ed)
  /\ (forall t, In t (ed_openTabs (updateFileContent ed i newContent)) ->
        (tab_id t = i /\ isDirty t = true) \/ (tab_id t <> i /\ In t (ed_openTabs ed))).
Proof.
  intros Hfind. unfold updateFileContent. cbn [ed_fileSystem ed_openTabs].
  rewrite updateNodes_marks_findNode, Hfind. repeat split.
  - now rewrite findNode_updateNodes_same, Hfind.
  - intros j Hj. now apply findNode_updateNodes_other.
  - unfold setDirty. rewrite map_map. apply map_ext.
    intros t. now destruct (tab_id t =? i).
  - intros t Ht. unfold setDirty in Ht. apply in_map_iff in Ht as (t0 & <- & Ht0).
    destruct (String.eqb_spec (tab_id t0) i) as [Heq|Hne]; [left | right]; auto.
Qed.

Lemma updateFileContent_then_lookup_witness :
  option_map content
    (findNode (ed_fileSystem (updateFileContent docsEditor "root_docs_readme.md" "bye"))
              "root_docs_readme.md")
  = Some (Some "bye").
Proof.
  rewrite (proj1 (updateFileContent_then_lookup docsEditor "root_docs_readme.md" "bye"
                    (fileNode "root_docs_readme.md" "readme.md" (Some "root_docs") None
                              (Some "hello")) eq_refl)).
  reflexivity.
Defined.

Lemma updateNodes_unknown_id (nodes : list FileSystemNode) (i c : string) :
  ~ In i (ids nodes) -> updateNodes nodes i c = nodes.
Proof.
  assert (Hvisit : forall node, ~ In i (map id (allNodes node)) ->
                                updateNodes_visit i c node = node).
  { induction node as [node IH] using FileSystemNode_deep_ind.
    rewrite Forall_forall in IH. intros Hnot.
    apply not_in_ids_node in Hnot as [Hid Hcs].
    rewrite updateNodes_visit_unfold. apply String.eqb_neq in Hid. rewrite Hid.
    destruct (children node) as [cs|] eqn:E; [|reflexivity].
    rewrite (children_or_nil_some _ _ E) in *.
    unfold updateNodes. rewrite map_fixed; [now apply with_children_same|].
    intros x Hx. apply IH; auto. }
  intros Hnot. unfold updateNodes. apply map_fixed.
  intros x Hx. apply Hvisit. now apply (not_in_ids_forest i nodes).
Qed.

(** X13.  [updateFileContent] on an id that occurs nowhere in the tree is
    silent: tree, tabs and active tab stay as they are. *)
Theorem updateFileContent_unknown_id (ed : Editor) (i newContent : string) :
  ~ In i (ids (ed_fileSystem ed)) ->
  updateFileContent ed i newContent = ed.
Proof.
  intros Hnot. unfold updateFileContent.
  rewrite updateNodes_marks_findNode, (proj2 (findNode_none _ _) Hnot).
  rewrite updateNodes_unknown_id by assumption. now destruct ed.
Qed.

Lemma updateFileContent_unknown_id_witness :
  updateFileContent docsEditor "settings" "x" = docsEditor.
Proof.
  apply (updateFileContent_unknown_id docsEditor "settings" "x").
  vm_compute. intuition discriminate.
Defined.

Lemma toggleNodes_visit_unfold (i : string) (node : FileSystemNode) :
  toggleNodes_visit i node
  = if id node =? i
    then with_isOpen node (negb (match isOpen node with Some b => b | None => false end))
    else match children node with
         | Some cs => with_children node (toggleNodes cs i)
         | None => node
         end.
Proof. destruct node as [j nm t c0 lg cs o p h]. simpl. destruct cs; reflexivity. Qed.

(** X14.  Toggling a folder twice restores the tree, provided the nodes
    with that id carry an [isOpen] flag (as every folder the program
    creates does). *)
Theorem handleFolderToggle_twice (ed : Editor) (i : string) :
  (forall n, In n (forestNodes (ed_fileSystem ed)) -> id n = i -> isOpen n <> None) ->
  handleFolderToggle (handleFolderToggle ed i) i = ed.
Proof.
  assert (Hvisit : forall node,
             (forall n, In n (allNodes node) -> id n = i -> isOpen n <> None) ->
             toggleNodes_visit i (toggleNodes_visit i node) = node).
  { induction node as [node IH] using FileSystemNode_deep_ind.
    rewrite Forall_forall in IH. intros Hflag.
    rewrite (toggleNodes_visit_unfold i node).
    destruct (id node =? i) eqn:E.
    - rewrite toggleNodes_visit_unfold. cbn [with_isOpen id isOpen]. rewrite E.
      assert (Hopen : isOpen node <> None).
      { apply Hflag; [rewrite allNodes_unfold; now left | now apply String.eqb_eq]. }
      destruct node as [j nm t c0 lg cs o p h]. simpl in *.
      destruct o as [b|]; [|congruence]. unfold with_isOpen. simpl.
      now rewrite negb_involutive.
    - destruct (children node) as [cs|] eqn:Ec; [|now rewrite toggleNodes_visit_unfold, E, Ec].
      rewrite toggleNodes_visit_unfold. cbn [with_children id children]. rewrite E.
      unfold toggleNodes.
      rewrite map_map, (map_fixed (fun x => toggleNodes_visit i (toggleNodes_visit i x))).
      + destruct node. simpl in *. now subst.
      + intros x Hx. apply IH; [now rewrite (children_or_nil_some _ _ Ec)|].
        intros n Hn. apply Hflag. rewrite allNodes_unfold. right.
        rewrite (children_or_nil_some _ _ Ec). unfold forestNodes.
        apply in_flat_map. now exists x. }
  intros Hflag. unfold handleFolderToggle. cbn [ed_fileSystem ed_projectState
    ed_openTabs ed_activeTabId]. unfold toggleNodes.
  rewrite map_map, (map_fixed (fun x => toggleNodes_visit i (toggleNodes_visit i x))).
  - now destruct ed.
  - intros x Hx. apply Hvisit. intros n Hn. apply Hflag.
    unfold forestNodes. apply in_flat_map. now exists x.
Qed.

Lemma handleFolderToggle_twice_witness :
  handleFolderToggle (handleFolderToggle docsEditor "root_docs") "root_docs" = docsEditor.
Proof.
  apply (handleFolderToggle_twice docsEditor "root_docs").
  vm_compute. intros n [<-|[<-|[<-|[]]]]; discriminate.
Defined.

Lemma pop_in {A : Type} (l : list A) (x : A) : JS.pop l = Some x -> In x l.
Proof.
  induction l as [|y r IH]; [discriminate|]. simpl.
  destruct r as [|z r']; [intros [= <-]; now left|]. intros H. right. now apply IH.
Qed.

Lemma list_snoc_cases {A : Type} (l : list A) :
  l = [] \/ exists before x, l = (before ++ [x])%list.
Proof.
  induction l as [|x r _] using rev_ind; [now left|]. right. now exists r, x.
Qed.

(** X15.  Closing a tab removes every tab with that id and keeps the
    others in order; if the active tab is among the open ones before, it is
    so afterwards: closing the active tab activates the last of the tabs
    left, or none when no tab is left, and closing another tab leaves the
    active one alone. *)
Theorem handleTabClose_keeps_active_open (ed : Editor) (i : string) :
  activeIsOpen ed ->
  ed_openTabs (handleTabClose ed i)
  = filter (fun t => negb (tab_id t =? i)) (ed_openTabs ed)
  /\ ~ In i (map tab_id (ed_openTabs (handleTabClose ed i)))
  /\ activeIsOpen (handleTabClose ed i)
  /\ ed_activeTabId (handleTabClose ed i) <> Some i
  /\ (forall a, ed_activeTabId ed = Some a -> a <> i ->
        ed_activeTabId (handleTabClose ed i) = Some a)
  /\ (ed_activeTabId ed = Some i ->
      (filter (fun t => negb (tab_id t =? i)) (ed_openTabs ed) = []
       /\ ed_activeTabId (handleTabClose ed i) = None)
      \/ (exists before lastTab,
            filter (fun t => negb (tab_id t =? i)) (ed_openTabs ed)
            = (before ++ [lastTab])%list
            /\ ed_activeTabId (handleTabClose ed i) = Some (tab_id lastTab)))
  /\ (ed_activeTabId ed = None -> ed_activeTabId (handleTabClose ed i) = None).
Proof.
  intros Hactive. unfold handleTabClose, activeIsOpen in *.
  cbn [ed_openTabs ed_activeTabId].
  assert (Hgone : ~ In i (map tab_id (filter (fun t => negb (tab_id t =? i))
                                         (ed_openTabs ed)))).
  { intros Hin. apply in_map_iff in Hin as (t & Ht & Hin).
    apply filter_In in Hin as [_ Hkeep]. rewrite Ht, String.eqb_refl in Hkeep.
    discriminate. }
  repeat split; try assumption.
  - destruct (ed_activeTabId ed) as [a|]; [|exact I].
    destruct (String.eqb_spec a i) as [->|Hne].
    + destruct (JS.pop _) as [t|] eqn:E; [|exact I]. simpl.
      apply in_map. now apply pop_in.
    + apply in_map_iff in Hactive as (t & <- & Ht). apply in_map.
      apply filter_In. split; [assumption|].
      apply negb_true_iff. now apply String.eqb_neq.
  - destruct (ed_activeTabId ed) as [a|]; [|discriminate].
    destruct (String.eqb_spec a i) as [->|Hne]; [|congruence].
    destruct (JS.pop _) as [t|] eqn:E; [|discriminate]. simpl. intros [= Ht].
    apply Hgone. apply pop_in in E. apply (in_map tab_id) in E. now rewrite Ht in E.
  - intros a -> Hne. apply String.eqb_neq in Hne. now rewrite Hne.
  - intros ->. rewrite String.eqb_refl.
    destruct (list_snoc_cases (filter (fun t => negb (tab_id t =? i)) (ed_openTabs ed)))
      as [-> | (before & lastTab & ->)]; [left; now split|].
    right. exists before, lastTab. split; [reflexivity|]. now rewrite pop_snoc.
  - now intros ->.
Qed.

Lemma handleTabClose_keeps_active_open_witness :
  ed_activeTabId (handleTabClose docsEditor "root_docs_readme.md") <> Some "root_docs_readme.md".
Proof.
  refine (proj1 (proj2 (proj2 (proj2
            (handleTabClose_keeps_active_open docsEditor "root_docs_readme.md" _))))).
  vm_compute. now left.
Defined.

Lemma find_tab_none (i : string) (tabs : list Tab) :
  JS.find (fun tab => tab_id tab =? i) tabs = None <-> ~ In i (map tab_id tabs).
Proof.
  unfold JS.find. induction tabs as [|t r IH]; simpl; [tauto|].
  destruct (String.eqb_spec (tab_id t) i) as [Heq|Hne].
  - split; [discriminate | intros H; exfalso; apply H; now left].
  - rewrite IH. tauto.
Qed.

Lemma open_tab_once (i nm : string) (tabs : list Tab) :
  NoDup (map tab_id tabs) ->
  NoDup (map tab_id (match JS.find (fun tab => tab_id tab =? i) tabs with
                     | Some _ => tabs
                     | None => tabs ++ [mkTab i nm false]
                     end))
  /\ In i (map tab_id (match JS.find (fun tab => tab_id tab =? i) tabs with
                       | Some _ => tabs
                       | None => tabs ++ [mkTab i nm false]
                       end)).
Proof.
  intros Hnd. destruct (JS.find _ tabs) as [t|] eqn:E.
  - split; [assumption|]. apply find_some_in in E as [Hin Hid].
    apply String.eqb_eq in Hid. rewrite <- Hid. now apply in_map.
  - apply find_tab_none in E. rewrite map_app. simpl. split.
    + apply NoDup_app; [assumption | repeat constructor; auto |].
      intros a Ha [<-|[]]. contradiction.
    + apply in_or_app. right. now left.
Qed.

(** X16.  Clicking a file never opens a second tab for it: tab ids stay
    free of duplicates, the clicked id is among them afterwards, and it is
    the active tab, whatever the host answers. *)
Theorem handleFileClick_opens_one_tab
    (getFile : Handle -> Result HostFile) (ed : Editor) (node : FileSystemNode) :
  NoDup (map tab_id (ed_openTabs ed)) ->
  NoDup (map tab_id (ed_openTabs (handleFileClick getFile ed node)))
  /\ ed_activeTabId (handleFileClick getFile ed node) = Some (id node)
  /\ activeIsOpen (handleFileClick getFile ed node).
Proof.
  intros Hnd. unfold handleFileClick, activeIsOpen.
  cbn [ed_openTabs ed_activeTabId ed_fileSystem ed_projectState].
  destruct (open_tab_once (id node) (name node) (ed_openTabs ed) Hnd) as [H1 H2].
  repeat split; assumption.
Qed.

Lemma handleFileClick_opens_one_tab_witness :
  map tab_id (ed_openTabs (handleFileClick (hostWithFile 10 (Resolved "x"))
                             (handleFileClick (hostWithFile 10 (Resolved "x"))
                                lazyEditor lazyLog) lazyLog))
  = ["root_log.txt"]
  /\ NoDup (map tab_id (ed_openTabs (handleFileClick (hostWithFile 10 (Resolved "x"))
                                       (handleFileClick (hostWithFile 10 (Resolved "x"))
                                          lazyEditor lazyLog) lazyLog))).
Proof.
  split; [reflexivity|].
  refine (proj1 (handleFileClick_opens_one_tab (hostWithFile 10 (Resolved "x"))
                   (handleFileClick (hostWithFile 10 (Resolved "x")) lazyEditor lazyLog)
                   lazyLog _)).
  vm_compute. repeat constructor; simpl; tauto.
Defined.

(** X17.  The size guard of the first click on a native text file: a file
    of more than 5 MiB gets the fixed notice as content, whatever its text
    is and even if reading the text would fail; a file of at most 5 MiB
    gets the text read.  The content is stored on the node the id resolves
    to. *)
Theorem handleFileClick_size_guard
    (getFile : Handle -> Result HostFile) (ed : Editor) (node stored : FileSystemNode)
    (h : Handle) (file : HostFile) :
  handle node = Some h ->
  type node = FILE ->
  content node = None ->
  isMediaOrBinary (language node) = false ->
  getFile h = Resolved file ->
  findNode (ed_fileSystem ed) (id node) = Some stored ->
  ((5242880 < hf_size file)%N ->
   findNode (ed_fileSystem (handleFileClick getFile ed node)) (id node)
   = Some (with_content stored "File is too large to display in editor."))
  /\ (forall t, (hf_size file <= 5242880)%N -> hf_text file = Resolved t ->
        findNode (ed_fileSystem (handleFileClick getFile ed node)) (id node)
        = Some (with_content stored t)).
Proof.
  intros Hh Htype Hcontent Htext Hfile Hstored.
  unfold handleFileClick, loadContent. cbn [ed_fileSystem].
  rewrite Hh, Htype, Hcontent, Hfile, Htext.
  change maxTextSize with 5242880%N. split.
  - intros Hbig. apply N.ltb_lt in Hbig. rewrite Hbig.
    now rewrite findNode_updateNodes_same, Hstored.
  - intros t Hsmall Ht. apply N.ltb_ge in Hsmall. rewrite Hsmall, Ht.
    now rewrite findNode_updateNodes_same, Hstored.
Qed.

Lemma handleFileClick_size_guard_witness :
  findNode (ed_fileSystem (handleFileClick (hostWithFile 5242881 (Rejected "EIO"))
                             lazyEditor lazyLog)) (id lazyLog)
  = Some (with_content lazyLog "File is too large to display in editor.").
Proof.
  exact (proj1 (handleFileClick_size_guard (hostWithFile 5242881 (Rejected "EIO"))
                  lazyEditor lazyLog lazyLog (mkHandle 7)
                  (mkHostFile 5242881 (Rejected "EIO") "blob:0")
                  eq_refl eq_refl eq_refl eq_refl eq_refl eq_refl) eq_refl).
Defined.

(** X18.  A click loads nothing when the clicked node already has content
    or has no handle, and nothing when the host refuses: the tree is left
    as it is, and the host is not even consulted in the first two cases. *)
Theorem handleFileClick_without_load
    (getFile : Handle -> Result HostFile) (ed : Editor) (node : FileSystemNode) :
  (content node <> None \/ handle node = None \/ type node = FOLDER
   \/ (forall h, handle node = Some h ->
         (exists e, getFile h = Rejected e)
         \/ (exists file e, getFile h = Resolved file
                            /\ isMediaOrBinary (language node) = false
                            /\ (hf_size file <= 5242880)%N
                            /\ hf_text file = Rejected e))) ->
  ed_fileSystem (handleFileClick getFile ed node) = ed_fileSystem ed.
Proof.
  unfold handleFileClick, loadContent. cbn [ed_fileSystem].
  change maxTextSize with 5242880%N.
  intros [Hc | [Hh | [Ht | Hhost]]].
  - destruct (handle node), (type node), (content node); congruence.
  - now rewrite Hh.
  - rewrite Ht. now destruct (handle node).
  - destruct (handle node) as [h|]; [|reflexivity].
    destruct (type node); [|reflexivity].
    destruct (content node); [reflexivity|].
    destruct (Hhost h eq_refl) as [(e & ->) | (file & e & -> & -> & Hsmall & ->)];
      [reflexivity|].
    apply N.ltb_ge in Hsmall. now rewrite Hsmall.
Qed.

Lemma handleFileClick_without_load_witness :
  ed_fileSystem (handleFileClick (hostWithFile 10 (Resolved "x")) docsEditor residentLog)
  = ed_fileSystem docsEditor.
Proof.
  apply (handleFileClick_without_load (hostWithFile 10 (Resolved "x")) docsEditor
           residentLog).
  left. discriminate.
Defined.

(** X19.  [openSettings] is idempotent: the second call changes nothing.
    It adds the settings tab only when none is open, so tab ids without
    duplicates stay so, and the settings tab is the active, open one. *)
Theorem openSettings_idempotent (ed : Editor) :
  openSettings (openSettings ed) = openSettings ed
  /\ (NoDup (map tab_id (ed_openTabs ed)) ->
      NoDup (map tab_id (ed_openTabs (openSettings ed))))
  /\ ed_activeTabId (openSettings ed) = Some "settings"
  /\ activeIsOpen (openSettings ed).
Proof.
  unfold openSettings, activeIsOpen.
  cbn [ed_openTabs ed_activeTabId ed_fileSystem ed_projectState].
  repeat split.
  - f_equal.
    destruct (JS.find (fun t => tab_id t =? "settings") (ed_openTabs ed)) as [t|] eqn:E.
    + now rewrite E.
    + destruct (find_app_right (fun t => tab_id t =? "settings") (ed_openTabs ed)
                  (mkTab "settings" "Settings" false) eq_refl) as (t & ->).
      reflexivity.
  - intros Hnd. exact (proj1 (open_tab_once "settings" "Settings" (ed_openTabs ed) Hnd)).
  - destruct (JS.find (fun t => tab_id t =? "settings") (ed_openTabs ed)) as [t|] eqn:E.
    + apply find_some_in in E as [Hin Hid]. apply String.eqb_eq in Hid.
      rewrite <- Hid. now apply in_map.
    + rewrite map_app. apply in_or_app. right. now left.
Qed.

Lemma setDirty_ids (d : bool) (i : string) (tabs : list Tab) :
  map tab_id (setDirty d i tabs) = map tab_id tabs.
Proof.
  unfold setDirty. rewrite map_map. apply map_ext.
  intros t. now destruct (tab_id t =? i).
Qed.

Lemma setDirty_flag (d : bool) (i : string) (tabs : list Tab) (t : Tab) :
  In t (setDirty d i tabs) ->
  (tab_id t = i /\ isDirty t = d) \/ (tab_id t <> i /\ In t tabs).
Proof.
  unfold setDirty. intros Ht. apply in_map_iff in Ht as (t0 & <- & Ht0).
  destruct (String.eqb_spec (tab_id t0) i) as [Heq|Hne]; [left | right]; auto.
Qed.

(** X20.  Saving the active text file always leaves its tab clean, on
    either route: the node's content goes to the host file when the node
    has a handle and the write succeeds, and is offered as a download
    under the node's name otherwise.  Tree, tab order and the other tabs
    are untouched. *)
Theorem saveActiveFile_text_file
    (write : Handle -> string -> Result unit) (ed : Editor) (a c : string)
    (fileNode : FileSystemNode) :
  ed_activeTabId ed = Some a ->
  JS.truthy (Some a) = true ->
  a <> "settings" ->
  findNode (ed_fileSystem ed) a = Some fileNode ->
  content fileNode = Some c ->
  isMediaOrBinary (language fileNode) = false ->
  snd (saveActiveFile write ed)
  = match handle fileNode with
    | Some h => match write h c with
                | Resolved _ => WrittenToDisk h c
                | Rejected _ => Downloaded (name fileNode) c
                end
    | None => Downloaded (name fileNode) c
    end
  /\ ed_fileSystem (fst (saveActiveFile write ed)) = ed_fileSystem ed
  /\ map tab_id (ed_openTabs (fst (saveActiveFile write ed))) = map tab_id (ed_openTabs ed)
  /\ (forall t, In t (ed_openTabs (fst (saveActiveFile write ed))) ->
        (tab_id t = a /\ isDirty t = false) \/ (tab_id t <> a /\ In t (ed_openTabs ed))).
Proof.
  intros Hactive Htruthy Hne Hfind Hc Htext. unfold saveActiveFile.
  apply String.eqb_neq in Hne. rewrite Hactive, Htruthy, Hne, Hfind, Hc, Htext.
  cbv beta iota delta [negb].
  destruct (handle fileNode) as [h|]; [destruct (write h c)|];
    cbn [fst snd ed_fileSystem ed_openTabs];
    (repeat split; [apply setDirty_ids | apply setDirty_flag]).
Qed.

Lemma saveActiveFile_text_file_witness :
  snd (saveActiveFile (fun _ _ => Rejected "EACCES") docsEditor)
  = Downloaded "readme.md" "hello".
Proof.
  refine (proj1 (saveActiveFile_text_file (fun _ _ => Rejected "EACCES") docsEditor
                   "root_docs_readme.md" "hello"
                   (fileNode "root_docs_readme.md" "readme.md" (Some "root_docs") None
                             (Some "hello")) _ _ _ _ _ _));
    try reflexivity. discriminate.
Defined.

(** X21.  [saveActiveFile] does nothing at all (no write, no download, no
    change of state) when no tab is active, when the settings tab is
    active, when the active id does not resolve or has no content, and
    when the file is binary or media. *)
Theorem saveActiveFile_does_nothing
    (write : Handle -> string -> Result unit) (ed : Editor) :
  (ed_activeTabId ed = None
   \/ ed_activeTabId ed = Some ""
   \/ ed_activeTabId ed = Some "settings"
   \/ (exists a, ed_activeTabId ed = Some a /\ findNode (ed_fileSystem ed) a = None)
   \/ (exists a n, ed_activeTabId ed = Some a /\ findNode (ed_fileSystem ed) a = Some n
                   /\ (content n = None \/ isMediaOrBinary (language n) = true))) ->
  saveActiveFile write ed = (ed, NothingSaved).
Proof.
  unfold saveActiveFile.
  intros [-> | [-> | [-> | [(a & -> & Hnone) | (a & n & -> & Hsome & Hn)]]]];
    try reflexivity.
  - destruct (negb _); [reflexivity|]. destruct (a =? "settings"); [reflexivity|].
    now rewrite Hnone.
  - destruct (negb _); [reflexivity|]. destruct (a =? "settings"); [reflexivity|].
    rewrite Hsome. destruct Hn as [-> | Hbin]; [reflexivity|].
    destruct (content n); [|reflexivity]. now rewrite Hbin.
Qed.

Lemma saveActiveFile_does_nothing_witness :
  saveActiveFile (fun _ _ => Resolved tt) (openSettings docsEditor)
  = (openSettings docsEditor, NothingSaved).
Proof.
  apply (saveActiveFile_does_nothing (fun _ _ => Resolved tt) (openSettings docsEditor)).
  right. right. left. reflexivity.
Defined.

(** * Properties of classification and ingestion *)

Lemma split_mapChars (g : ascii -> ascii) (sep : ascii) (s : string) :
  (forall c, Ascii.eqb (g c) sep = Ascii.eqb c sep) ->
  JS.split sep (JS.mapChars g s) = map (JS.mapChars g) (JS.split sep s).
Proof.
  intros Hg. induction s as [|c r IH]; [reflexivity|]. simpl.
  rewrite Hg, IH. destruct (Ascii.eqb c sep); [reflexivity|].
  pose proof (split_nonempty sep r) as Hne.
  destruct (JS.split sep r); [congruence | reflexivity].
Qed.

Lemma pop_map {A B : Type} (g : A -> B) (l : list A) :
  JS.pop (map g l) = option_map g (JS.pop l).
Proof.
  induction l as [|x r IH]; [reflexivity|]. simpl.
  destruct r; [reflexivity | exact IH].
Qed.

Lemma upperChar_dot (c : ascii) : Ascii.eqb (JS.upperChar c) "." = Ascii.eqb c ".".
Proof. destruct c as [[] [] [] [] [] [] [] []]; reflexivity. Qed.

Lemma lowerChar_dot (c : ascii) : Ascii.eqb (JS.lowerChar c) "." = Ascii.eqb c ".".
Proof. destruct c as [[] [] [] [] [] [] [] []]; reflexivity. Qed.

Lemma lowerChar_upperChar (c : ascii) : JS.lowerChar (JS.upperChar c) = JS.lowerChar c.
Proof. destruct c as [[] [] [] [] [] [] [] []]; reflexivity. Qed.

Lemma lowerChar_lowerChar (c : ascii) : JS.lowerChar (JS.lowerChar c) = JS.lowerChar c.
Proof. destruct c as [[] [] [] [] [] [] [] []]; reflexivity. Qed.

Lemma mapChars_mapChars (f g : ascii -> ascii) (s : string) :
  JS.mapChars f (JS.mapChars g s) = JS.mapChars (fun c => f (g c)) s.
Proof. induction s as [|c r IH]; simpl; [reflexivity | now rewrite IH]. Qed.

Lemma mapChars_ext (f g : ascii -> ascii) (s : string) :
  (forall c, f c = g c) -> JS.mapChars f s = JS.mapChars g s.
Proof. intros H. induction s as [|c r IH]; simpl; [reflexivity | now rewrite H, IH]. Qed.

(** X22.  Classification ignores the case of ASCII letters: a name and
    its upper-case or lower-case form get the same language, so
    [README.MD] is text and [PHOTO.PNG] an image. *)
Theorem getLanguageFromExtension_ignores_case (filename : string) :
  getLanguageFromExtension (JS.toUpperCase filename) = getLanguageFromExtension filename
  /\ getLanguageFromExtension (JS.toLowerCase filename) = getLanguageFromExtension filename.
Proof.
  unfold getLanguageFromExtension, JS.toUpperCase, JS.toLowerCase.
  rewrite (split_mapChars JS.upperChar) by apply upperChar_dot.
  rewrite (split_mapChars JS.lowerChar) by apply lowerChar_dot.
  rewrite !pop_map.
  destruct (JS.pop (JS.split "." filename)) as [e|]; [|split; reflexivity].
  cbn [option_map]. rewrite !mapChars_mapChars.
  rewrite (mapChars_ext _ JS.lowerChar e) by apply lowerChar_upperChar.
  rewrite (mapChars_ext (fun c => JS.lowerChar (JS.lowerChar c)) JS.lowerChar e)
    by apply lowerChar_lowerChar.
  split; reflexivity.
Qed.

(** X23.  The language of a name is always one of the labels of the
    table or [text]; in particular it is never [binary] and never empty,
    so the [binary] entry of [isMediaOrBinary] is never met for a
    classified file. *)
Theorem getLanguageFromExtension_range (filename : string) :
  In (getLanguageFromExtension filename) ("text" :: map snd languageTable)
  /\ getLanguageFromExtension filename <> "binary"
  /\ getLanguageFromExtension filename <> "".
Proof.
  assert (Hin : In (getLanguageFromExtension filename) ("text" :: map snd languageTable)).
  { unfold getLanguageFromExtension.
    destruct (option_map _ _) as [e|]; [|now left].
    destruct (List.find _ languageTable) as [row|] eqn:E; [|now left].
    right. apply in_map. now apply find_some in E as [Hrow _]. }
  split; [exact Hin|].
  split; intros Heq; rewrite Heq in Hin; vm_compute in Hin;
    repeat (destruct Hin as [Hin|Hin]; [discriminate|]); exact Hin.
Qed.

Lemma updateFirst_none {A : Type} (p : A -> bool) (f : A -> A) (l : list A) :
  updateFirst p f l = None -> forall x, In x l -> p x = false.
Proof.
  induction l as [|y r IH]; simpl; intros E x Hx; [contradiction|].
  destruct (p y) eqn:Hp; [discriminate|].
  destruct (updateFirst p f r); [discriminate|].
  destruct Hx as [<-|Hx]; auto.
Qed.

Lemma folderNamesUnique_unfold (n : FileSystemNode) :
  folderNamesUnique n <->
  match children n with
  | Some cs => levelUnique cs
  | None => True
  end.
Proof.
  destruct n as [i nm t c lg cs o p h]. simpl. destruct cs as [cs|]; [|tauto].
  unfold levelUnique.
  assert (Hall : (fix all (l : list FileSystemNode) : Prop :=
                    match l with
                    | [] => True
                    | c :: r => folderNamesUnique c /\ all r
                    end) cs <-> Forall folderNamesUnique cs).
  { induction cs as [|x r IH]; simpl.
    - split; auto.
    - rewrite IH. split; [intros []; now constructor | intros H; now inversion H]. }
  now rewrite Hall.
Qed.

Lemma levelUnique_children (n : FileSystemNode) :
  folderNamesUnique n -> levelUnique (children_or_nil n).
Proof.
  intros H. apply folderNamesUnique_unfold in H. unfold children_or_nil.
  destruct (children n); [assumption|]. split; constructor.
Qed.

Lemma placeAt_levelUnique (leaf : string -> FileSystemNode) :
  (forall parent, type (leaf parent) = FILE /\ children (leaf parent) = None) ->
  forall parts level parent,
    levelUnique level -> levelUnique (placeAt parts level parent leaf).
Proof.
  intros Hleaf parts.
  induction parts as [|folderName rest IH]; intros level parent [Hnd Hall]; simpl.
  - destruct (Hleaf parent) as [Ht Hc]. split.
    + rewrite filter_app. simpl. unfold isFolder at 2. rewrite Ht. simpl.
      now rewrite app_nil_r.
    + apply Forall_app. split; [assumption|]. constructor; [|constructor].
      apply folderNamesUnique_unfold. now rewrite Hc.
  - match goal with
    | |- levelUnique (match ?u with _ => _ end) => destruct u as [level'|] eqn:E
    end.
    + apply updateFirst_some in E as (pre & x & post & -> & -> & Hx).
      apply Forall_app in Hall as [Hpre Hrest]. inversion Hrest as [|? ? Hxu Hpost]; subst.
      split.
      * apply andb_prop in Hx as [_ Hf].
        rewrite filter_app, map_app in *. simpl in *. unfold isFolder at 2.
        unfold isFolder at 2 in Hnd. cbn [with_children type].
        rewrite Hf in *. exact Hnd.
      * apply Forall_app. split; [assumption|]. constructor; [|assumption].
        apply folderNamesUnique_unfold. cbn [with_children children].
        apply IH. now apply levelUnique_children.
    + pose proof (updateFirst_none _ _ _ E) as Hnone. split.
      * rewrite filter_app, map_app. simpl.
        apply NoDup_app; [assumption | repeat constructor; auto |].
        intros a Ha [<-|[]]. apply in_map_iff in Ha as (y & Hy & Hin).
        apply filter_In in Hin as [Hin Hf]. specialize (Hnone y Hin).
        cbv beta in Hnone. unfold isFolder in Hf.
        rewrite Hy, String.eqb_refl, Hf in Hnone. discriminate.
      * apply Forall_app. split; [assumption|]. constructor; [|constructor].
        apply folderNamesUnique_unfold. cbn [with_children children].
        apply IH. split; constructor.
Qed.

(** X24.  Flat-list ingestion never duplicates a folder: at every level of
    the tree it builds, no two FOLDER siblings share a name, however many
    files lie below the same path. *)
Theorem processInputFiles_folder_names_unique (fileList : list InputFile) :
  levelUnique (processInputFiles_rootChildren fileList)
  /\ Forall folderNamesUnique (processInputFiles_tree fileList).
Proof.
  assert (Hstep : forall rc file, levelUnique rc -> levelUnique (processInputFile rc file)).
  { intros rc file [Hnd Hall]. unfold processInputFile.
    destruct (negb (JS.truthy (Some (webkitRelativePath file)))).
    - split.
      + rewrite filter_app. simpl. now rewrite app_nil_r.
      + apply Forall_app. split; [assumption|]. constructor; [|constructor].
        now apply folderNamesUnique_unfold.
    - apply placeAt_levelUnique; [|now split]. intros parent. now split. }
  assert (Hfold : forall acc, levelUnique acc ->
                              levelUnique (fold_left processInputFile fileList acc)).
  { induction fileList as [|f r IH]; simpl; intros acc Hacc; [assumption|].
    apply IH. now apply Hstep. }
  assert (Hroot : levelUnique (processInputFiles_rootChildren fileList)).
  { apply Hfold. split; constructor. }
  split; [exact Hroot|]. constructor; [|constructor].
  now apply folderNamesUnique_unfold.
Qed.

Lemma countFiles_app (l1 l2 : list FileSystemNode) :
  countFiles (l1 ++ l2) = (countFiles l1 + countFiles l2)%nat.
Proof. unfold countFiles. now rewrite forestNodes_app, filter_app, length_app. Qed.

Lemma countFiles_cons (n : FileSystemNode) (r : list FileSystemNode) :
  countFiles (n :: r)
  = ((if isFile n then 1 else 0) + countFiles (children_or_nil n) + countFiles r)%nat.
Proof.
  unfold countFiles. rewrite forestNodes_cons, filter_app, length_app. simpl.
  destruct (isFile n); simpl; lia.
Qed.

Lemma placeAt_countFiles (leaf : string -> FileSystemNode) :
  (forall parent, type (leaf parent) = FILE /\ children (leaf parent) = None) ->
  forall parts level parent,
    countFiles (placeAt parts level parent leaf) = S (countFiles level).
Proof.
  intros Hleaf parts.
  induction parts as [|folderName rest IH]; intros level parent; simpl.
  - destruct (Hleaf parent) as [Ht Hc].
    rewrite countFiles_app, countFiles_cons. unfold isFile, children_or_nil.
    rewrite Ht, Hc. cbn. lia.
  - match goal with
    | |- countFiles (match ?u with _ => _ end) = _ => destruct u as [level'|] eqn:E
    end.
    + apply updateFirst_some in E as (pre & x & post & -> & -> & Hx).
      rewrite !countFiles_app, !countFiles_cons, children_or_nil_with_children.
      rewrite IH. unfold isFile. cbn [with_children type]. lia.
    + rewrite countFiles_app, countFiles_cons, children_or_nil_with_children.
      rewrite IH. cbn. lia.
Qed.

Lemma placeAt_Forall_nodes (Q : FileSystemNode -> Prop) (leaf : string -> FileSystemNode) :
  (forall x cs, Q x -> Q (with_children x cs)) ->
  (forall folderName parent, Q (createdFolder folderName parent)) ->
  (forall parent, Q (leaf parent) /\ children (leaf parent) = None) ->
  forall parts level parent,
    Forall Q (forestNodes level) ->
    Forall Q (forestNodes (placeAt parts level parent leaf)).
Proof.
  intros Hwith Hfolder Hleaf parts.
  induction parts as [|folderName rest IH]; intros level parent Hlevel; simpl.
  - destruct (Hleaf parent) as [Hq Hc].
    rewrite forestNodes_app, forestNodes_cons. apply Forall_app. split; [assumption|].
    unfold children_or_nil. rewrite Hc. now repeat constructor.
  - match goal with
    | |- Forall Q (forestNodes (match ?u with _ => _ end)) =>
        destruct u as [level'|] eqn:E
    end.
    + apply updateFirst_some in E as (pre & x & post & -> & -> & Hx).
      rewrite forestNodes_app, forestNodes_cons in *.
      apply Forall_app in Hlevel as [Hpre Hrest].
      apply Forall_app in Hrest as [Hxs Hpost]. inversion Hxs; subst.
      apply Forall_app. split; [assumption|]. apply Forall_app. split; [|assumption].
      constructor; [now apply Hwith|].
      rewrite children_or_nil_with_children. now apply IH.
    + rewrite forestNodes_app, forestNodes_cons. apply Forall_app. split; [assumption|].
      rewrite app_nil_r. constructor; [apply Hwith, Hfolder|].
      rewrite children_or_nil_with_children. apply IH. constructor.
Qed.

(** X25.  Flat-list ingestion creates exactly one FILE node per input
    file, none lost and none doubled, and every node it creates is
    virtual: no handle, and a FILE carries its content from the start. *)
Theorem processInputFiles_one_node_per_file (fileList : list InputFile) :
  countFiles (processInputFiles_rootChildren fileList) = List.length fileList
  /\ Forall isVirtualNode (forestNodes (processInputFiles_rootChildren fileList)).
Proof.
  assert (Hcount : forall rc file,
             countFiles (processInputFile rc file) = S (countFiles rc)).
  { intros rc file. unfold processInputFile.
    destruct (negb (JS.truthy (Some (webkitRelativePath file)))).
    - rewrite countFiles_app, countFiles_cons. cbn. lia.
    - apply placeAt_countFiles. intros parent. now split. }
  assert (Hvirtual : forall rc file,
             Forall isVirtualNode (forestNodes rc) ->
             Forall isVirtualNode (forestNodes (processInputFile rc file))).
  { intros rc file Hrc. unfold processInputFile.
    destruct (negb (JS.truthy (Some (webkitRelativePath file)))).
    - rewrite forestNodes_app, forestNodes_cons. apply Forall_app. split; [assumption|].
      repeat constructor. intros _. discriminate.
    - apply placeAt_Forall_nodes; try assumption.
      + intros x cs [Hh Hf]. split; assumption.
      + intros folderName parent. split; [reflexivity | discriminate].
      + intros parent. repeat split. intros _. discriminate. }
  unfold processInputFiles_rootChildren.
  assert (Hfold : forall acc,
             Forall isVirtualNode (forestNodes acc) ->
             countFiles (fold_left processInputFile fileList acc)
             = (List.length fileList + countFiles acc)%nat
             /\ Forall isVirtualNode (forestNodes (fold_left processInputFile fileList acc))).
  { induction fileList as [|f r IH]; simpl; intros acc Hacc; [now split|].
    destruct (IH (processInputFile acc f) (Hvirtual acc f Hacc)) as [H1 H2].
    split; [|assumption]. rewrite H1, Hcount. lia. }
  destruct (Hfold [] (Forall_nil _)) as [H1 H2]. split; [|assumption].
  rewrite H1. cbn. lia.
Qed.

Lemma sortNodes_Permutation (localeCompare : string -> string -> Z)
    (l : list FileSystemNode) :
  Permutation l (sortNodes localeCompare l).
Proof.
  unfold sortNodes.
  assert (H : forall acc,
             Permutation (l ++ acc)
               (fold_left (fun acc x => insertSorted localeCompare x acc) l acc)).
  { induction l as [|x r IH]; simpl; intros acc; [reflexivity|].
    rewrite <- IH, <- (insertSorted_Permutation localeCompare x acc).
    apply Permutation_middle. }
  specialize (H []). now rewrite app_nil_r in H.
Qed.

(** X26.  Native enumeration of a directory that can be read keeps every
    entry exactly once at its level, the sort only reorders them: a file
    entry becomes a FILE node, a directory entry a FOLDER node whose
    children are the enumeration of that directory, each with the id
    built from the parent, the entry's name and the entry's own handle,
    and no content.  A directory whose enumeration throws, or a handle
    that is no directory, gives the empty list; and every node created, at
    any depth, has a handle and no content yet. *)
Theorem processDirectoryHandle_keeps_entries
    (localeCompare : string -> string -> Z) (parent : option string) :
  (forall nm h values,
     Permutation
       (processDirectoryHandle localeCompare (DirectoryEntry nm h values false) parent)
       (map (fun entry =>
               match entry with
               | FileEntry entryName entryHandle =>
                   mkNode (entryId parent entryName) entryName FILE None
                          (Some (getLanguageFromExtension entryName)) None None
                          parent (Some entryHandle)
               | DirectoryEntry entryName entryHandle _ _ =>
                   mkNode (entryId parent entryName) entryName FOLDER None None
                          (Some (processDirectoryHandle localeCompare entry
                                   (Some (entryId parent entryName))))
                          (Some false) parent (Some entryHandle)
               end) values))
  /\ (forall nm h values,
        processDirectoryHandle localeCompare (DirectoryEntry nm h values true) parent = [])
  /\ (forall nm h, processDirectoryHandle localeCompare (FileEntry nm h) parent = [])
  /\ (forall dirHandle,
        Forall isLazyNativeNode
               (forestNodes (processDirectoryHandle localeCompare dirHandle parent))).
Proof.
  repeat split.
  - intros nm h values. cbn [processDirectoryHandle].
    rewrite <- sortNodes_Permutation.
    erewrite map_ext; [reflexivity|].
    intros [enm eh | enm eh evalues ethrows]; reflexivity.
  - intros dirHandle. revert parent.
    induction dirHandle as [nm h | nm h values throws IH] using DirEntry_deep_ind;
      intros parent; simpl; [constructor|].
    destruct throws; [constructor|].
    unfold forestNodes. apply Forall_flat_map. apply sortNodes_Forall. apply Forall_map.
    induction IH as [|entry r Hentry _ IHr]; constructor; [|exact IHr].
    destruct entry as [enm eh | enm eh evalues ethrows]; simpl.
    + repeat constructor. discriminate.
    + constructor; [split; [discriminate | reflexivity]|].
      apply (Hentry (Some (entryId parent enm))).
Qed.

(** * Properties of the extension toggles *)

Lemma includes_In (x : string) (l : list string) : includes x l = true <-> In x l.
Proof.
  unfold includes. rewrite existsb_exists. split.
  - intros (y & Hy & Heq). apply String.eqb_eq in Heq. now subst.
  - intros H. exists x. split; [assumption | apply String.eqb_refl].
Qed.

Lemma includes_false (x : string) (l : list string) : includes x l = false <-> ~ In x l.
Proof.
  rewrite <- includes_In. destruct (includes x l); split; congruence.
Qed.

Lemma filter_absent (i : string) (l : list string) :
  ~ In i l -> filter (fun e => negb (e =? i)) l = l.
Proof.
  induction l as [|x r IH]; simpl; intros H; [reflexivity|].
  destruct (String.eqb_spec x i) as [->|_]; simpl.
  - exfalso. apply H. now left.
  - rewrite IH; [reflexivity|]. intros Hin. apply H. now right.
Qed.

(** X27.  Toggling an extension flips whether it is installed and leaves
    every other extension as it was; the list stays free of duplicates,
    and toggling twice gives back the same set of extensions. *)
Theorem toggleExtension_flips_membership (wb : Workbench) (i : string) :
  NoDup (installedExtensions wb) ->
  includes i (installedExtensions (toggleExtension wb i))
  = negb (includes i (installedExtensions wb))
  /\ (forall x, x <> i ->
        includes x (installedExtensions (toggleExtension wb i))
        = includes x (installedExtensions wb))
  /\ NoDup (installedExtensions (toggleExtension wb i))
  /\ (forall x, In x (installedExtensions (toggleExtension (toggleExtension wb i) i))
                <-> In x (installedExtensions wb)).
Proof.
  intros Hnd.
  assert (Hone : forall l, NoDup l ->
            (forall x, In x (installedExtensions
                               (toggleExtension (mkWorkbench l (showPreview wb)
                                  (isMobilePreview wb) (activeView wb)) i))
                       <-> (x <> i /\ In x l) \/ (x = i /\ ~ In i l))
            /\ NoDup (installedExtensions
                        (toggleExtension (mkWorkbench l (showPreview wb)
                           (isMobilePreview wb) (activeView wb)) i))).
  { intros l Hl. unfold toggleExtension. cbn [installedExtensions].
    destruct (includes i l) eqn:E; cbn [installedExtensions].
    - apply includes_In in E. split.
      + intros x. rewrite filter_In, negb_true_iff, String.eqb_neq. intuition congruence.
      + now apply NoDup_filter.
    - apply includes_false in E. split.
      + intros x. rewrite in_app_iff. simpl.
        destruct (String.eqb_spec x i) as [->|Hne]; intuition congruence.
      + apply NoDup_app; [assumption | repeat constructor; auto |].
        intros a Ha [<-|[]]. contradiction. }
  assert (Hwb : wb = mkWorkbench (installedExtensions wb) (showPreview wb)
                                 (isMobilePreview wb) (activeView wb)) by now destruct wb.
  destruct (Hone (installedExtensions wb) Hnd) as [Hmem Hnd1]. rewrite <- Hwb in *.
  assert (Hbool : forall x l1 l2, (In x l1 <-> In x l2) -> includes x l1 = includes x l2).
  { intros x l1 l2 H. destruct (includes x l1) eqn:E1, (includes x l2) eqn:E2;
      try reflexivity.
    - apply includes_In in E1. apply includes_false in E2. tauto.
    - apply includes_In in E2. apply includes_false in E1. tauto. }
  repeat split.
  - destruct (includes i (installedExtensions wb)) eqn:E; simpl.
    + apply includes_false. rewrite Hmem. apply includes_In in E. tauto.
    + apply includes_In. rewrite Hmem. apply includes_false in E. tauto.
  - intros x Hx. apply Hbool. rewrite Hmem. tauto.
  - exact Hnd1.
  - intros Hx.
    set (wb1 := toggleExtension wb i) in *.
    assert (Hwb1 : wb1 = mkWorkbench (installedExtensions wb1) (showPreview wb1)
                                     (isMobilePreview wb1) (activeView wb1))
      by now destruct wb1.
    assert (Hmem2 : forall y, In y (installedExtensions (toggleExtension wb1 i))
                              <-> (y <> i /\ In y (installedExtensions wb1))
                                  \/ (y = i /\ ~ In i (installedExtensions wb1))).
    { unfold toggleExtension. destruct (includes i (installedExtensions wb1)) eqn:E;
        cbn [installedExtensions]; intros y.
      - apply includes_In in E.
        rewrite filter_In, negb_true_iff, String.eqb_neq. intuition congruence.
      - apply includes_false in E. rewrite in_app_iff. simpl.
        destruct (String.eqb_spec y i) as [->|Hne]; intuition congruence. }
    apply Hmem2 in Hx. rewrite !Hmem in Hx.
    destruct (in_dec string_dec i (installedExtensions wb)); intuition congruence.
  - intros Hx.
    set (wb1 := toggleExtension wb i) in *.
    assert (Hmem2 : forall y, In y (installedExtensions (toggleExtension wb1 i))
                              <-> (y <> i /\ In y (installedExtensions wb1))
                                  \/ (y = i /\ ~ In i (installedExtensions wb1))).
    { unfold toggleExtension. destruct (includes i (installedExtensions wb1)) eqn:E;
        cbn [installedExtensions]; intros y.
      - apply includes_In in E.
        rewrite filter_In, negb_true_iff, String.eqb_neq. intuition congruence.
      - apply includes_false in E. rewrite in_app_iff. simpl.
        destruct (String.eqb_spec y i) as [->|Hne]; intuition congruence. }
    apply Hmem2. rewrite !Hmem.
    destruct (string_dec x i) as [->|Hne]; [right | left]; intuition congruence.
Qed.

Lemma toggleExtension_flips_membership_witness :
  includes "live-server" (installedExtensions (toggleExtension sampleWorkbench "live-server"))
  = false.
Proof.
  refine (proj1 (toggleExtension_flips_membership sampleWorkbench "live-server" _)).
  vm_compute. repeat constructor; simpl; intuition discriminate.
Defined.

(** X28.  Installing or removing extensions and the live-server button
    never leave the preview shown without the live-server extension:
    removing [live-server] hides the preview, and the button only switches
    to the extensions view when the extension is missing. *)
Theorem preview_needs_live_server (wb : Workbench) (i : string) :
  previewNeedsServer wb ->
  previewNeedsServer (toggleExtension wb i)
  /\ previewNeedsServer (toggleLiveServer wb)
  /\ (includes "live-server" (installedExtensions wb) = false ->
      showPreview (toggleLiveServer wb) = showPreview wb
      /\ activeView (toggleLiveServer wb) = EXTENSIONS)
  /\ showPreview (toggleExtension wb "live-server")
     = (showPreview wb && negb (includes "live-server" (installedExtensions wb))).
Proof.
  unfold previewNeedsServer. intros Hinv. repeat split.
  - unfold toggleExtension. destruct (includes i (installedExtensions wb)) eqn:E;
      cbn [showPreview installedExtensions].
    + destruct (String.eqb_spec i "live-server") as [->|Hne]; [discriminate|].
      intros Hshow. specialize (Hinv Hshow). apply includes_In in Hinv.
      apply includes_In. apply filter_In. split; [assumption|].
      apply negb_true_iff. apply String.eqb_neq. congruence.
    + intros Hshow. specialize (Hinv Hshow). apply includes_In in Hinv.
      apply includes_In. apply in_or_app. now left.
  - unfold toggleLiveServer.
    destruct (includes "live-server" (installedExtensions wb)) eqn:E;
      cbn [negb showPreview installedExtensions]; [intros _; exact E|].
    intros Hshow. specialize (Hinv Hshow). congruence.
  - unfold toggleLiveServer. now rewrite H.
  - unfold toggleLiveServer. now rewrite H.
  - unfold toggleExtension.
    destruct (includes "live-server" (installedExtensions wb)) eqn:E;
      cbn [showPreview negb]; [now rewrite andb_false_r | now rewrite andb_true_r].
Qed.

Lemma preview_needs_live_server_witness :
  previewNeedsServer (toggleExtension sampleWorkbench "live-server").
Proof.
  refine (proj1 (preview_needs_live_server sampleWorkbench "live-server" _)).
  intros _. reflexivity.
Defined.

Lemma length_append (a b : string) :
  String.length (a ++ b) = (String.length a + String.length b)%nat.
Proof. induction a as [|c a IH]; simpl; [reflexivity | now rewrite IH]. Qed.

Lemma length_substring0 (n : nat) (s : string) :
  (String.length (JS.substring0 n s) <= n)%nat.
Proof.
  unfold JS.substring0. revert s. induction n as [|n IH]; intros s.
  - destruct s; simpl; lia.
  - destruct s as [|c r]; simpl; [lia|]. specialize (IH r). lia.
Qed.

(** X29.  [cat] on a text-like FILE child never prints more than 503
    characters (500 of content and the three dots), whether the content is
    resident, read from the host, or the read fails; and it changes
    nothing. *)
Theorem cat_output_is_bounded
    (host : Host) (st : AppState) (cmd nm : string) (dir file : FileSystemNode) :
  parseCommand cmd = ("cat", Some nm) ->
  JS.truthy (Some nm) = true ->
  currentDir st = Some dir ->
  JS.find (fun n => (name n =? nm) && FileType_eqb (type n) FILE) (children_or_nil dir)
    = Some file ->
  isMediaOrBinary (language file) = false ->
  (String.length (fst (runCommand host st cmd)) <= 503)%nat
  /\ snd (runCommand host st cmd) = st.
Proof.
  intros Hparse Htruthy Hdir Hfind Htext.
  dispatch Hparse Hdir. unfold cmd_cat.
  rewrite Htruthy. cbv beta iota delta [negb]. rewrite Hfind, Htext.
  cbn [fst snd applyUpdates fold_left]. split; [|reflexivity].
  assert (Hres : forall c,
             (String.length (JS.substring0 500 c
                             ++ (if (500 <? String.length c)%nat then "..." else ""))
              <= 503)%nat).
  { intros c. rewrite length_append. pose proof (length_substring0 500 c).
    destruct (500 <? String.length c)%nat; simpl; lia. }
  destruct (handle file) as [h|], (content file) as [c|]; try apply Hres.
  destruct (getFile_text host h) as [t|e].
  - pose proof (length_substring0 500 t). lia.
  - simpl. lia.
Qed.

Lemma cat_output_is_bounded_witness :
  (String.length (fst (runCommand (grantingHost (replicate 600 "a"))
                         (projectWith (Some (mkHandle 0)) [lazyLog]) "cat log.txt"))
   <= 503)%nat.
Proof.
  refine (proj1 (cat_output_is_bounded (grantingHost (replicate 600 "a"))
                   (projectWith (Some (mkHandle 0)) [lazyLog]) "cat log.txt" "log.txt"
                   (mkNode "root" "Project" FOLDER None None (Some [lazyLog]) (Some true)
                           None (Some (mkHandle 0)))
                   lazyLog _ _ _ _ _)); reflexivity.
Defined.

Lemma findContent_visit_source (fileName c : string) (node : FileSystemNode) :
  findContent_visit fileName node = Some c ->
  exists m, In m (allNodes node) /\ name m = fileName /\ content m = Some c.
Proof.
  revert c. induction node as [node IH] using FileSystemNode_deep_ind.
  rewrite Forall_forall in IH. intros c. rewrite allNodes_unfold.
  destruct node as [j nm t c0 lg cs o p h]. unfold children_or_nil in *. simpl in *.
  destruct (String.eqb_spec nm fileName) as [Heq|_].
  - destruct c0 as [c0|].
    + intros [= <-]. eexists. split; [now left|]. split; [exact Heq | reflexivity].
    + destruct cs as [cs|]; [|discriminate].
      destruct (JS.forOf (findContent_visit fileName) cs) as [found|] eqn:E; [|discriminate].
      destruct (negb (found =? "")); [|discriminate]. intros [= <-].
      apply forOf_some in E as (x & Hx & Hv).
      destruct (IH x Hx found Hv) as (m & Hm & Hname & Hc).
      exists m. split; [|now split]. right. unfold forestNodes.
      apply in_flat_map. now exists x.
  - destruct cs as [cs|]; [|discriminate].
    destruct (JS.forOf (findContent_visit fileName) cs) as [found|] eqn:E; [|discriminate].
    destruct (negb (found =? "")); [|discriminate]. intros [= <-].
    apply forOf_some in E as (x & Hx & Hv).
    destruct (IH x Hx found Hv) as (m & Hm & Hname & Hc).
    exists m. split; [|now split]. right. unfold forestNodes.
    apply in_flat_map. now exists x.
Qed.

(** X30.  [getFileContent] never answers with the content of a node of
    another name: its result is the empty string or the content of a node
    with exactly the name asked for.  It is the content of the first such
    node in depth-first order whenever that content is not empty. *)
Theorem getFileContent_comes_from_a_named_node
    (fileSystem : list FileSystemNode) (fileName : string) :
  (getFileContent fileSystem fileName = ""
   \/ exists m, In m (forestNodes fileSystem) /\ name m = fileName
                /\ content m = Some (getFileContent fileSystem fileName))
  /\ (getFileContent_spec fileSystem fileName <> "" ->
      getFileContent fileSystem fileName = getFileContent_spec fileSystem fileName).
Proof.
  split; [|apply getFileContent_agrees_on_nonempty_first_match].
  unfold getFileContent, findContent.
  destruct (JS.forOf (findContent_visit fileName) fileSystem) as [s|] eqn:E; [|now left].
  unfold JS.truthy. destruct (String.eqb_spec s "") as [->|_]; simpl; [now left|].
  right. apply forOf_some in E as (x & Hx & Hv).
  apply findContent_visit_source in Hv as (m & Hm & Hname & Hc).
  exists m. split; [|now split]. unfold forestNodes. apply in_flat_map. now exists x.
Qed.
